(** * S2Tiles: a shallow embedding of the archive engine (src/index.ts)

    The development follows the TypeScript source: the path encoder
    [getS2TilePath], the directory geometry [_buildDirSize], the 10-byte
    node codec, the trie walker [walk] and the store operations
    [putTile], [getTileS2], [hasTileS2], [commit] and [setup].

    JavaScript numbers are modelled as mathematical integers ([Z]); every
    quantity the engine computes is an integer that stays far below 2^53,
    where doubles are exact.  The 32-bit bit operators ([&], [>>], [<<])
    are written out with their ToInt32 wrap-around. *)

From Stdlib Require Import ZArith List Lia Bool.
From Stdlib Require Import Strings.Byte Strings.String.
From stdpp Require Import base option numbers list gmap.
Import ListNotations.

#[local] Open Scope Z_scope.

(** ** JavaScript integer operators *)

Module JS.

(** ToInt32: reduction modulo 2^32 into [-2^31, 2^31). *)
Definition toInt32 (z : Z) : Z := (z + 2 ^ 31) mod 2 ^ 32 - 2 ^ 31.

(** [a & b] *)
Definition and (a b : Z) : Z := Z.land (toInt32 a) (toInt32 b).

(** [a >> k]: sign-propagating shift of the 32-bit value, count taken modulo 32. *)
Definition shr (a k : Z) : Z := Z.shiftr (toInt32 a) (k mod 32).

(** [a << k]: 32-bit left shift, count taken modulo 32. *)
Definition shl (a k : Z) : Z := toInt32 (Z.shiftl (toInt32 a) (k mod 32)).

(** [a % b]: remainder with the sign of the dividend. *)
Definition rem (a b : Z) : Z := Z.rem a b.

End JS.

(** ** Constants of the layout *)

Definition NODE_SIZE : Z := 10.
Definition DIR_SIZE : Z := 1365 * NODE_SIZE.
Definition METADATA_SIZE : Z := 131072.
Definition ROOT_DIR_SIZE : Z := DIR_SIZE * 6.
Definition ROOT_SIZE : Z := METADATA_SIZE + ROOT_DIR_SIZE.

(** ** Path encoder *)

(** A zoom slice [(zoom, x, y)] as pushed on the intermediate list. *)
Definition Slice : Type := Z * Z * Z.

(** First loop of [getS2TilePath]:
    [while (zoom >= 5) { path.push([5, x & 31, y & 31]); x >>= 5; y >>= 5;
    zoom = max(zoom - 5, 0); } path.push([zoom, x, y]);].
    [None] stands for a loop that has not finished within [fuel] rounds. *)
Fixpoint tileSlicesLoop (fuel : nat) (zoom x y : Z) (path : list Slice)
  : option (list Slice) :=
  if 5 <=? zoom then
    match fuel with
    | O => None
    | S fuel' =>
        tileSlicesLoop fuel' (Z.max (zoom - 5) 0) (JS.shr x 5) (JS.shr y 5)
          (path ++ [(5, JS.and x 31, JS.and y 31)])
    end
  else Some (path ++ [(zoom, x, y)]).

Definition tileSlices (zoom x y : Z) : option (list Slice) :=
  tileSlicesLoop (Z.to_nat zoom) zoom x y [].

(** Inner loop of the map callback: [while (zoom-- !== 0) val += pow(1 << zoom, 2)].
    The loop does not end for a negative zoom: [None]. *)
Fixpoint slotIndexLoop (fuel : nat) (zoom val : Z) : option Z :=
  if zoom =? 0 then Some val
  else
    match fuel with
    | O => None
    | S fuel' =>
        let zoom' := zoom - 1 in
        slotIndexLoop fuel' zoom' (val + (JS.shl 1 zoom') ^ 2)
    end.

(** The map callback: [val = y * (1 << zoom) + x] followed by the inner loop. *)
Definition slotIndex (s : Slice) : option Z :=
  let '(zoom, x, y) := s in
  slotIndexLoop (Z.to_nat zoom) zoom (0 + (y * JS.shl 1 zoom + x)).

(** [getS2TilePath(zoom, x, y)] *)
Definition getS2TilePath (zoom x y : Z) : option (list Z) :=
  slices ← tileSlices zoom x y;
  mapM slotIndex slices.

(** ** Directory geometry *)

(** [do { dirSize += pow(1 << remainder, 2) } while (remainder-- !== 0)] *)
Fixpoint buildDirSizeLoop (fuel : nat) (remainder dirSize : Z) : option Z :=
  let dirSize' := dirSize + (JS.shl 1 remainder) ^ 2 in
  if remainder =? 0 then Some dirSize'
  else
    match fuel with
    | O => None
    | S fuel' => buildDirSizeLoop fuel' (remainder - 1) dirSize'
    end.

(** [_buildDirSize(depth, maxzoom)] *)
Definition _buildDirSize (depth maxzoom : Z) : option Z :=
  let remainder := Z.min (maxzoom - depth) 5 in
  dirSize ← buildDirSizeLoop (Z.to_nat remainder) remainder 0;
  Some (dirSize * NODE_SIZE).

(** The spec's level offsets: [∑_{k=0..z-1} 4^k]. *)
Definition levelBase (z : Z) : Z :=
  fold_right Z.add 0 (map (fun k => 4 ^ Z.of_nat k) (seq 0 (Z.to_nat z))).


(** ** Bytes and buffers *)

Abbreviation bytes := (list byte).

Definition byteToZ (b : byte) : Z := Z.of_N (Byte.to_N b).

(** Storing a number in one byte cell keeps its low eight bits. *)
Definition byteOfZ (z : Z) : byte :=
  default x00 (Byte.of_N (Z.to_N (z mod 256))).

(** [Buffer.alloc(n)], [new Uint8Array(new ArrayBuffer(n))]: [n] zero bytes. *)
Definition alloc (n : Z) : bytes := replicate (Z.to_nat n) x00.

Definition byteLength (b : bytes) : Z := Z.of_nat (length b).

(** [buf[i]] as a number; cells outside the buffer are never reached by the
    engine (all its buffers are read within bounds). *)
Definition getByte (buf : bytes) (i : Z) : Z :=
  byteToZ (nth (Z.to_nat i) buf x00).

Definition readUint8 (buf : bytes) (off : Z) : Z := getByte buf off.

Definition readUint16LE (buf : bytes) (off : Z) : Z :=
  getByte buf off + 256 * getByte buf (off + 1).

Definition readUint32LE (buf : bytes) (off : Z) : Z :=
  getByte buf off + 256 * getByte buf (off + 1)
  + 65536 * getByte buf (off + 2) + 16777216 * getByte buf (off + 3).

(** [buf[off..off+len) = data] *)
Definition setBytes (buf : bytes) (off : Z) (data : bytes) : bytes :=
  list_inserts (Z.to_nat off) data buf.

(** The [Buffer.write*] methods check the range of the value and raise
    ERR_OUT_OF_RANGE ([None]) outside it. *)
Definition writeUint8 (buf : bytes) (value off : Z) : option bytes :=
  if (0 <=? value) && (value <=? 255)
  then Some (setBytes buf off [byteOfZ value])
  else None.

Definition writeUint16LE (buf : bytes) (value off : Z) : option bytes :=
  if (0 <=? value) && (value <=? 65535)
  then Some (setBytes buf off [byteOfZ value; byteOfZ (value / 256)])
  else None.

Definition writeUint32LE (buf : bytes) (value off : Z) : option bytes :=
  if (0 <=? value) && (value <=? 4294967295)
  then Some (setBytes buf off
               [byteOfZ value; byteOfZ (value / 256);
                byteOfZ (value / 65536); byteOfZ (value / 16777216)])
  else None.

(** [_readUInt48LE(buffer)] *)
Definition _readUInt48LE (buffer : bytes) : Z :=
  readUint32LE buffer 2 * JS.shl 1 16 + readUint16LE buffer 0.

(** [_writeUInt48LE(data, num)].  [upper = num / (1 << 16)] is a real
    quotient: the range check of [writeUInt32LE] compares it with
    [2^32 - 1] before the byte stores truncate it, so the largest offset
    that can be written is [(2^32 - 1) * 65536]. *)
Definition _writeUInt48LE (data : bytes) (num : Z) : option bytes :=
  let lower := JS.and num 65535 in
  let d := JS.shl 1 16 in
  data ← writeUint16LE data lower 0;
  if (0 <=? num) && (num <=? 4294967295 * d)
  then writeUint32LE data (num / d) 2
  else None.

(** ** The file *)

(** A file is its length and its bytes; a byte that was never stored reads
    as zero (the file is created zero-filled and holes are zero). *)
Record File : Type := mkFile { fsize : Z; fdata : gmap Z byte }.

Definition byteAt (f : File) (i : Z) : byte := default x00 (fdata f !! i).

Fixpoint storeBytes (m : gmap Z byte) (pos : Z) (data : bytes) : gmap Z byte :=
  match data with
  | [] => m
  | b :: rest => storeBytes (<[pos := b]> m) (pos + 1) rest
  end.

(** [write(fd, buffer, 0, length, position)]: stores [buffer[0..length)] at
    [position] and extends the file when the range ends past its end;
    a [length] beyond the buffer is refused (ERR_OUT_OF_RANGE, [None]). *)
Definition fileWrite (f : File) (buffer : bytes) (length position : Z)
  : option File :=
  if (length <? 0) || (byteLength buffer <? length) then None
  else if length =? 0 then Some f
  else Some {| fsize := Z.max (fsize f) (position + length);
               fdata := storeBytes (fdata f) position
                          (take (Z.to_nat length) buffer) |}.

(** [read(fd, buffer, 0, length, position)]: the buffer after the call.  Only
    the bytes that exist in the file are copied; the rest of the buffer keeps
    what it held. *)
Fixpoint loadBytes (f : File) (pos : Z) (n : nat) : bytes :=
  match n with
  | O => []
  | S n' => byteAt f pos :: loadBytes f (pos + 1) n'
  end.

Definition fileRead (f : File) (buffer : bytes) (length position : Z) : bytes :=
  let n := Z.to_nat (Z.max 0 (Z.min length (fsize f - position))) in
  loadBytes f position n ++ drop n buffer.

(** [writeSync(openSync(path, 'w'), new Uint8Array(new ArrayBuffer(n)))] *)
Definition zeroFile (n : Z) : File := {| fsize := n; fdata := ∅ |}.

(** ** Compression kinds *)

Module Compression.

Definition Unknown : Z := 0.
Definition None : Z := 1.
Definition Gzip : Z := 2.
Definition Brotli : Z := 3.
Definition Zstd : Z := 4.

End Compression.

(** ** Errors *)

Inductive Error : Type :=
| BadMetadata                 (* Bad metadata from path *)
| FailedToExtrapolate         (* Failed to extrapolate path metadata *)
| MetadataTooLarge            (* Metadata too large for S2Tiles *)
| CompressionNotSupported     (* Compression type not supported *)
| DecompressionNotSupported   (* Decompression type not supported *)
| CodecError                  (* raised by gunzip / brotliDecompress *)
| SyntaxError                 (* raised by JSON.parse *)
| OutOfRange.                 (* ERR_OUT_OF_RANGE of Buffer and fs *)

(** ** External collaborators: codecs and JSON *)

Record Env : Type := mkEnv {
  Metadata : Type;
  (** [encoder.encode(JSON.stringify(metadata))] *)
  encodeJSON : Metadata -> bytes;
  (** [JSON.parse(decoder.decode(bytes))]; [None] when parsing fails *)
  parseJSON : bytes -> option Metadata;
  gzip : bytes -> bytes;
  gunzip : bytes -> option bytes;
  brotliCompress : bytes -> bytes;
  brotliDecompress : bytes -> option bytes;
}.

(** ** The store and its operations *)

(** What a call leaves behind: a value, an exception, or no answer at all
    (a loop of the source that never ends). *)
Inductive Outcome (S A : Type) : Type :=
| Ret (a : A) (s : S)
| Throw (e : Error) (s : S)
| Hang.

Arguments Ret {S A} a s.
Arguments Throw {S A} e s.
Arguments Hang {S A}.

Section Engine.

Variable env : Env.

(** The fields of [S2TilesStore]; [file] is the content of the file at
    [path], which the store reads and writes through its descriptor. *)
Record Store : Type := mkStore {
  file : File;
  isSetup : bool;
  offset : Z;
  maxzoom : Z;
  version : Z;
  compression : Z;
  metadata : option (Metadata env);
}.

Definition M (A : Type) : Type := Store -> Outcome Store A.

#[global] Instance M_ret : MRet M := fun A a s => Ret a s.

#[global] Instance M_bind : MBind M := fun A B k m s =>
  match m s with
  | Ret a s' => k a s'
  | Throw e s' => Throw e s'
  | Hang => Hang
  end.

Definition throw {A} (e : Error) : M A := fun s => Throw e s.
Definition hang {A} : M A := fun _ => Hang.
Definition get : M Store := fun s => Ret s s.
Definition put (s : Store) : M unit := fun _ => Ret tt s.

(** A buffer or fs call that raises ERR_OUT_OF_RANGE. *)
Definition checked {A} (o : option A) : M A :=
  match o with Some a => mret a | None => throw OutOfRange end.

(** A loop of the source: its result, or no answer. *)
Definition looped {A} (o : option A) : M A :=
  match o with Some a => mret a | None => hang end.

Definition setFile (f : File) : M unit := fun s =>
  Ret tt (mkStore f (isSetup s) (offset s) (maxzoom s) (version s)
            (compression s) (metadata s)).

Definition setOffset (o : Z) : M unit := fun s =>
  Ret tt (mkStore (file s) (isSetup s) o (maxzoom s) (version s)
            (compression s) (metadata s)).

(** [await readAsync(this.file, buffer, 0, length, position)] *)
Definition readAsync (buffer : bytes) (length position : Z) : M bytes :=
  s ← get; mret (fileRead (file s) buffer length position).

(** [await writeAsync(this.file, buffer, 0, length, position)] *)
Definition writeAsync (buffer : bytes) (length position : Z) : M unit :=
  s ← get;
  f ← checked (fileWrite (file s) buffer length position);
  setFile f.

(** [compress(data, compression)] *)
Definition compress (data : bytes) (compression : Z) : M bytes :=
  if compression =? Compression.None then mret data
  else if compression =? Compression.Gzip then mret (gzip env data)
  else if compression =? Compression.Brotli then mret (brotliCompress env data)
  else throw CompressionNotSupported.

(** [decompress(data, compression)] *)
Definition decompress (data : bytes) (compression : Z) : M bytes :=
  if compression =? Compression.None then mret data
  else if compression =? Compression.Gzip then
    match gunzip env data with Some d => mret d | None => throw CodecError end
  else if compression =? Compression.Brotli then
    match brotliDecompress env data with
    | Some d => mret d
    | None => throw CodecError
    end
  else throw DecompressionNotSupported.

(** [new S2TilesStore(path, maxzoom?, compression?)]; [existing] is the
    content of the file at [path] when there is one. *)
Definition constructor (existing : option File) (maxzoom compression : option Z)
  : Store :=
  {| file := match existing with
             | Some f => f
             | None => zeroFile ROOT_SIZE
             end;
     isSetup := false;
     offset := ROOT_SIZE;
     maxzoom := default 0 maxzoom;
     version := 1;
     compression := default Compression.Gzip compression;
     metadata := None |}.

(** [setup()] *)
Definition setup : M unit :=
  s ← get;
  if isSetup s then mret tt
  else
    put (mkStore (file s) true (offset s) (maxzoom s) (version s)
           (compression s) (metadata s));;
    data ← readAsync (alloc ROOT_SIZE) ROOT_SIZE 0;
    if negb (readUint16LE data 0 =? 12883) then throw BadMetadata
    else
      let version' := readUint16LE data 2 in
      let maxzoom' := readUint8 data 4 in
      let compression' := readUint8 data 5 in
      s ← get;
      put (mkStore (file s) (isSetup s) (offset s) maxzoom' version'
             compression' (metadata s));;
      let mL := readUint32LE data 6 in
      if mL =? 0 then throw FailedToExtrapolate
      else
        meta_data ← decompress (take (Z.to_nat mL) (drop 10 data)) compression';
        match parseJSON env meta_data with
        | None => throw SyntaxError
        | Some md =>
            s ← get;
            put (mkStore (file s) (isSetup s) (offset s) (maxzoom s)
                   (version s) (compression s) (Some md))
        end.

(** [getMetadata()]; the result is [this.metadata]. *)
Definition getMetadata : M (option (Metadata env)) :=
  s ← get;
  match metadata s with
  | Some md => mret (Some md)
  | None => setup;; s ← get; mret (metadata s)
  end.

(** [#writeNode(cursor, node)] *)
Definition writeNode (cursor : Z) (node : Z * Z) : M unit :=
  let '(offset, length) := node in
  let nodeBuf := alloc NODE_SIZE in
  nodeBuf ← checked (_writeUInt48LE nodeBuf offset);
  nodeBuf ← checked (writeUint32LE nodeBuf length 6);
  writeAsync nodeBuf NODE_SIZE cursor.

(** [#createLeafDir(cursor, depth)] *)
Definition createLeafDir (cursor depth : Z) : M Z :=
  s ← get;
  dirSize ← looped (_buildDirSize depth (maxzoom s));
  let offset0 := offset s in
  let node := (offset0, dirSize) in
  writeAsync (alloc dirSize) dirSize offset0;;
  s ← get;
  setOffset (offset s + dirSize);;
  writeNode cursor node;;
  mret offset0.

(** The loop of [#walk]: [path] is what is left of the path, [leafNode] the
    buffer allocated once before the loop and reused by every read. *)
Fixpoint walkLoop (maxzoom zoom : Z) (create : bool) (path : list Z)
    (leafNode : bytes) (cursor depth : Z) : M Z :=
  match path with
  | [] => mret cursor
  | shift :: path =>
      let depth := depth + 1 in
      let cursor := cursor + shift * NODE_SIZE in
      match path with
      | [] => mret cursor
      | p0 :: _ =>
          if (JS.rem maxzoom 5 =? 0) && (Z.of_nat (length path) =? 1)
             && (zoom =? maxzoom) && (p0 =? 0)
          then mret cursor
          else
            leafNode ← readAsync leafNode NODE_SIZE cursor;
            let leaf := _readUInt48LE leafNode in
            if leaf =? 0 then
              if create then
                cursor ← createLeafDir cursor (depth * 5);
                walkLoop maxzoom zoom create path leafNode cursor depth
              else mret 0
            else walkLoop maxzoom zoom create path leafNode leaf depth
      end
  end.

(** [#walk(face, zoom, x, y, create)] *)
Definition walk (face zoom x y : Z) (create : bool) : M Z :=
  s ← get;
  let maxzoom := maxzoom s in
  let leafNode := alloc NODE_SIZE in
  let cursor := METADATA_SIZE + face * DIR_SIZE in
  path ← looped (getS2TilePath zoom x y);
  walkLoop maxzoom zoom create path leafNode cursor 0.

(** [#putNodeInDir(face, zoom, x, y, node)] *)
Definition putNodeInDir (face zoom x y : Z) (node : Z * Z) : M unit :=
  cursor ← walk face zoom x y true;
  writeNode cursor node.

(** [putTile(face, zoom, x, y, data)] *)
Definition putTile (face zoom x y : Z) (data : bytes) : M unit :=
  let length := byteLength data in
  s ← get;
  let node := (offset s, length) in
  data ← compress data (compression s);
  writeAsync data length (offset s);;
  s ← get;
  setOffset (offset s + length);;
  putNodeInDir face zoom x y node.

Definition writeTileS2 := putTile.
Definition writeTileWM (zoom x y : Z) (data : bytes) : M unit :=
  putTile 0 zoom x y data.

(** [hasTileS2(face, zoom, x, y)].  The test [cursor === undefined] of the
    source never holds: [#walk] returns a number on each of its paths. *)
Definition hasTileS2 (face zoom x y : Z) : M bool :=
  setup;;
  cursor ← walk face zoom x y false;
  node ← readAsync (alloc NODE_SIZE) NODE_SIZE cursor;
  let '(offset, length) := (_readUInt48LE node, readUint32LE node 6) in
  mret (negb (offset =? 0) && negb (length =? 0)).

Definition hasTileWM (zoom x y : Z) : M bool := hasTileS2 0 zoom x y.

(** [getTileS2(face, zoom, x, y)]: [Some] bytes, or [None] for [undefined].
    As in [hasTileS2], the [undefined] branch after the walk is dead. *)
Definition getTileS2 (face zoom x y : Z) : M (option bytes) :=
  setup;;
  s ← get;
  let compression := compression s in
  cursor ← walk face zoom x y false;
  node ← readAsync (alloc NODE_SIZE) NODE_SIZE cursor;
  let '(offset, length) := (_readUInt48LE node, readUint32LE node 6) in
  data ← readAsync (alloc length) length offset;
  r ← decompress data compression;
  mret (Some r).

Definition getTileWM (zoom x y : Z) : M (option bytes) :=
  setup;; getTileS2 0 zoom x y.

(** [commit(metadata, tileCompression?)] *)
Definition commit (metadata : Metadata env) (tileCompression : option Z)
  : M unit :=
  s ← get;
  let data := alloc 10 in
  data ← checked (writeUint8 data 83 0);
  data ← checked (writeUint8 data 50 1);
  data ← checked (writeUint16LE data (version s) 2);
  data ← checked (writeUint8 data (maxzoom s) 4);
  data ← checked (writeUint8 data (default (compression s) tileCompression) 5);
  let metaBuffer := encodeJSON env metadata in
  metaBuffer ← compress metaBuffer (compression s);
  if METADATA_SIZE - 10 <? byteLength metaBuffer then throw MetadataTooLarge
  else
    data ← checked (writeUint32LE data (byteLength metaBuffer) 6);
    writeAsync data 10 0;;
    writeAsync metaBuffer (byteLength metaBuffer) 10.

End Engine.

Arguments file {env} _.
Arguments isSetup {env} _.
Arguments offset {env} _.
Arguments maxzoom {env} _.
Arguments version {env} _.
Arguments compression {env} _.
Arguments metadata {env} _.
Arguments mkStore {env}.

(** * Auxiliary definitions used by the statements and proofs *)

(** The slices in the order in which the loop pushes them: [n] five-bit
    slices, lowest bits first, then the residual slice. *)
Fixpoint slicesFrom (n : nat) (zoom x y : Z) : list Slice :=
  match n with
  | O => [(zoom, x, y)]
  | S n' =>
      (5, JS.and x 31, JS.and y 31)
        :: slicesFrom n' (Z.max (zoom - 5) 0) (JS.shr x 5) (JS.shr y 5)
  end.


(** The path length as the specification words it: [⌈zoom / 5⌉ + 1] for a
    positive zoom, [1] for zoom 0. *)
Definition specPathLength (zoom : Z) : Z :=
  if zoom =? 0 then 1 else (zoom + 4) / 5 + 1.

(** The slice of the least-significant five bits of [(x, y)]. *)
Definition lowSlice (x y : Z) : Slice := (5, x mod 32, y mod 32).

(** The residual slice: what is left of [(zoom, x, y)] once all the
    five-bit groups are taken away (the most significant bits). *)
Definition residualSlice (zoom x y : Z) : Slice :=
  (zoom mod 5, x / 32 ^ (zoom / 5), y / 32 ^ (zoom / 5)).

(** The order of a path as the specification words it: the first element
    is the residual slice, the last one the least-significant slice. *)
Definition specRootFirst (zoom x y : Z) (path : list Z) : Prop :=
  head path = slotIndex (residualSlice zoom x y)
  /\ last path = slotIndex (lowSlice x y).

(** ** Reading outcomes *)

Definition result {S A} (o : Outcome S A) : option A :=
  match o with Ret a _ => Some a | _ => None end.

Definition final {S A} (o : Outcome S A) : option S :=
  match o with Ret _ s => Some s | _ => None end.

Definition raised {S A} (o : Outcome S A) : option Error :=
  match o with Throw e _ => Some e | _ => None end.

(** ** A concrete environment for the scenarios

    Metadata is kept as its JSON text.  The two codecs put a marker in front
    of the data, as the gzip and brotli containers put a header, and refuse
    input without it. *)
Definition sampleEnv : Env :=
  {| Metadata := bytes;
     encodeJSON := fun b => b;
     parseJSON := fun b => Some b;
     gzip := fun b => x1f :: x8b :: b;
     gunzip := fun b => match b with x1f :: x8b :: r => Some r | _ => None end;
     brotliCompress := fun b => xce :: b;
     brotliDecompress := fun b => match b with xce :: r => Some r | _ => None end |}.

Definition utf8 (s : String.string) : bytes := String.list_byte_of_string s.

Definition helloWorld : bytes := utf8 "hello world"%string.
Definition helloWorld2 : bytes := utf8 "hello world 2"%string.

(** The JSON text of [{ metadata: true }]. *)
Definition metadataTrue : bytes :=
  [x7b; x22] ++ utf8 "metadata"%string ++ [x22] ++ utf8 ":true}"%string.

(** The writer of the test "S2Tiles - Buffer Writer - WM". *)
Definition wmSmallWriter : M sampleEnv unit :=
  writeTileWM sampleEnv 0 0 0 helloWorld;;
  writeTileWM sampleEnv 1 0 1 helloWorld;;
  writeTileWM sampleEnv 9 22 9 helloWorld2;;
  commit sampleEnv metadataTrue None.

(** Its reader: the three tiles and the missing one, on one store. *)
Definition wmSmallReader : M sampleEnv (list (option bytes) * bool) :=
  t1 ← getTileWM sampleEnv 0 0 0;
  t2 ← getTileWM sampleEnv 1 0 1;
  t3 ← getTileWM sampleEnv 9 22 9;
  h ← hasTileWM sampleEnv 1 1 1;
  mret ([t1; t2; t3], h).

(** File length after the writer, and what the reader returns on a store
    opened on the written file. *)
Definition wmSmall : option (Z * (list (option bytes) * bool)) :=
  w ← final (wmSmallWriter (constructor sampleEnv None (Some 9) (Some Compression.None)));
  r ← result (wmSmallReader (constructor sampleEnv (Some (file w)) None None));
  Some (fsize (file w), r).

(** An archive without any tile: opened with maxzoom 9 and no compression,
    committed at once, and opened again for reading. *)
Definition emptyArchiveReader : option (Store sampleEnv) :=
  w ← final (commit sampleEnv metadataTrue None
               (constructor sampleEnv None (Some 9) (Some Compression.None)));
  Some (constructor sampleEnv (Some (file w)) None None).

Definition onEmptyArchive {A} (m : M sampleEnv A) : option A :=
  r ← emptyArchiveReader; result (m r).

(** ** Views of the file and of the store *)

(** The largest offset that [_writeUInt48LE] accepts. *)
Definition maxOffset : Z := 4294967295 * 65536.

(** The ten bytes of the node record [(offset, length)]. *)
Definition nodeBytes (offset length : Z) : bytes :=
  [byteOfZ (offset mod 65536); byteOfZ (offset mod 65536 / 256);
   byteOfZ (offset / 65536); byteOfZ (offset / 65536 / 256);
   byteOfZ (offset / 65536 / 65536); byteOfZ (offset / 65536 / 16777216);
   byteOfZ length; byteOfZ (length / 256);
   byteOfZ (length / 65536); byteOfZ (length / 16777216)].

(** The file after all of [data] has been stored at [pos]. *)
Definition writeAt (f : File) (pos : Z) (data : bytes) : File :=
  match data with
  | [] => f
  | _ => {| fsize := Z.max (fsize f) (pos + byteLength data);
            fdata := storeBytes (fdata f) pos data |}
  end.

(** The node record stored at [pos]. *)
Definition nodeAt (f : File) (pos : Z) : Z * Z :=
  let node := loadBytes f pos 10 in
  (_readUInt48LE node, readUint32LE node 6).


(** The store with another file content and another append cursor. *)
Definition upd {env} (s : Store env) (f : File) (o : Z) : Store env :=
  mkStore f (isSetup s) o (maxzoom s) (version s) (compression s) (metadata s).

(** What [compress] returns, when it returns. *)
Definition compressed (env : Env) (data : bytes) (kind : Z) : option bytes :=
  if kind =? Compression.None then Some data
  else if kind =? Compression.Gzip then Some (gzip env data)
  else if kind =? Compression.Brotli then Some (brotliCompress env data)
  else None.

(** What [decompress] returns, or the error it raises. *)
Definition decompressed (env : Env) (data : bytes) (kind : Z) : Error + bytes :=
  if kind =? Compression.None then inr data
  else if kind =? Compression.Gzip then
    match gunzip env data with Some d => inr d | None => inl CodecError end
  else if kind =? Compression.Brotli then
    match brotliDecompress env data with
    | Some d => inr d
    | None => inl CodecError
    end
  else inl DecompressionNotSupported.

(** The ten bytes of the header that [commit] builds. *)
Definition headerBytes (version maxzoom kind metaLength : Z) : bytes :=
  [byteOfZ 83; byteOfZ 50; byteOfZ version; byteOfZ (version / 256);
   byteOfZ maxzoom; byteOfZ kind;
   byteOfZ metaLength; byteOfZ (metaLength / 256);
   byteOfZ (metaLength / 65536); byteOfZ (metaLength / 16777216)].

(** The fields that [commit] stores fit the header. *)
Definition headerFits {env} (s : Store env) (tileCompression : option Z) : Prop :=
  0 <= version s <= 65535 /\ 0 <= maxzoom s <= 255
  /\ 0 <= default (compression s) tileCompression <= 255.

(** Byte size of a leaf directory created at [depth]. *)
Definition dirBytes (maxzoom depth : Z) : Z :=
  levelBase (Z.min (maxzoom - depth) 5 + 1) * NODE_SIZE.

(** ** The directory tree inside the file *)

(** A tile coordinate [(face, zoom, x, y)]. *)
Record Coord : Type := mkCoord { cface : Z; czoom : Z; cx : Z; cy : Z }.

(** Coordinates of an archive of maximal zoom [M].  The encoder works on
    32-bit integers, which bounds the zoom by 31. *)
Definition validCoord (M : Z) (c : Coord) : Prop :=
  0 <= cface c <= 5 /\ 0 <= czoom c <= M /\ czoom c <= 31
  /\ 0 <= cx c < 2 ^ czoom c /\ 0 <= cy c < 2 ^ czoom c.

(** The test of [#walk] that stops one directory early: the tile of the
    maximal zoom lives in the last level of the directory above. *)
Definition shortcut (M zoom : Z) (rest : list Z) : bool :=
  (JS.rem M 5 =? 0) && (Z.of_nat (length rest) =? 1) && (zoom =? M)
  && (hd 0 rest =? 0).

(** Where the walk of a path ends: the directory, named by the slots that
    lead to it from the root, and the slot inside it.  [p] names the
    directory in which the walk of [path] starts. *)
Fixpoint termLoc (M zoom : Z) (p path : list Z) : list Z * Z :=
  match path with
  | [] => (p, 0)
  | e :: rest =>
      match rest with
      | [] => (p, e)
      | _ :: _ =>
          if shortcut M zoom rest then (p, e)
          else termLoc M zoom (p ++ [e]) rest
      end
  end.

(** The directories of an archive: base offset of the directory reached
    from the root of a face through the given slots. *)
Definition Dirs : Type := Z -> list Z -> option Z.

(** The tiles of an archive: offset, recorded length and stored bytes. *)
Definition Tiles : Type := Coord -> option (Z * Z * bytes).

Definition addDir (D : Dirs) (face : Z) (p : list Z) (b : Z) : Dirs :=
  fun face' p' =>
    if decide (face' = face /\ p' = p) then Some b else D face' p'.

Definition addTile (T : Tiles) (c : Coord) (v : Z * Z * bytes) : Tiles :=
  fun c' =>
    if decide (cface c' = cface c /\ czoom c' = czoom c
               /\ cx c' = cx c /\ cy c' = cy c)
    then Some v else T c'.

(** Byte length of the directory named [p]. *)
Definition dirLen (M : Z) (p : list Z) : Z :=
  match p with
  | [] => DIR_SIZE
  | _ => dirBytes M (5 * Z.of_nat (length p))
  end.

(** The layout invariant of the file [f] of an archive of maximal zoom
    [M], whose bytes are allocated below [top]. *)
Record FileInv (f : File) (M top : Z) (D : Dirs) (T : Tiles) : Prop := {
  inv_top : ROOT_SIZE <= top <= fsize f;
  inv_root : forall face, 0 <= face <= 5 ->
    D face [] = Some (METADATA_SIZE + face * DIR_SIZE);
  inv_face : forall face p b, D face p = Some b -> 0 <= face <= 5;
  inv_parent : forall face p i b, D face (p ++ [i]) = Some b ->
    341 <= i < 1365 /\ 5 * (Z.of_nat (length p) + 1) < M
    /\ exists bp, D face p = Some bp
                  /\ fst (nodeAt f (bp + i * NODE_SIZE)) = b;
  inv_null : forall face p i bp, D face p = Some bp ->
    341 <= i < 1365 -> 5 * (Z.of_nat (length p) + 1) < M ->
    D face (p ++ [i]) = None ->
    fst (nodeAt f (bp + i * NODE_SIZE)) = 0;
  inv_extent : forall face p b, D face p = Some b ->
    METADATA_SIZE <= b /\ b + dirLen M p <= top
    /\ (p <> [] -> ROOT_SIZE <= b);
  inv_disjoint : forall face p b face' p' b',
    D face p = Some b -> D face' p' = Some b' ->
    (face, p) <> (face', p') ->
    b + dirLen M p <= b' \/ b' + dirLen M p' <= b;
  inv_tile : forall c off len bs, T c = Some (off, len, bs) ->
    validCoord M c
    /\ exists path p e bd,
         getS2TilePath (czoom c) (cx c) (cy c) = Some path
         /\ termLoc M (czoom c) [] path = (p, e)
         /\ D (cface c) p = Some bd
         /\ nodeAt f (bd + e * NODE_SIZE) = (off, len)
         /\ byteLength bs = len
         /\ loadBytes f off (length bs) = bs
         /\ ROOT_SIZE <= off /\ off + len <= top
         /\ forall face' p' b', D face' p' = Some b' -> p' <> [] ->
              off + len <= b' \/ b' + dirLen M p' <= off;
}.

(** The directories of a new archive: the six roots. *)
Definition rootDirs : Dirs :=
  fun face p =>
    match p with
    | [] => if decide (0 <= face <= 5)
            then Some (METADATA_SIZE + face * DIR_SIZE) else None
    | _ => None
    end.

Definition noTiles : Tiles := fun _ => None.

(** What is left of a coordinate below some directory. *)
Definition validRem (zr xr yr : Z) : Prop :=
  0 <= zr <= 31 /\ 0 <= xr < 2 ^ zr /\ 0 <= yr < 2 ^ zr.

(** The bytes of the directories. *)
Definition inDir (M : Z) (D : Dirs) (j : Z) : Prop :=
  exists face p b, D face p = Some b /\ b <= j < b + dirLen M p.

(** ** Writing a list of tiles *)

(** [putTile] for each entry, in the order of the list. *)
Fixpoint putAll (env : Env) (ws : list (Coord * bytes)) : M env unit :=
  match ws with
  | [] => mret tt
  | (c, data) :: ws =>
      putTile env (cface c) (czoom c) (cx c) (cy c) data;;
      putAll env ws
  end.

(** An upper bound of what the writes append to the file: the payloads,
    and one leaf directory for every five levels of zoom. *)
Fixpoint footprint (ws : list (Coord * bytes)) : Z :=
  match ws with
  | [] => 0
  | (c, data) :: ws =>
      byteLength data + DIR_SIZE * (czoom c / 5) + footprint ws
  end.

(** The store as [setup] marks it: [#isSetup] is true, nothing else moves. *)
Definition asSetUp {env} (s : Store env) : Store env :=
  mkStore (file s) true (offset s) (maxzoom s) (version s) (compression s)
    (metadata s).

(** ** An environment whose codec shrinks repetitive data

    Run-length coding: the data as pairs (count, byte), a count being at
    most 255. *)
Fixpoint runLength (b : bytes) : bytes :=
  match b with
  | [] => []
  | x :: rest =>
      match runLength rest with
      | n :: y :: tail =>
          if Byte.eqb x y && (byteToZ n <? 255)
          then byteOfZ (byteToZ n + 1) :: y :: tail
          else x01 :: x :: n :: y :: tail
      | _ => [x01; x]
      end
  end.

Fixpoint runLengthDecode (b : bytes) : option bytes :=
  match b with
  | [] => Some []
  | n :: y :: tail =>
      rest ← runLengthDecode tail;
      Some (replicate (Z.to_nat (byteToZ n)) y ++ rest)
  | [_] => None
  end.

(** As [sampleEnv], with run-length coding behind the gzip marker. *)
Definition runLengthEnv : Env :=
  {| Metadata := bytes;
     encodeJSON := fun b => b;
     parseJSON := fun b => Some b;
     gzip := fun b => x1f :: x8b :: runLength b;
     gunzip := fun b =>
       match b with x1f :: x8b :: r => runLengthDecode r | _ => None end;
     brotliCompress := fun b => xce :: b;
     brotliDecompress := fun b => match b with xce :: r => Some r | _ => None end |}.

(** The payload of the last entry of [ws] at the coordinate [c]. *)
Fixpoint lastWrite (ws : list (Coord * bytes)) (c : Coord) : option bytes :=
  match ws with
  | [] => None
  | (c', data) :: ws =>
      match lastWrite ws c with
      | Some later => Some later
      | None =>
          if decide (cface c = cface c' /\ czoom c = czoom c'
                     /\ cx c = cx c' /\ cy c = cy c')
          then Some data else None
      end
  end.

(** Writes [ws] into a new archive of maximal zoom [M] and compression
    [kind], commits, and reads the tile at [c] on a store opened on the
    file. *)
Definition writeThenRead (M kind : Z) (ws : list (Coord * bytes)) (c : Coord)
  : option (option bytes) :=
  w ← final ((putAll sampleEnv ws;; commit sampleEnv metadataTrue None)
               (constructor sampleEnv None (Some M) (Some kind)));
  result (getTileS2 sampleEnv (cface c) (czoom c) (cx c) (cy c)
            (constructor sampleEnv (Some (file w)) None None)).

(** * Properties of the path encoder *)

Module PathFacts.

Lemma toInt32_small z : - 2 ^ 31 <= z < 2 ^ 31 -> JS.toInt32 z = z.
Proof.
  intros H. unfold JS.toInt32. rewrite Z.mod_small; lia.
Qed.

Lemma shl_one k : 0 <= k <= 30 -> JS.shl 1 k = 2 ^ k.
Proof.
  intros H. unfold JS.shl.
  rewrite (toInt32_small 1) by lia.
  rewrite Z.mod_small by lia.
  rewrite Z.shiftl_1_l.
  apply toInt32_small.
  assert (2 ^ k <= 2 ^ 30) by (apply Z.pow_le_mono_r; lia).
  assert (0 < 2 ^ k) by (apply Z.pow_pos_nonneg; lia).
  lia.
Qed.

Lemma toInt32_mod32 x : JS.toInt32 x mod 32 = x mod 32.
Proof.
  unfold JS.toInt32. rewrite (Z.mod_eq (x + 2 ^ 31)) by lia.
  set (q := (x + 2 ^ 31) / 2 ^ 32).
  replace (x + 2 ^ 31 - 2 ^ 32 * q - 2 ^ 31) with (x + (- (2 ^ 27 * q)) * 32) by lia.
  apply Z_mod_plus_full.
Qed.

Lemma and_31 x : JS.and x 31 = x mod 32.
Proof.
  unfold JS.and. rewrite (toInt32_small 31) by lia.
  change 31 with (Z.ones 5). rewrite Z.land_ones by lia.
  apply toInt32_mod32.
Qed.

Lemma shr_5 x : - 2 ^ 31 <= x < 2 ^ 31 -> JS.shr x 5 = x / 32.
Proof.
  intros H. unfold JS.shr. rewrite toInt32_small by lia.
  rewrite Z.mod_small by lia. now rewrite Z.shiftr_div_pow2 by lia.
Qed.


(** *** The slot index of a slice *)

Lemma levelBase_0 : levelBase 0 = 0.
Proof. reflexivity. Qed.

Lemma levelBase_succ z : 0 <= z -> levelBase (z + 1) = levelBase z + 4 ^ z.
Proof.
  intros H. unfold levelBase.
  replace (Z.to_nat (z + 1)) with (S (Z.to_nat z)) by lia.
  rewrite seq_S, map_app, fold_right_app. cbn [map fold_right Nat.add].
  rewrite Z2Nat.id by lia.
  generalize (seq 0 (Z.to_nat z)). intros l.
  induction l as [|k l IH]; cbn [map fold_right]; lia.
Qed.

Lemma levelBase_values :
  map levelBase [0; 1; 2; 3; 4; 5; 6] = [0; 1; 5; 21; 85; 341; 1365].
Proof. reflexivity. Qed.

Lemma levelBase_mono a b : 0 <= a <= b -> levelBase a <= levelBase b.
Proof.
  intros [Ha Hab]. pattern b. apply (Zlt_lower_bound_ind _ a); [|exact Hab].
  intros c IH Hc. destruct (Z.eq_dec c a) as [->|Hne]; [lia|].
  replace c with ((c - 1) + 1) by lia. rewrite levelBase_succ by lia.
  assert (0 <= 4 ^ (c - 1)) by (apply Z.pow_nonneg; lia).
  specialize (IH (c - 1)). lia.
Qed.

Lemma slotIndexLoop_spec fuel z val :
  0 <= z <= 31 -> fuel = Z.to_nat z ->
  slotIndexLoop fuel z val = Some (val + levelBase z).
Proof.
  revert z val. induction fuel as [|fuel IH]; intros z val Hz Hf.
  - assert (z = 0) as -> by lia. cbn. rewrite levelBase_0. f_equal; lia.
  - cbn [slotIndexLoop]. destruct (Z.eqb_spec z 0) as [->|Hne]; [lia|].
    cbv zeta. rewrite IH by lia. f_equal.
    rewrite shl_one by lia.
    replace z with ((z - 1) + 1) at 3 by lia.
    rewrite levelBase_succ by lia.
    rewrite Z.pow_2_r, <- Z.pow_mul_l. change (2 * 2) with 4. lia.
Qed.

Lemma slotIndex_spec z x y :
  0 <= z <= 30 -> slotIndex (z, x, y) = Some (y * 2 ^ z + x + levelBase z).
Proof.
  intros Hz. unfold slotIndex. rewrite slotIndexLoop_spec by lia.
  rewrite shl_one by lia. f_equal; lia.
Qed.

(** *** The list of slices *)

Lemma tileSlicesLoop_spec fuel zoom x y acc :
  (Z.to_nat (zoom / 5) <= fuel)%nat ->
  tileSlicesLoop fuel zoom x y acc
  = Some (acc ++ slicesFrom (Z.to_nat (zoom / 5)) zoom x y).
Proof.
  revert zoom x y acc. induction fuel as [|fuel IH]; intros zoom x y acc Hf.
  - cbn [tileSlicesLoop]. destruct (Z.leb_spec 5 zoom) as [H5|H5].
    + assert (1 <= zoom / 5) by (apply Z.div_le_lower_bound; lia). lia.
    + assert (zoom / 5 <= 0) by (apply Z.lt_succ_r, Z.div_lt_upper_bound; lia).
      replace (Z.to_nat (zoom / 5)) with O by lia. reflexivity.
  - cbn [tileSlicesLoop]. destruct (Z.leb_spec 5 zoom) as [H5|H5].
    + assert (Hq : zoom / 5 = (zoom - 5) / 5 + 1).
      { replace zoom with ((zoom - 5) + 1 * 5) at 1 by lia.
        now rewrite Z.div_add by lia. }
      assert (0 <= (zoom - 5) / 5) by (apply Z.div_pos; lia).
      rewrite Z.max_l by lia. rewrite IH by lia.
      rewrite Hq. replace (Z.to_nat ((zoom - 5) / 5 + 1))
        with (S (Z.to_nat ((zoom - 5) / 5))) by lia.
      cbn [slicesFrom]. rewrite Z.max_l by lia.
      now rewrite <- app_assoc.
    + assert (zoom / 5 <= 0) by (apply Z.lt_succ_r, Z.div_lt_upper_bound; lia).
      replace (Z.to_nat (zoom / 5)) with O by lia. reflexivity.
Qed.

Lemma tileSlices_spec zoom x y :
  tileSlices zoom x y = Some (slicesFrom (Z.to_nat (zoom / 5)) zoom x y).
Proof.
  unfold tileSlices. rewrite tileSlicesLoop_spec; [reflexivity|].
  destruct (Z.le_gt_cases 0 zoom) as [H|H].
  - assert (zoom / 5 <= zoom) by (apply Z.div_le_upper_bound; lia). lia.
  - assert (zoom / 5 < 0) by (apply Z.div_lt_upper_bound; lia). lia.
Qed.

Lemma tileSlices_low zoom x y :
  zoom < 5 -> tileSlices zoom x y = Some [(zoom, x, y)].
Proof.
  intros H. rewrite tileSlices_spec.
  assert (zoom / 5 <= 0) by (apply Z.lt_succ_r, Z.div_lt_upper_bound; lia).
  replace (Z.to_nat (zoom / 5)) with O by lia. reflexivity.
Qed.

Lemma tileSlices_step zoom x y :
  5 <= zoom ->
  tileSlices zoom x y
  = cons (5, JS.and x 31, JS.and y 31)
      <$> tileSlices (zoom - 5) (JS.shr x 5) (JS.shr y 5).
Proof.
  intros H. rewrite !tileSlices_spec.
  assert (Hq : zoom / 5 = (zoom - 5) / 5 + 1).
  { replace zoom with ((zoom - 5) + 1 * 5) at 1 by lia.
    now rewrite Z.div_add by lia. }
  assert (0 <= (zoom - 5) / 5) by (apply Z.div_pos; lia).
  rewrite Hq. replace (Z.to_nat ((zoom - 5) / 5 + 1))
    with (S (Z.to_nat ((zoom - 5) / 5))) by lia.
  cbn [slicesFrom fmap option_fmap option_map]. now rewrite Z.max_l by lia.
Qed.

Lemma bind_Some_l {A B} (a : A) (k : A -> option B) : (Some a ≫= k) = k a.
Proof. reflexivity. Qed.

Lemma mapM_cons_opt {A B} (f : A -> option B) a l :
  mapM f (a :: l) = (f a ≫= fun b => mapM f l ≫= fun k => Some (b :: k)).
Proof. reflexivity. Qed.

(** The two equations of the encoder. *)
Lemma getS2TilePath_low zoom x y :
  0 <= zoom < 5 ->
  getS2TilePath zoom x y = Some [y * 2 ^ zoom + x + levelBase zoom].
Proof.
  intros H. unfold getS2TilePath. rewrite tileSlices_low by lia.
  rewrite bind_Some_l, mapM_cons_opt, slotIndex_spec by lia. reflexivity.
Qed.

Lemma getS2TilePath_step zoom x y :
  5 <= zoom ->
  getS2TilePath zoom x y
  = cons (341 + (y mod 32) * 32 + x mod 32)
      <$> getS2TilePath (zoom - 5) (JS.shr x 5) (JS.shr y 5).
Proof.
  intros H. unfold getS2TilePath. rewrite tileSlices_step by lia.
  destruct (tileSlices (zoom - 5) (JS.shr x 5) (JS.shr y 5)) as [sl|]; [|reflexivity].
  cbn [fmap option_fmap option_map].
  rewrite !bind_Some_l, mapM_cons_opt, slotIndex_spec by lia.
  rewrite !and_31, bind_Some_l.
  destruct (mapM slotIndex sl); [|reflexivity].
  rewrite bind_Some_l. cbn [fmap option_fmap option_map].
  do 2 f_equal. change (levelBase 5) with 341. lia.
Qed.

Lemma path_total_aux (n : nat) : forall zoom x y,
  0 <= zoom < 5 * (Z.of_nat n + 1) ->
  exists path, getS2TilePath zoom x y = Some path
               /\ Z.of_nat (length path) = zoom / 5 + 1.
Proof.
  induction n as [|n IH]; intros zoom x y Hz.
  - exists [y * 2 ^ zoom + x + levelBase zoom]. split.
    + apply getS2TilePath_low. lia.
    + rewrite Z.div_small by lia. reflexivity.
  - destruct (Z.lt_ge_cases zoom 5) as [Hlt|Hge].
    + exists [y * 2 ^ zoom + x + levelBase zoom]. split.
      * apply getS2TilePath_low. lia.
      * rewrite Z.div_small by lia. reflexivity.
    + destruct (IH (zoom - 5) (JS.shr x 5) (JS.shr y 5)) as (p & Hp & Hl); [lia|].
      eexists. split.
      * rewrite getS2TilePath_step, Hp by lia. reflexivity.
      * cbn [length]. rewrite Nat2Z.inj_succ, Hl.
        replace zoom with ((zoom - 5) + 1 * 5) at 2 by lia.
        rewrite Z.div_add by lia. lia.
Qed.

Lemma getS2TilePath_total zoom x y :
  0 <= zoom ->
  exists path, getS2TilePath zoom x y = Some path
               /\ Z.of_nat (length path) = zoom / 5 + 1.
Proof. intros Hz. apply (path_total_aux (Z.to_nat zoom)). lia. Qed.

End PathFacts.

(** ** The claims on the path encoder *)

Section PathClaims.
Import PathFacts.

(** C6 (as amended).  For every zoom [>= 0] and every [(x, y)] the encoder
    returns a path of [⌊zoom / 5⌋ + 1] slot indices (one per complete group
    of five levels, plus the residual slice); at zoom 0 the path of the only
    tile [(0, 0)] is [[0]]. *)
Theorem path_length zoom x y :
  0 <= zoom ->
  exists path,
    getS2TilePath zoom x y = Some path
    /\ Z.of_nat (length path) = zoom / 5 + 1
    /\ (zoom = 0 -> x = 0 -> y = 0 -> path = [0]).
Proof.
  intros Hz.
  destruct (getS2TilePath_total zoom x y Hz) as (p & Hp & Hl).
  exists p. repeat split; try assumption.
  intros -> -> ->. cbv in Hp. congruence.
Qed.

Lemma path_length_witness :
  exists path,
    getS2TilePath 9 22 9 = Some path
    /\ Z.of_nat (length path) = 9 / 5 + 1
    /\ (9 = 0 -> 22 = 0 -> 9 = 0 -> path = [0]).
Proof. apply (path_length 9 22 9). lia. Defined.

(** C6 as the specification states it fails: at zoom 1 the path has one
    element, not [⌈1 / 5⌉ + 1 = 2]. *)
Lemma path_length_ceiling_fails :
  exists path,
    getS2TilePath 1 0 0 = Some path
    /\ Z.of_nat (length path) <> specPathLength 1.
Proof. exists [1]. split; [reflexivity|]. cbv. discriminate. Qed.

(** C8.  The slot index of a slice [(z, xi, yi)] with [0 <= z <= 5] and
    [0 <= xi, yi < 2^z] is [yi * 2^z + xi + ∑_{k<z} 4^k]; the levels 0..5
    start at 0, 1, 5, 21, 85, 341, and the index lies in
    [[∑_{k<z} 4^k, ∑_{k<=z} 4^k)], inside [[0, 1365)]. *)
Theorem slot_index_formula z xi yi :
  0 <= z <= 5 -> 0 <= xi < 2 ^ z -> 0 <= yi < 2 ^ z ->
  exists val,
    slotIndex (z, xi, yi) = Some val
    /\ val = yi * 2 ^ z + xi + levelBase z
    /\ map levelBase [0; 1; 2; 3; 4; 5] = [0; 1; 5; 21; 85; 341]
    /\ levelBase z <= val < levelBase (z + 1)
    /\ 0 <= levelBase z /\ levelBase (z + 1) <= 1365.
Proof.
  intros Hz Hx Hy. eexists. split; [apply slotIndex_spec; lia|].
  split; [reflexivity|]. split; [reflexivity|].
  rewrite levelBase_succ by lia.
  assert (H4 : 4 ^ z = 2 ^ z * 2 ^ z).
  { rewrite <- Z.pow_mul_l. reflexivity. }
  pose proof (levelBase_mono 0 z ltac:(lia)) as H0. rewrite levelBase_0 in H0.
  pose proof (levelBase_mono (z + 1) 6 ltac:(lia)) as H6.
  change (levelBase 6) with 1365 in H6.
  rewrite levelBase_succ in H6 by lia.
  repeat split; try lia; nia.
Qed.

Lemma slot_index_formula_witness :
  exists val,
    slotIndex (4, 3, 2) = Some val
    /\ val = 2 * 2 ^ 4 + 3 + levelBase 4
    /\ map levelBase [0; 1; 2; 3; 4; 5] = [0; 1; 5; 21; 85; 341]
    /\ levelBase 4 <= val < levelBase (4 + 1)
    /\ 0 <= levelBase 4 /\ levelBase (4 + 1) <= 1365.
Proof. apply (slot_index_formula 4 3 2); cbv; intuition discriminate. Defined.

Lemma shr_5_nonneg x : 0 <= x < 2 ^ 31 -> 0 <= JS.shr x 5 < 2 ^ 31.
Proof.
  intros H. rewrite shr_5 by lia. split.
  - apply Z.div_pos; lia.
  - apply Z.div_lt_upper_bound; lia.
Qed.

Lemma last_cons_some {A} (a : A) l b : last l = Some b -> last (a :: l) = Some b.
Proof. destruct l; [discriminate|]. intros H. exact H. Qed.

Lemma residual_aux (n : nat) : forall zoom x y,
  0 <= zoom < 5 * (Z.of_nat n + 1) -> 0 <= x < 2 ^ 31 -> 0 <= y < 2 ^ 31 ->
  exists path r,
    getS2TilePath zoom x y = Some path
    /\ slotIndex (residualSlice zoom x y) = Some r
    /\ last path = Some r.
Proof.
  induction n as [|n IH]; intros zoom x y Hz Hx Hy.
  - exists [y * 2 ^ zoom + x + levelBase zoom], (y * 2 ^ zoom + x + levelBase zoom).
    unfold residualSlice. rewrite (Z.div_small zoom 5), Z.mod_small, Z.pow_0_r, !Z.div_1_r by lia.
    rewrite slotIndex_spec, getS2TilePath_low by lia. auto.
  - destruct (Z.lt_ge_cases zoom 5) as [Hlt|Hge].
    + exists [y * 2 ^ zoom + x + levelBase zoom], (y * 2 ^ zoom + x + levelBase zoom).
      unfold residualSlice. rewrite (Z.div_small zoom 5), Z.mod_small, Z.pow_0_r, !Z.div_1_r by lia.
      rewrite slotIndex_spec, getS2TilePath_low by lia. auto.
    + destruct (IH (zoom - 5) (JS.shr x 5) (JS.shr y 5)) as (p & r & Hp & Hr & Hl);
        [lia|apply shr_5_nonneg; lia|apply shr_5_nonneg; lia|].
      eexists _, r. rewrite getS2TilePath_step, Hp by lia.
      split; [reflexivity|]. split.
      * rewrite <- Hr. unfold residualSlice. rewrite !shr_5 by lia.
        assert (Hq : zoom / 5 = (zoom - 5) / 5 + 1).
        { replace zoom with ((zoom - 5) + 1 * 5) at 1 by lia.
          now rewrite Z.div_add by lia. }
        assert (Hm : zoom mod 5 = (zoom - 5) mod 5).
        { replace zoom with ((zoom - 5) + 1 * 5) at 1 by lia.
          now rewrite Z_mod_plus_full. }
        assert (0 <= (zoom - 5) / 5) by (apply Z.div_pos; lia).
        rewrite Hq, Hm, Z.pow_add_r, Z.pow_1_r by lia.
        rewrite !Z.div_div by (try lia; apply Z.pow_pos_nonneg; lia).
        rewrite (Z.mul_comm 32). reflexivity.
      * cbn [fmap option_fmap option_map]. now apply last_cons_some.
Qed.

(** C7 (as amended).  For a zoom of at least 5 the first element of the
    path is the slot of the least-significant five bits of [(x, y)], and it
    is the one the walk applies to the root directory of the face; the rest
    is the path of [(zoom - 5, x >> 5, y >> 5)], so each next element takes
    the next more significant group, and the last element is the slot of
    the residual (most significant) slice. *)
Theorem path_order zoom x y :
  5 <= zoom -> 0 <= x < 2 ^ 31 -> 0 <= y < 2 ^ 31 ->
  exists first rest final,
    getS2TilePath zoom x y = Some (first :: rest)
    /\ slotIndex (lowSlice x y) = Some first
    /\ getS2TilePath (zoom - 5) (x / 32) (y / 32) = Some rest
    /\ slotIndex (residualSlice zoom x y) = Some final
    /\ last (first :: rest) = Some final
    /\ forall env face create (s : Store env),
         walk env face zoom x y create s
         = walkLoop env (maxzoom s) zoom create (first :: rest)
             (alloc NODE_SIZE) (METADATA_SIZE + face * DIR_SIZE) 0 s.
Proof.
  intros Hz Hx Hy.
  destruct (residual_aux (Z.to_nat zoom) zoom x y) as (p & r & Hp & Hr & Hl); try lia.
  pose proof Hp as Hp'. rewrite getS2TilePath_step in Hp' by lia.
  rewrite !shr_5 in Hp' by lia.
  destruct (getS2TilePath (zoom - 5) (x / 32) (y / 32)) as [rest|] eqn:Hrest;
    [|discriminate].
  cbn [fmap option_fmap option_map] in Hp'. injection Hp' as <-.
  eexists _, rest, r. split; [exact Hp|].
  split; [unfold lowSlice; rewrite slotIndex_spec by lia; f_equal;
          change (levelBase 5) with 341; change (2 ^ 5) with 32; lia|].
  split; [reflexivity|]. split; [exact Hr|]. split; [exact Hl|].
  intros env face create s. unfold walk.
  unfold mbind at 1, M_bind, get. unfold mbind at 1, M_bind, looped.
  rewrite Hp. reflexivity.
Qed.

Lemma path_order_witness :
  exists first rest final,
    getS2TilePath 9 22 9 = Some (first :: rest)
    /\ slotIndex (lowSlice 22 9) = Some first
    /\ getS2TilePath (9 - 5) (22 / 32) (9 / 32) = Some rest
    /\ slotIndex (residualSlice 9 22 9) = Some final
    /\ last (first :: rest) = Some final
    /\ forall env face create (s : Store env),
         walk env face 9 22 9 create s
         = walkLoop env (maxzoom s) 9 create (first :: rest)
             (alloc NODE_SIZE) (METADATA_SIZE + face * DIR_SIZE) 0 s.
Proof. apply (path_order 9 22 9); lia. Defined.

(** C7 as the specification states it fails: the path of [(9, 22, 9)] is
    [[651; 85]]; 651 is the slot of the low five bits and 85 the slot of the
    residual slice, the reverse of the stated order. *)
Lemma path_order_root_first_fails :
  exists path,
    getS2TilePath 9 22 9 = Some path /\ ~ specRootFirst 9 22 9 path.
Proof.
  exists [651; 85]. split; [reflexivity|].
  intros [H _]. cbv in H. discriminate.
Qed.

End PathClaims.

(** * Running the operations *)

Section Run.
Context {env : Env}.
Implicit Types s : Store env.

Lemma bind_run {A B} (m : M env A) (k : A -> M env B) s :
  (m ≫= k) s
  = match m s with
    | Ret a s' => k a s'
    | Throw e s' => Throw e s'
    | Hang => Hang
    end.
Proof. reflexivity. Qed.

Lemma bind_ret {A B} (m : M env A) (k : A -> M env B) s a s' :
  m s = Ret a s' -> (m ≫= k) s = k a s'.
Proof. intros H. rewrite bind_run, H. reflexivity. Qed.

Lemma bind_throw {A B} (m : M env A) (k : A -> M env B) s e s' :
  m s = Throw e s' -> (m ≫= k) s = Throw e s'.
Proof. intros H. rewrite bind_run, H. reflexivity. Qed.

End Run.

(** Unfolds the plumbing of the monad, and nothing else. *)
Ltac mrun :=
  cbv [mbind M_bind mret M_ret get put throw hang checked looped
       setFile setOffset readAsync writeAsync].

(** Reduces the projections of an updated store. *)
Ltac sproj :=
  cbn [file offset maxzoom isSetup version compression metadata upd].

(** * Geometry of the root region and the concrete scenarios *)

(** C3, as the code has it.  [DIR_SIZE] is [1365 * 10 = 13 650], so a store
    opened on a path that does not exist creates a zero-filled file of
    [131 072 + 6 * 13 650 = 212 972] bytes and starts appending there, and
    the walk places the root directory of a face at
    [131 072 + face * 13 650]: the figures 27 300, 163 800 and 294 872 of
    the claim are not the ones the code computes. *)
Theorem root_geometry env mz cp :
  let s := constructor env None mz cp in
  DIR_SIZE = 13650 /\ ROOT_DIR_SIZE = 81900 /\ ROOT_SIZE = 212972
  /\ fsize (file s) = 212972
  /\ (forall i, byteAt (file s) i = x00)
  /\ offset s = 212972
  /\ offset s <> 294872
  /\ forall face create,
       walk env face 0 0 0 create s = Ret (131072 + face * 13650) s.
Proof.
  cbv zeta. repeat split; try reflexivity; try discriminate.
  intros face create. unfold walk.
  change (getS2TilePath 0 0 0) with (Some [0]).
  mrun. cbn [walkLoop]. mrun.
  f_equal. unfold METADATA_SIZE, DIR_SIZE, NODE_SIZE. lia.
Qed.

(** C4.  The scenario "WM small": after the three writes and the commit the
    file is 216 417 bytes long; a store opened on it reads the three tiles
    back as they were written, and reports no tile at (1, 1, 1). *)
Theorem wm_small_scenario :
  wmSmall
  = Some (216417, ([Some helloWorld; Some helloWorld; Some helloWorld2], false)).
Proof. vm_compute. reflexivity. Qed.

(** C2, at a failing input.  On an archive in which no tile was ever put,
    [hasTileS2] answers [true] at (face 0, zoom 5, 0, 0): the walk returns 0
    for the missing leaf directory, and the record read at byte 0 is the
    header.  [getTileS2] never returns [undefined]: at (0, 1, 1, 1) it
    returns an empty payload, at (0, 5, 0, 0) a payload of zero bytes. *)
Theorem absence_law_fails :
  onEmptyArchive (hasTileS2 sampleEnv 0 5 0 0) = Some true
  /\ onEmptyArchive (walk sampleEnv 0 5 0 0 false) = Some 0
  /\ onEmptyArchive (getTileS2 sampleEnv 0 1 1 1) = Some (Some [])
  /\ onEmptyArchive (getTileS2 sampleEnv 0 5 0 0)
     = Some (Some (alloc (byteLength metadataTrue))).
Proof. vm_compute. repeat split; reflexivity. Qed.

(** * Bytes, buffers and the file *)

Module FileFacts.

Lemma byteToZ_range b : 0 <= byteToZ b < 256.
Proof.
  unfold byteToZ. pose proof (Byte.to_N_bounded b) as H.
  change 256 with (Z.of_N 256). lia.
Qed.

Lemma byteToZ_ofZ z : byteToZ (byteOfZ z) = z mod 256.
Proof.
  unfold byteToZ, byteOfZ.
  assert (Hr : 0 <= z mod 256 < 256) by (apply Z.mod_pos_bound; lia).
  destruct (Byte.of_N (Z.to_N (z mod 256))) as [b|] eqn:E.
  - apply Byte.to_of_N in E. cbn [from_option id]. rewrite E. lia.
  - apply Byte.of_N_None_iff in E. lia.
Qed.

Lemma byteOfZ_toZ b : byteOfZ (byteToZ b) = b.
Proof.
  unfold byteOfZ. rewrite Z.mod_small by apply byteToZ_range.
  unfold byteToZ. rewrite N2Z.id, Byte.of_to_N. reflexivity.
Qed.

Lemma byteToZ_zero : byteToZ x00 = 0.
Proof. reflexivity. Qed.

(** Little-endian digits. *)
Lemma le16 v : 0 <= v < 65536 -> v mod 256 + 256 * ((v / 256) mod 256) = v.
Proof.
  intros H. rewrite (Z.mod_small (v / 256)).
  - pose proof (Z.div_mod v 256). lia.
  - split; [apply Z.div_pos; lia|apply Z.div_lt_upper_bound; lia].
Qed.

Lemma le32 v :
  0 <= v < 4294967296 ->
  v mod 256 + 256 * ((v / 256) mod 256) + 65536 * ((v / 65536) mod 256)
  + 16777216 * ((v / 16777216) mod 256) = v.
Proof.
  intros H.
  assert (H1 : v / 65536 = v / 256 / 256) by (rewrite Z.div_div by lia; reflexivity).
  assert (H2 : v / 16777216 = v / 256 / 256 / 256) by (rewrite !Z.div_div by lia; reflexivity).
  rewrite H1, H2.
  rewrite (Z.mod_small (v / 256 / 256 / 256)).
  2:{ rewrite <- H2. split; [apply Z.div_pos; lia|apply Z.div_lt_upper_bound; lia]. }
  pose proof (Z.div_mod v 256).
  pose proof (Z.div_mod (v / 256) 256).
  pose proof (Z.div_mod (v / 256 / 256) 256).
  lia.
Qed.

Lemma and_65535 x : JS.and x 65535 = x mod 65536.
Proof.
  unfold JS.and. rewrite (PathFacts.toInt32_small 65535) by lia.
  change 65535 with (Z.ones 16). rewrite Z.land_ones by lia.
  unfold JS.toInt32. rewrite (Z.mod_eq (x + 2 ^ 31)) by lia.
  set (q := (x + 2 ^ 31) / 2 ^ 32).
  replace (x + 2 ^ 31 - 2 ^ 32 * q - 2 ^ 31) with (x + (- (2 ^ 16 * q)) * 2 ^ 16) by lia.
  apply Z_mod_plus_full.
Qed.

Lemma encode_node offset length :
  0 <= offset <= maxOffset -> 0 <= length <= 4294967295 ->
  (_writeUInt48LE (alloc NODE_SIZE) offset
     ≫= fun b => writeUint32LE b length 6) = Some (nodeBytes offset length).
Proof.
  unfold maxOffset. intros Ho Hl. unfold _writeUInt48LE.
  rewrite and_65535. change (JS.shl 1 16) with 65536.
  assert (0 <= offset mod 65536 < 65536) by (apply Z.mod_pos_bound; lia).
  unfold writeUint16LE.
  replace ((0 <=? offset mod 65536) && (offset mod 65536 <=? 65535)) with true
    by (symmetry; apply andb_true_iff; lia).
  cbn [mbind option_bind].
  replace ((0 <=? offset) && (offset <=? 4294967295 * 65536)) with true
    by (symmetry; apply andb_true_iff; lia).
  assert (0 <= offset / 65536 <= 4294967295).
  { split; [apply Z.div_pos; lia|]. apply Z.lt_succ_r, Z.div_lt_upper_bound; lia. }
  unfold writeUint32LE.
  replace ((0 <=? offset / 65536) && (offset / 65536 <=? 4294967295)) with true
    by (symmetry; apply andb_true_iff; lia).
  cbn [mbind option_bind].
  replace ((0 <=? length) && (length <=? 4294967295)) with true
    by (symmetry; apply andb_true_iff; lia).
  reflexivity.
Qed.

Lemma decode_node offset length :
  0 <= offset <= maxOffset -> 0 <= length <= 4294967295 ->
  _readUInt48LE (nodeBytes offset length) = offset
  /\ readUint32LE (nodeBytes offset length) 6 = length.
Proof.
  unfold maxOffset. intros Ho Hl.
  unfold _readUInt48LE, readUint32LE, readUint16LE, getByte, nodeBytes.
  change (JS.shl 1 16) with 65536.
  repeat match goal with
         | |- context [nth (Z.to_nat ?k) _ _] =>
             let n := eval vm_compute in (Z.to_nat k) in
             change (Z.to_nat k) with n
         end.
  cbn [nth].
  rewrite !byteToZ_ofZ.
  assert (0 <= offset mod 65536 < 65536) by (apply Z.mod_pos_bound; lia).
  assert (0 <= offset / 65536 < 4294967296).
  { split; [apply Z.div_pos; lia|]. apply Z.div_lt_upper_bound; lia. }
  rewrite (le16 (offset mod 65536)) by lia.
  rewrite (le32 length) by lia.
  rewrite (le32 (offset / 65536)) by lia.
  pose proof (Z.div_mod offset 65536). lia.
Qed.


(** *** Stores into the file *)

Lemma storeBytes_lookup data : forall m pos i,
  storeBytes m pos data !! i
  = if decide (pos <= i < pos + Z.of_nat (length data))
    then data !! Z.to_nat (i - pos)
    else m !! i.
Proof.
  induction data as [|b rest IH]; intros m pos i; cbn [storeBytes length].
  - case_decide; [lia|reflexivity].
  - rewrite IH. repeat case_decide; try lia.
    + replace (Z.to_nat (i - pos)) with (S (Z.to_nat (i - (pos + 1)))) by lia.
      reflexivity.
    + assert (i = pos) as -> by lia. rewrite lookup_insert_eq.
      replace (Z.to_nat (pos - pos)) with 0%nat by lia. reflexivity.
    + rewrite lookup_insert_ne by lia. reflexivity.
Qed.

Lemma byteAt_writeAt_in f pos data i :
  pos <= i < pos + byteLength data ->
  byteAt (writeAt f pos data) i = nth (Z.to_nat (i - pos)) data x00.
Proof.
  unfold byteLength. intros H. destruct data as [|b rest]; [cbn in H; lia|].
  unfold writeAt, byteAt. cbn [fdata]. rewrite storeBytes_lookup.
  case_decide; [|lia].
  destruct (lookup_lt_is_Some_2 (b :: rest) (Z.to_nat (i - pos))) as [c Hc]; [lia|].
  rewrite Hc. cbn [from_option id]. symmetry. now apply nth_lookup_Some.
Qed.

Lemma byteAt_writeAt_out f pos data i :
  ~ (pos <= i < pos + byteLength data) ->
  byteAt (writeAt f pos data) i = byteAt f i.
Proof.
  unfold byteLength. intros H. destruct data as [|b rest]; [reflexivity|].
  unfold writeAt, byteAt. cbn [fdata]. rewrite storeBytes_lookup.
  case_decide; [lia|reflexivity].
Qed.

Lemma fsize_writeAt f pos data :
  fsize f <= fsize (writeAt f pos data)
  /\ (data <> [] -> pos + byteLength data <= fsize (writeAt f pos data)).
Proof.
  destruct data as [|b rest]; [split; [cbn; lia|congruence]|].
  unfold writeAt. cbn [fsize]. lia.
Qed.

Lemma fileWrite_eq f buffer length position :
  0 <= length <= byteLength buffer ->
  fileWrite f buffer length position
  = Some (writeAt f position (take (Z.to_nat length) buffer)).
Proof.
  unfold byteLength. intros H. unfold fileWrite.
  replace ((length <? 0) || (byteLength buffer <? length)) with false
    by (symmetry; apply orb_false_iff; unfold byteLength; lia).
  destruct (Z.eqb_spec length 0) as [->|Hne]; [reflexivity|].
  destruct buffer as [|b rest]; [cbn in H; lia|].
  destruct (Z.to_nat length) as [|n] eqn:E; [lia|].
  cbn [take writeAt]. do 3 f_equal. unfold byteLength.
  change (List.length (b :: take n rest)) with (S (List.length (take n rest))).
  rewrite length_take. cbn [List.length] in H. lia.
Qed.

(** *** Loads from the file *)

Lemma loadBytes_length f n : forall pos, length (loadBytes f pos n) = n.
Proof. induction n as [|n IH]; intros pos; cbn; [reflexivity|]. now rewrite IH. Qed.

Lemma loadBytes_nth f n : forall pos k,
  (k < n)%nat -> nth k (loadBytes f pos n) x00 = byteAt f (pos + Z.of_nat k).
Proof.
  induction n as [|n IH]; intros pos k Hk; [lia|].
  cbn [loadBytes]. destruct k as [|k]; cbn [nth].
  - f_equal. lia.
  - rewrite IH by lia. f_equal. lia.
Qed.

Lemma loadBytes_ext f f' n : forall pos,
  (forall i, pos <= i < pos + Z.of_nat n -> byteAt f i = byteAt f' i) ->
  loadBytes f pos n = loadBytes f' pos n.
Proof.
  induction n as [|n IH]; intros pos H; [reflexivity|].
  cbn [loadBytes]. f_equal; [apply H; lia|]. apply IH. intros i Hi. apply H. lia.
Qed.

Lemma loadBytes_data f data : forall pos,
  (forall i, pos <= i < pos + byteLength data ->
     byteAt f i = nth (Z.to_nat (i - pos)) data x00) ->
  loadBytes f pos (length data) = data.
Proof.
  unfold byteLength. induction data as [|b rest IH]; intros pos H; [reflexivity|].
  cbn [loadBytes length]. f_equal.
  - rewrite H by (cbn [length]; lia).
    replace (Z.to_nat (pos - pos)) with 0%nat by lia. reflexivity.
  - apply IH. intros i Hi. rewrite H by (cbn [length]; lia).
    replace (Z.to_nat (i - pos)) with (S (Z.to_nat (i - (pos + 1)))) by lia.
    reflexivity.
Qed.

Lemma loadBytes_writeAt f pos data :
  loadBytes (writeAt f pos data) pos (length data) = data.
Proof. apply loadBytes_data. intros i Hi. now apply byteAt_writeAt_in. Qed.

Lemma fileRead_full f buffer length position :
  0 <= length -> position + length <= fsize f ->
  List.length buffer = Z.to_nat length ->
  fileRead f buffer length position = loadBytes f position (Z.to_nat length).
Proof.
  intros Hl Hs Hb. unfold fileRead.
  rewrite Z.max_r, Z.min_l by lia.
  rewrite <- Hb, drop_all. apply app_nil_r.
Qed.

Lemma nodeAt_ext f f' pos :
  (forall i, pos <= i < pos + 10 -> byteAt f i = byteAt f' i) ->
  nodeAt f pos = nodeAt f' pos.
Proof. intros H. unfold nodeAt. now rewrite (loadBytes_ext f f' 10 pos). Qed.

Lemma nodeAt_writeAt f pos offset length :
  0 <= offset <= maxOffset -> 0 <= length <= 4294967295 ->
  nodeAt (writeAt f pos (nodeBytes offset length)) pos = (offset, length).
Proof.
  intros Ho Hl. unfold nodeAt.
  change 10%nat with (List.length (nodeBytes offset length)).
  rewrite loadBytes_writeAt. cbv zeta.
  destruct (decode_node offset length Ho Hl) as [-> ->]. reflexivity.
Qed.

End FileFacts.

(** * The primitive operations *)

Section Ops.
Context {env : Env}.
Implicit Types s : Store env.
Import FileFacts.

Lemma upd_upd s f o f' o' : upd (upd s f o) f' o' = upd s f' o'.
Proof. reflexivity. Qed.

Lemma readAsync_run buffer length position s :
  readAsync env buffer length position s
  = Ret (fileRead (file s) buffer length position) s.
Proof. reflexivity. Qed.

Lemma writeAsync_run buffer length position s :
  0 <= length <= byteLength buffer ->
  writeAsync env buffer length position s
  = Ret tt (upd s (writeAt (file s) position (take (Z.to_nat length) buffer))
              (offset s)).
Proof.
  intros H. unfold writeAsync. mrun.
  rewrite fileWrite_eq by assumption. reflexivity.
Qed.

Lemma writeAsync_refused buffer length position s :
  byteLength buffer < length ->
  writeAsync env buffer length position s = Throw OutOfRange s.
Proof.
  intros H. unfold writeAsync. mrun. unfold fileWrite.
  replace (byteLength buffer <? length) with true by (symmetry; apply Z.ltb_lt; lia).
  rewrite orb_true_r. reflexivity.
Qed.

Lemma compress_run data kind s :
  compress env data kind s
  = match compressed env data kind with
    | Some d => Ret d s
    | None => Throw CompressionNotSupported s
    end.
Proof.
  unfold compress, compressed.
  repeat (destruct (_ =? _); [reflexivity|]). reflexivity.
Qed.

Lemma decompress_run data kind s :
  decompress env data kind s
  = match decompressed env data kind with
    | inr d => Ret d s
    | inl e => Throw e s
    end.
Proof.
  unfold decompress, decompressed.
  destruct (_ =? _); [reflexivity|].
  destruct (_ =? _); [destruct (gunzip env data); reflexivity|].
  destruct (_ =? _); [destruct (brotliDecompress env data); reflexivity|].
  reflexivity.
Qed.

Lemma writeNode_run cursor off length s :
  0 <= off <= maxOffset -> 0 <= length <= 4294967295 ->
  writeNode env cursor (off, length) s
  = Ret tt (upd s (writeAt (file s) cursor (nodeBytes off length)) (offset s)).
Proof.
  intros Ho Hl. unfold writeNode.
  pose proof (encode_node off length Ho Hl) as E.
  destruct (_writeUInt48LE (alloc NODE_SIZE) off) as [b1|]; [|discriminate].
  cbn [mbind option_bind] in E.
  rewrite bind_run. cbn [checked]. unfold mret at 1, M_ret.
  rewrite bind_run, E. cbn [checked]. unfold mret at 1, M_ret.
  rewrite writeAsync_run by (cbv; intuition discriminate).
  reflexivity.
Qed.

Lemma buildDirSizeLoop_spec fuel remainder dirSize :
  0 <= remainder <= 30 -> fuel = Z.to_nat remainder ->
  buildDirSizeLoop fuel remainder dirSize
  = Some (dirSize + levelBase (remainder + 1)).
Proof.
  revert remainder dirSize.
  induction fuel as [|fuel IH]; intros r acc Hr Hf; cbn [buildDirSizeLoop]; cbv zeta.
  - assert (r = 0) as -> by lia. reflexivity.
  - destruct (Z.eqb_spec r 0) as [->|Hne]; [lia|].
    rewrite IH by lia. f_equal.
    rewrite PathFacts.shl_one by lia.
    replace (r - 1 + 1) with r by lia.
    rewrite (PathFacts.levelBase_succ r) by lia.
    rewrite Z.pow_2_r, <- Z.pow_mul_l. change (2 * 2) with 4. lia.
Qed.

Lemma buildDirSize_spec depth maxzoom :
  depth <= maxzoom -> _buildDirSize depth maxzoom = Some (dirBytes maxzoom depth).
Proof.
  intros H. unfold _buildDirSize, dirBytes. cbv zeta.
  rewrite buildDirSizeLoop_spec by lia. reflexivity.
Qed.

Lemma dirBytes_bounds maxzoom depth :
  depth <= maxzoom -> 10 <= dirBytes maxzoom depth <= DIR_SIZE.
Proof.
  intros H. unfold dirBytes, DIR_SIZE, NODE_SIZE.
  pose proof (PathFacts.levelBase_mono 1 (Z.min (maxzoom - depth) 5 + 1) ltac:(lia)).
  pose proof (PathFacts.levelBase_mono (Z.min (maxzoom - depth) 5 + 1) 6 ltac:(lia)).
  change (levelBase 1) with 1 in *. change (levelBase 6) with 1365 in *. lia.
Qed.

Lemma createLeafDir_run cursor depth s :
  depth <= maxzoom s -> 0 <= offset s <= maxOffset ->
  createLeafDir env cursor depth s
  = Ret (offset s)
      (upd s (writeAt (writeAt (file s) (offset s)
                         (alloc (dirBytes (maxzoom s) depth)))
                cursor (nodeBytes (offset s) (dirBytes (maxzoom s) depth)))
         (offset s + dirBytes (maxzoom s) depth)).
Proof.
  intros Hd Ho. unfold createLeafDir.
  pose proof (dirBytes_bounds (maxzoom s) depth Hd) as Hb. unfold DIR_SIZE, NODE_SIZE in Hb.
  rewrite bind_run. cbn [get].
  rewrite buildDirSize_spec by assumption.
  rewrite bind_run. cbn [looped]. unfold mret at 1, M_ret.
  rewrite bind_run, writeAsync_run.
  2:{ unfold byteLength, alloc. rewrite length_replicate. lia. }
  rewrite bind_run. cbn [get].
  rewrite bind_run. cbn [setOffset]. sproj.
  rewrite bind_run, writeNode_run by (sproj; lia). sproj.
  rewrite take_ge by (unfold alloc; rewrite length_replicate; lia).
  reflexivity.
Qed.

End Ops.

(** * Commit and setup *)

Section Header.
Context {env : Env}.
Implicit Types s : Store env.
Import FileFacts.

Lemma checked_some {A B} (o : option A) (k : A -> M env B) a s :
  o = Some a -> (checked env o ≫= k) s = k a s.
Proof. intros ->. reflexivity. Qed.

Lemma writeUint8_ok buf value off :
  0 <= value <= 255 ->
  writeUint8 buf value off = Some (setBytes buf off [byteOfZ value]).
Proof.
  intros H. unfold writeUint8.
  replace ((0 <=? value) && (value <=? 255)) with true
    by (symmetry; apply andb_true_iff; lia).
  reflexivity.
Qed.

Lemma writeUint16LE_ok buf value off :
  0 <= value <= 65535 ->
  writeUint16LE buf value off
  = Some (setBytes buf off [byteOfZ value; byteOfZ (value / 256)]).
Proof.
  intros H. unfold writeUint16LE.
  replace ((0 <=? value) && (value <=? 65535)) with true
    by (symmetry; apply andb_true_iff; lia).
  reflexivity.
Qed.

Lemma writeUint32LE_ok buf value off :
  0 <= value <= 4294967295 ->
  writeUint32LE buf value off
  = Some (setBytes buf off
            [byteOfZ value; byteOfZ (value / 256);
             byteOfZ (value / 65536); byteOfZ (value / 16777216)]).
Proof.
  intros H. unfold writeUint32LE.
  replace ((0 <=? value) && (value <=? 4294967295)) with true
    by (symmetry; apply andb_true_iff; lia).
  reflexivity.
Qed.

(** The outcome of [commit] on a store whose fields fit the header. *)
Lemma commit_run (md : Metadata env) tileCompression s :
  headerFits s tileCompression ->
  commit env md tileCompression s
  = match compressed env (encodeJSON env md) (compression s) with
    | None => Throw CompressionNotSupported s
    | Some blob =>
        if METADATA_SIZE - 10 <? byteLength blob then Throw MetadataTooLarge s
        else
          Ret tt
            (upd s
               (writeAt
                  (writeAt (file s) 0
                     (headerBytes (version s) (maxzoom s)
                        (default (compression s) tileCompression)
                        (byteLength blob)))
                  10 blob)
               (offset s))
    end.
Proof.
  intros (Hv & Hm & Hc). unfold commit.
  rewrite bind_run. cbn [get].
  rewrite (checked_some _ _ _ _ (writeUint8_ok _ 83 0 ltac:(lia))).
  rewrite (checked_some _ _ _ _ (writeUint8_ok _ 50 1 ltac:(lia))).
  rewrite (checked_some _ _ _ _ (writeUint16LE_ok _ _ 2 Hv)).
  rewrite (checked_some _ _ _ _ (writeUint8_ok _ _ 4 Hm)).
  rewrite (checked_some _ _ _ _ (writeUint8_ok _ _ 5 Hc)).
  rewrite bind_run, compress_run.
  destruct (compressed env (encodeJSON env md) (compression s)) as [blob|];
    [|reflexivity].
  destruct (Z.ltb_spec (METADATA_SIZE - 10) (byteLength blob)) as [Hbig|Hok];
    [reflexivity|].
  assert (Hl : 0 <= byteLength blob <= 4294967295)
    by (unfold byteLength, METADATA_SIZE in *; lia).
  rewrite (checked_some _ _ _ _ (writeUint32LE_ok _ _ 6 Hl)).
  rewrite bind_run.
  rewrite writeAsync_run by (cbv; intuition discriminate).
  cbv beta iota. rewrite writeAsync_run by (unfold byteLength; lia). sproj.
  rewrite (take_ge blob) by (unfold byteLength; lia).
  reflexivity.
Qed.


(** *** What [setup] reads *)

Lemma loadBytes_app f a : forall pos b,
  loadBytes f pos (a + b)
  = loadBytes f pos a ++ loadBytes f (pos + Z.of_nat a) b.
Proof.
  induction a as [|a IH]; intros pos b.
  - cbn [loadBytes Nat.add app]. f_equal. lia.
  - cbn [loadBytes Nat.add app]. rewrite IH. do 3 f_equal. lia.
Qed.

Lemma fileRead_split f buffer length m :
  0 <= m -> 10 + m <= Z.min length (fsize f) ->
  exists tail,
    fileRead f buffer length 0
    = loadBytes f 0 10 ++ loadBytes f 10 (Z.to_nat m) ++ tail.
Proof.
  intros Hm Hn. unfold fileRead. rewrite Z.sub_0_r.
  set (n := Z.to_nat (Z.max 0 (Z.min length (fsize f)))).
  replace n with (10 + (Z.to_nat m + (n - 10 - Z.to_nat m)))%nat by lia.
  rewrite !loadBytes_app. rewrite <- !app_assoc. eexists. reflexivity.
Qed.

Lemma header_fields v mz k mL tail :
  0 <= v <= 65535 -> 0 <= mz <= 255 -> 0 <= k <= 255 -> 0 <= mL <= 4294967295 ->
  let data := headerBytes v mz k mL ++ tail in
  readUint16LE data 0 = 12883 /\ readUint16LE data 2 = v
  /\ readUint8 data 4 = mz /\ readUint8 data 5 = k
  /\ readUint32LE data 6 = mL /\ drop 10 data = tail.
Proof.
  intros Hv Hm Hk Hl data. subst data.
  unfold readUint16LE, readUint32LE, readUint8, getByte, headerBytes.
  repeat match goal with
         | |- context [nth (Z.to_nat ?i) _ _] =>
             let n := eval vm_compute in (Z.to_nat i) in
             change (Z.to_nat i) with n
         end.
  cbn [nth app drop]. rewrite !byteToZ_ofZ.
  rewrite (le16 v), (le32 mL) by lia.
  rewrite !(Z.mod_small) by lia. repeat split; reflexivity.
Qed.

(** The outcome of [setup] on a store that has not been set up, opened on
    a file that starts with a header and a metadata blob. *)
Lemma setup_run s v mz k blob :
  isSetup s = false ->
  loadBytes (file s) 0 10 = headerBytes v mz k (byteLength blob) ->
  loadBytes (file s) 10 (length blob) = blob ->
  0 < byteLength blob <= METADATA_SIZE - 10 ->
  10 + byteLength blob <= fsize (file s) ->
  0 <= v <= 65535 -> 0 <= mz <= 255 -> 0 <= k <= 255 ->
  setup env s
  = let s1 := mkStore (file s) true (offset s) mz v k (metadata s) in
    match decompressed env blob k with
    | inl e => Throw e s1
    | inr m =>
        match parseJSON env m with
        | None => Throw SyntaxError s1
        | Some md =>
            Ret tt (mkStore (file s) true (offset s) mz v k (Some md))
        end
    end.
Proof.
  intros Hs Hh Hb Hl Hf Hv Hm Hk. unfold setup.
  rewrite bind_run. cbn [get]. rewrite Hs.
  rewrite bind_run. cbn [put].
  rewrite bind_run, readAsync_run. sproj.
  destruct (fileRead_split (file s) (alloc ROOT_SIZE) ROOT_SIZE (byteLength blob))
    as [tail Hd].
  { unfold byteLength; lia. }
  { unfold METADATA_SIZE in Hl. change ROOT_SIZE with 212972. lia. }
  replace (Z.to_nat (byteLength blob)) with (length blob) in Hd
    by (unfold byteLength; lia).
  rewrite Hd, Hh, Hb.
  unfold METADATA_SIZE in Hl.
  destruct (header_fields v mz k (byteLength blob) (blob ++ tail))
    as (E0 & E2 & E4 & E5 & E6 & Ed); try lia.
  cbv zeta in E0, E2, E4, E5, E6, Ed.
  rewrite E0. cbn [Z.eqb Pos.eqb negb].
  rewrite E2, E4, E5, E6, Ed.
  rewrite bind_run. cbn [get].
  rewrite bind_run. cbn [put]. sproj.
  destruct (Z.eqb_spec (byteLength blob) 0) as [E|_]; [lia|].
  unfold byteLength at 1. rewrite Nat2Z.id, take_app_length.
  rewrite bind_run, decompress_run. cbv zeta.
  destruct (decompressed env blob k) as [e|m]; [reflexivity|].
  destruct (parseJSON env m) as [md|]; reflexivity.
Qed.

End Header.

(** ** The claims on commit and setup *)

Section HeaderClaims.
Import FileFacts.

Lemma committed_file f hdr blob :
  length hdr = 10%nat ->
  let f' := writeAt (writeAt f 0 hdr) 10 blob in
  loadBytes f' 0 10 = hdr
  /\ loadBytes f' 10 (length blob) = blob
  /\ (forall i, 10 + byteLength blob <= i -> byteAt f' i = byteAt f i)
  /\ 10 + byteLength blob <= fsize f'.
Proof.
  intros Hh f'. subst f'.
  assert (Hh' : byteLength hdr = 10) by (unfold byteLength; lia).
  assert (Hb : 0 <= byteLength blob) by (unfold byteLength; lia).
  repeat split.
  - rewrite <- Hh. apply loadBytes_data. intros i Hi.
    rewrite byteAt_writeAt_out by lia.
    apply byteAt_writeAt_in. lia.
  - apply loadBytes_writeAt.
  - intros i Hi. rewrite !byteAt_writeAt_out by lia. reflexivity.
  - destruct blob as [|b blob].
    + cbn [writeAt]. pose proof (fsize_writeAt f 0 hdr) as [_ H].
      destruct hdr; [discriminate|]. specialize (H ltac:(discriminate)).
      change (byteLength []) with 0. lia.
    + pose proof (fsize_writeAt (writeAt f 0 hdr) 10 (b :: blob)) as [_ H].
      apply H. discriminate.
Qed.

(** C9.  On a store whose fields fit the header, [commit] raises
    "Metadata too large" exactly when the compressed metadata has more than
    131 062 bytes, and then nothing is written (the store, and with it the
    file, is as before); otherwise the ten bytes of the preamble are at
    offset 0 and the compressed metadata at offset 10. *)
Theorem commit_metadata_too_large env (s : Store env) md tileCompression :
  headerFits s tileCompression ->
  let blob := compressed env (encodeJSON env md) (compression s) in
  ((exists s', commit env md tileCompression s = Throw MetadataTooLarge s')
   <-> exists c, blob = Some c /\ 131062 < byteLength c)
  /\ (forall s', commit env md tileCompression s = Throw MetadataTooLarge s'
                 -> s' = s)
  /\ (forall c, blob = Some c -> byteLength c <= 131062 ->
      exists s',
        commit env md tileCompression s = Ret tt s'
        /\ loadBytes (file s') 0 10
           = headerBytes (version s) (maxzoom s)
               (default (compression s) tileCompression) (byteLength c)
        /\ loadBytes (file s') 10 (length c) = c
        /\ forall i, 10 + byteLength c <= i ->
                     byteAt (file s') i = byteAt (file s) i).
Proof.
  intros Hfit blob. pose proof (commit_run md tileCompression s Hfit) as Hrun.
  fold blob in Hrun. change (METADATA_SIZE - 10) with 131062 in Hrun.
  destruct blob as [c|]; [destruct (Z.ltb_spec 131062 (byteLength c)) as [Hbig|Hok]|].
  - repeat split.
    + intros _. exists c. auto.
    + intros _. exists s. exact Hrun.
    + intros s' E. rewrite Hrun in E. congruence.
    + intros c' [= <-] Hle. lia.
  - repeat split.
    + intros [s' E]. rewrite Hrun in E. discriminate.
    + intros (c' & [= <-] & Hgt). lia.
    + intros s' E. rewrite Hrun in E. discriminate.
    + intros c' [= <-] _. eexists. split; [exact Hrun|]. sproj.
      pose proof (committed_file (file s)
                    (headerBytes (version s) (maxzoom s)
                       (default (compression s) tileCompression) (byteLength c))
                    c eq_refl) as (H1 & H2 & H3 & _).
      auto.
  - repeat split.
    + intros [s' E]. rewrite Hrun in E. discriminate.
    + intros (c' & [=] & _).
    + intros s' E. rewrite Hrun in E. discriminate.
    + intros c' [=].
Qed.

Lemma commit_metadata_too_large_witness :
  let s := constructor sampleEnv None (Some 9) (Some Compression.None) in
  let blob := compressed sampleEnv (encodeJSON sampleEnv metadataTrue) (compression s) in
  ((exists s', commit sampleEnv metadataTrue None s = Throw MetadataTooLarge s')
   <-> exists c, blob = Some c /\ 131062 < byteLength c)
  /\ (forall s', commit sampleEnv metadataTrue None s = Throw MetadataTooLarge s'
                 -> s' = s)
  /\ (forall c, blob = Some c -> byteLength c <= 131062 ->
      exists s',
        commit sampleEnv metadataTrue None s = Ret tt s'
        /\ loadBytes (file s') 0 10
           = headerBytes (version s) (maxzoom s)
               (default (compression s) None) (byteLength c)
        /\ loadBytes (file s') 10 (length c) = c
        /\ forall i, 10 + byteLength c <= i ->
                     byteAt (file s') i = byteAt (file s) i).
Proof.
  apply (commit_metadata_too_large sampleEnv
           (constructor sampleEnv None (Some 9) (Some Compression.None))
           metadataTrue None).
  vm_compute. intuition discriminate.
Defined.

(** C10.  When [commit] is given a [tileCompression], byte 5 of the header
    holds that kind while the metadata at offset 10 is compressed with the
    kind of the store; a store opened afresh on the file decompresses the
    metadata, during [setup], with the kind read from byte 5. *)
Theorem commit_override_kind env (s : Store env) md tc blob :
  headerFits s (Some tc) ->
  compressed env (encodeJSON env md) (compression s) = Some blob ->
  0 < byteLength blob <= 131062 ->
  exists s',
    commit env md (Some tc) s = Ret tt s'
    /\ byteToZ (byteAt (file s') 5) = tc
    /\ loadBytes (file s') 10 (length blob) = blob
    /\ forall mz cp,
         setup env (constructor env (Some (file s')) mz cp)
         = let r := mkStore (file s') true ROOT_SIZE (maxzoom s) (version s)
                      tc None in
           match decompressed env blob tc with
           | inl e => Throw e r
           | inr m =>
               match parseJSON env m with
               | None => Throw SyntaxError r
               | Some md' =>
                   Ret tt (mkStore (file s') true ROOT_SIZE (maxzoom s)
                             (version s) tc (Some md'))
               end
           end.
Proof.
  intros Hfit Hblob Hlen. pose proof Hfit as (Hv & Hm & Hk).
  cbn [from_option id] in Hk.
  pose proof (commit_run md (Some tc) s Hfit) as Hrun.
  rewrite Hblob in Hrun. change (METADATA_SIZE - 10) with 131062 in Hrun.
  destruct (Z.ltb_spec 131062 (byteLength blob)) as [Hbig|_]; [lia|].
  cbn [from_option id] in Hrun.
  eexists. split; [exact Hrun|]. sproj.
  pose proof (committed_file (file s)
                (headerBytes (version s) (maxzoom s) tc (byteLength blob))
                blob eq_refl) as (H1 & H2 & H3 & H4).
  cbv zeta in H1, H2, H3, H4.
  set (f' := writeAt _ 10 blob) in *.
  split; [|split; [exact H2|]].
  - change 5 with (0 + Z.of_nat 5). rewrite <- (loadBytes_nth f' 10 0 5) by lia.
    rewrite H1. cbn [headerBytes nth]. rewrite byteToZ_ofZ. apply Z.mod_small. lia.
  - intros mz cp.
    rewrite (setup_run _ (version s) (maxzoom s) tc blob);
      try assumption; reflexivity.
Qed.

Lemma commit_override_kind_witness :
  let s := constructor sampleEnv None (Some 9) (Some Compression.None) in
  exists s',
    commit sampleEnv metadataTrue (Some Compression.Gzip) s = Ret tt s'
    /\ byteToZ (byteAt (file s') 5) = Compression.Gzip
    /\ loadBytes (file s') 10 (length metadataTrue) = metadataTrue
    /\ forall mz cp,
         setup sampleEnv (constructor sampleEnv (Some (file s')) mz cp)
         = let r := mkStore (file s') true ROOT_SIZE (maxzoom s) (version s)
                      Compression.Gzip None in
           match decompressed sampleEnv metadataTrue Compression.Gzip with
           | inl e => Throw e r
           | inr m =>
               match parseJSON sampleEnv m with
               | None => Throw SyntaxError r
               | Some md' =>
                   Ret tt (mkStore (file s') true ROOT_SIZE (maxzoom s)
                             (version s) Compression.Gzip (Some md'))
               end
           end.
Proof.
  apply (commit_override_kind sampleEnv
           (constructor sampleEnv None (Some 9) (Some Compression.None))
           metadataTrue Compression.Gzip metadataTrue).
  - vm_compute. intuition discriminate.
  - reflexivity.
  - vm_compute. intuition discriminate.
Defined.

End HeaderClaims.

(** * The shape of paths and of the places they lead to *)

Module TrieFacts.
Import PathFacts.

Lemma pow2_le_31 z : 0 <= z <= 31 -> 0 < 2 ^ z <= 2 ^ 31.
Proof.
  intros H. split; [apply Z.pow_pos_nonneg; lia|apply Z.pow_le_mono_r; lia].
Qed.

Lemma levelBase_pos z : 1 <= z -> 1 <= levelBase z.
Proof.
  intros H. pose proof (levelBase_mono 1 z ltac:(lia)) as H1.
  change (levelBase 1) with 1 in H1. exact H1.
Qed.

Lemma slot_range z x y :
  0 <= z -> 0 <= x < 2 ^ z -> 0 <= y < 2 ^ z ->
  levelBase z <= y * 2 ^ z + x + levelBase z < levelBase (z + 1).
Proof.
  intros Hz Hx Hy. rewrite levelBase_succ by lia.
  assert (H4 : 4 ^ z = 2 ^ z * 2 ^ z).
  { rewrite <- Z.pow_mul_l. reflexivity. }
  nia.
Qed.

Lemma path_low zr xr yr :
  validRem zr xr yr -> zr < 5 ->
  let e := yr * 2 ^ zr + xr + levelBase zr in
  getS2TilePath zr xr yr = Some [e]
  /\ levelBase zr <= e < levelBase (zr + 1) /\ 0 <= e < 341.
Proof.
  intros (Hz & Hx & Hy) H5 e. subst e.
  split; [apply getS2TilePath_low; lia|].
  pose proof (slot_range zr xr yr ltac:(lia) Hx Hy) as Hr.
  pose proof (levelBase_mono 0 zr ltac:(lia)) as H0.
  pose proof (levelBase_mono (zr + 1) 5 ltac:(lia)) as H1.
  change (levelBase 0) with 0 in H0. change (levelBase 5) with 341 in H1. lia.
Qed.

Lemma path_step zr xr yr :
  validRem zr xr yr -> 5 <= zr ->
  let e := 341 + (yr mod 32) * 32 + xr mod 32 in
  exists rest,
    getS2TilePath zr xr yr = Some (e :: rest)
    /\ getS2TilePath (zr - 5) (xr / 32) (yr / 32) = Some rest
    /\ validRem (zr - 5) (xr / 32) (yr / 32)
    /\ 341 <= e < 1365
    /\ Z.of_nat (length rest) = (zr - 5) / 5 + 1.
Proof.
  intros (Hz & Hx & Hy) H5 e. subst e.
  pose proof (pow2_le_31 zr Hz) as Hp.
  assert (Hv : validRem (zr - 5) (xr / 32) (yr / 32)).
  { assert (E : 2 ^ zr = 32 * 2 ^ (zr - 5)).
    { replace zr with (5 + (zr - 5)) at 1 by lia.
      rewrite Z.pow_add_r by lia. reflexivity. }
    repeat split; try lia; try (apply Z.div_pos; lia);
      apply Z.div_lt_upper_bound; lia. }
  destruct (getS2TilePath_total (zr - 5) (xr / 32) (yr / 32)) as (rest & Hr & Hl);
    [lia|].
  exists rest. rewrite getS2TilePath_step, !shr_5, Hr by lia.
  split; [reflexivity|]. split; [reflexivity|]. split; [exact Hv|].
  split; [|exact Hl].
  pose proof (Z.mod_pos_bound yr 32). pose proof (Z.mod_pos_bound xr 32). lia.
Qed.

(** The walk stops one directory early exactly for a tile of the maximal
    zoom whose remaining zoom is five. *)
Lemma shortcut_iff M zoom k zr xr yr rest :
  validRem zr xr yr -> 5 <= zr -> 0 <= k -> zoom = 5 * k + zr ->
  getS2TilePath (zr - 5) (xr / 32) (yr / 32) = Some rest ->
  shortcut M zoom rest = true <-> zr = 5 /\ zoom = M.
Proof.
  intros (Hz & Hx & Hy) H5 Hk Hzoom Hr. unfold shortcut.
  rewrite !andb_true_iff, !Z.eqb_eq. split.
  - intros (((Hrem & Hlen) & Hzm) & Hhd). split; [|assumption].
    destruct (getS2TilePath_total (zr - 5) (xr / 32) (yr / 32)) as (rest' & Hr' & Hl);
      [lia|].
    rewrite Hr in Hr'. injection Hr' as <-.
    assert (Hq : (zr - 5) / 5 = 0) by lia.
    assert (Hlt : zr - 5 < 5).
    { destruct (Z.lt_ge_cases (zr - 5) 5); [assumption|].
      assert (1 <= (zr - 5) / 5) by (apply Z.div_le_lower_bound; lia). lia. }
    rewrite getS2TilePath_low in Hr by lia. injection Hr as <-.
    cbn [hd] in Hhd.
    destruct (Z.eq_dec zr 5) as [|Hne]; [assumption|].
    pose proof (levelBase_pos (zr - 5) ltac:(lia)).
    assert (0 <= xr / 32) by (apply Z.div_pos; lia).
    assert (0 <= yr / 32) by (apply Z.div_pos; lia).
    assert (0 < 2 ^ (zr - 5)) by (apply Z.pow_pos_nonneg; lia).
    nia.
  - intros [-> HM]. subst M zoom.
    change (2 ^ 5) with 32 in *.
    rewrite (Z.div_small xr), (Z.div_small yr) in Hr by lia.
    cbv in Hr. injection Hr as <-.
    repeat split; try reflexivity.
    unfold JS.rem. rewrite Z.rem_mod_nonneg by lia.
    replace (5 * k + 5) with ((k + 1) * 5) by lia. apply Z_mod_mult.
Qed.

Lemma termLoc_cons M zoom p e rest :
  rest <> [] ->
  termLoc M zoom p (e :: rest)
  = if shortcut M zoom rest then (p, e) else termLoc M zoom (p ++ [e]) rest.
Proof. destruct rest; [congruence|reflexivity]. Qed.

Lemma termLoc_prefix M zoom path : forall p q e,
  termLoc M zoom p path = (q, e) -> exists r, q = p ++ r.
Proof.
  induction path as [|a rest IH]; intros p q e H.
  - injection H as <- <-. exists []. now rewrite app_nil_r.
  - destruct rest as [|b rest'].
    + injection H as <- <-. exists []. now rewrite app_nil_r.
    + rewrite termLoc_cons in H by discriminate.
      destruct (shortcut M zoom (b :: rest')).
      * injection H as <- <-. exists []. now rewrite app_nil_r.
      * apply IH in H as [r ->]. exists ([a] ++ r). now rewrite app_assoc.
Qed.


(** The three ways in which the walk of what is left of a coordinate goes
    on below the directory [p]. *)
Lemma termLoc_cases M zoom p zr xr yr path :
  validRem zr xr yr -> zoom = 5 * Z.of_nat (length p) + zr -> zoom <= M ->
  getS2TilePath zr xr yr = Some path ->
  let e5 := 341 + (yr mod 32) * 32 + xr mod 32 in
  let e0 := yr * 2 ^ zr + xr + levelBase zr in
  (zr < 5 /\ path = [e0] /\ 0 <= e0 < levelBase (zr + 1) /\ e0 < 341)
  \/ (zr = 5 /\ zoom = M /\ termLoc M zoom p path = (p, e5)
      /\ 341 <= e5 < 1365 /\ path = [e5; 0])
  \/ (5 <= zr /\ ~ (zr = 5 /\ zoom = M) /\ 5 * (Z.of_nat (length p) + 1) < M
      /\ 341 <= e5 < 1365
      /\ exists rest,
           path = e5 :: rest /\ rest <> []
           /\ shortcut M zoom rest = false
           /\ getS2TilePath (zr - 5) (xr / 32) (yr / 32) = Some rest
           /\ validRem (zr - 5) (xr / 32) (yr / 32)).
Proof.
  intros Hv Hzoom HM Hp e5 e0.
  destruct (Z.lt_ge_cases zr 5) as [Hlt|Hge].
  - left. destruct (path_low zr xr yr Hv Hlt) as (E & Hr & H0).
    fold e0 in E, Hr, H0. rewrite E in Hp. injection Hp as <-.
    repeat split; try lia.
  - right.
    destruct (path_step zr xr yr Hv Hge) as (rest & E & Er & Hv' & He & Hl).
    fold e5 in E, He. rewrite E in Hp. injection Hp as <-.
    assert (Hne : rest <> []) by (destruct rest; [cbn in Hl|]; [|discriminate];
      assert (0 <= (zr - 5) / 5) by (apply Z.div_pos; lia); lia).
    pose proof (shortcut_iff M zoom (Z.of_nat (length p)) zr xr yr rest Hv Hge
                  ltac:(lia) Hzoom Er) as Hs.
    destruct (shortcut M zoom rest) eqn:Esc.
    + left. destruct Hs as [Hs _]. destruct (Hs eq_refl) as [-> ->].
      rewrite termLoc_cons, Esc by assumption.
      repeat split; try lia.
      destruct Hv as (_ & Hx & Hy). change (2 ^ 5) with 32 in *.
      rewrite (Z.div_small xr), (Z.div_small yr) in Er by lia.
      cbv in Er. injection Er as <-. reflexivity.
    + right. assert (Hn : ~ (zr = 5 /\ zoom = M)).
      { intros H. apply Hs in H. discriminate. }
      repeat split; try lia; try assumption.
      exists rest. split; [reflexivity|]. do 3 (split; [assumption|]). assumption.
Qed.

Lemma termLoc_single M zoom p e : termLoc M zoom p [e] = (p, e).
Proof. reflexivity. Qed.

(** The slot in which a walk ends lies in its directory, and it is not one
    of the slots that hold a pointer to a leaf directory. *)
Lemma termLoc_kind M (n : nat) : forall zoom p zr xr yr path q e,
  zr < 5 * (Z.of_nat n + 1) ->
  validRem zr xr yr -> zoom = 5 * Z.of_nat (length p) + zr -> zoom <= M ->
  getS2TilePath zr xr yr = Some path ->
  termLoc M zoom p path = (q, e) ->
  0 <= e < levelBase (Z.min (M - 5 * Z.of_nat (length q)) 5 + 1)
  /\ (e < 341 \/ 5 * (Z.of_nat (length q) + 1) = M)
  /\ 5 * Z.of_nat (length q) <= zoom.
Proof.
  induction n as [|n IH]; intros zoom p zr xr yr path q e Hn Hv Hzoom HM Hp Ht.
  - destruct (termLoc_cases M zoom p zr xr yr path Hv Hzoom HM Hp)
      as [(Hlt & -> & He & H341)|[(-> & _)|(Hge & _)]]; try lia.
    rewrite termLoc_single in Ht. injection Ht as <- <-.
    pose proof (levelBase_mono (zr + 1) (Z.min (M - 5 * Z.of_nat (length p)) 5 + 1)) as Hm.
    destruct Hv as (Hz & _). lia.
  - destruct (termLoc_cases M zoom p zr xr yr path Hv Hzoom HM Hp)
      as [(Hlt & -> & He & H341)|[(-> & -> & Ht' & He & _)|
          (Hge & Hns & Hd & He & rest & -> & Hne & Hsc & Hr & Hv')]].
    + rewrite termLoc_single in Ht. injection Ht as <- <-.
      pose proof (levelBase_mono (zr + 1) (Z.min (M - 5 * Z.of_nat (length p)) 5 + 1)) as Hm.
      destruct Hv as (Hz & _). lia.
    + rewrite Ht' in Ht. injection Ht as <- <-.
      replace (M - 5 * Z.of_nat (length p)) with 5 by lia.
      change (levelBase (Z.min 5 5 + 1)) with 1365. lia.
    + rewrite termLoc_cons, Hsc in Ht by assumption.
      apply (IH zoom (p ++ [341 + yr mod 32 * 32 + xr mod 32]) (zr - 5)
               (xr / 32) (yr / 32) rest q e); try assumption; try lia.
      rewrite length_app. cbn [length]. lia.
Qed.

Lemma slots_inj b x y x' y' :
  0 <= x < b -> 0 <= x' < b -> y * b + x = y' * b + x' -> x = x' /\ y = y'.
Proof. intros Hx Hx' H. assert (y = y') by nia. subst. lia. Qed.

Lemma app_cons_inj {A} (p : list A) a r a' r' :
  p ++ a :: r = p ++ a' :: r' -> a = a'.
Proof. intros H. apply app_inv_head in H. congruence. Qed.

Lemma termLoc_not_above M zoom p a path e :
  termLoc M zoom (p ++ [a]) path <> (p, e).
Proof.
  intros H. apply termLoc_prefix in H as [r H].
  apply (f_equal (@length Z)) in H. rewrite !length_app in H. cbn in H. lia.
Qed.

Lemma termLoc_same_head M zoom zoom' p a a' rest rest' :
  termLoc M zoom (p ++ [a]) rest = termLoc M zoom' (p ++ [a']) rest' -> a = a'.
Proof.
  intros H.
  destruct (termLoc M zoom (p ++ [a]) rest) as [q e] eqn:E1.
  symmetry in H.
  apply termLoc_prefix in E1 as [r Hq]. apply termLoc_prefix in H as [r' Hq'].
  rewrite Hq, <- !app_assoc in Hq'. now apply app_cons_inj in Hq'.
Qed.

(** Two coordinates whose walks end in the same slot are equal. *)
Lemma termLoc_inj M (n : nat) : forall p zr xr yr zr' xr' yr' path path',
  zr < 5 * (Z.of_nat n + 1) ->
  validRem zr xr yr -> validRem zr' xr' yr' ->
  5 * Z.of_nat (length p) + zr <= M -> 5 * Z.of_nat (length p) + zr' <= M ->
  getS2TilePath zr xr yr = Some path ->
  getS2TilePath zr' xr' yr' = Some path' ->
  termLoc M (5 * Z.of_nat (length p) + zr) p path
  = termLoc M (5 * Z.of_nat (length p) + zr') p path' ->
  zr = zr' /\ xr = xr' /\ yr = yr'.
Proof.
  induction n as [|n IH];
    intros p zr xr yr zr' xr' yr' path path' Hn Hv Hv' HM HM' Hp Hp' Heq.
  all: destruct (termLoc_cases M _ p zr xr yr path Hv eq_refl HM Hp)
      as [(Hlt & -> & He & H341)|[(Hz5 & Hz & Ht & He & _)|
          (Hge & Hns & Hd & He & rest & -> & Hne & Hsc & Hr & Hvr)]]; try lia.
  all: destruct (termLoc_cases M _ p zr' xr' yr' path' Hv' eq_refl HM' Hp')
      as [(Hlt' & -> & He' & H341')|[(Hz5' & Hz' & Ht' & He' & _)|
          (Hge' & Hns' & Hd' & He' & rest' & -> & Hne' & Hsc' & Hr' & Hvr')]].
  all: rewrite ?termLoc_single, ?Ht, ?Ht' in Heq.
  all: try (rewrite (termLoc_cons _ _ _ _ rest'), Hsc' in Heq by assumption).
  all: try (rewrite (termLoc_cons _ _ _ _ rest), Hsc in Heq by assumption).
  all: try solve [exfalso; eapply termLoc_not_above;
                  first [exact Heq|symmetry; exact Heq]].
  all: try solve [injection Heq as Heq; lia].
  all: lazymatch goal with
       | _ : ?a < 5, _ : ?b < 5 |- _ =>
           injection Heq as Heq;
           destruct Hv as (Hz0 & Hx & Hy); destruct Hv' as (Hz0' & Hx' & Hy');
           assert (zr = zr') as <-
             by (destruct (Z.lt_total zr zr') as [Hc|[Hc|Hc]]; [|assumption|];
                 [pose proof (levelBase_mono (zr + 1) zr' ltac:(lia))
                 |pose proof (levelBase_mono (zr' + 1) zr ltac:(lia))];
                 assert (0 <= yr * 2 ^ zr) by (apply Z.mul_nonneg_nonneg; lia);
                 assert (0 <= yr' * 2 ^ zr') by (apply Z.mul_nonneg_nonneg; lia);
                 lia);
           destruct (slots_inj (2 ^ zr) xr yr xr' yr' Hx Hx' ltac:(lia)); auto
       | _ : ?a = 5, _ : ?b = 5 |- _ =>
           injection Heq as Heq;
           destruct Hv as (_ & Hx & Hy); destruct Hv' as (_ & Hx' & Hy');
           rewrite Hz5 in Hx, Hy; rewrite Hz5' in Hx', Hy';
           change (2 ^ 5) with 32 in *;
           rewrite (Z.mod_small xr), (Z.mod_small yr), (Z.mod_small xr'),
             (Z.mod_small yr') in Heq by lia;
           destruct (slots_inj 32 xr yr xr' yr' Hx Hx' ltac:(lia)); lia
       | _ => idtac
       end.
  (* both go down one directory *)
  pose proof (termLoc_same_head _ _ _ _ _ _ _ _ Heq) as Hq'.
  pose proof (Z.mod_pos_bound xr 32 ltac:(lia)).
  pose proof (Z.mod_pos_bound xr' 32 ltac:(lia)).
  destruct (slots_inj 32 (xr mod 32) (yr mod 32) (xr' mod 32) (yr' mod 32))
    as [Ex Ey]; try lia.
  rewrite <- Ex, <- Ey in Heq.
  set (p1 := p ++ [341 + yr mod 32 * 32 + xr mod 32]) in *.
  assert (Hl : Z.of_nat (length p1) = Z.of_nat (length p) + 1).
  { subst p1. rewrite length_app. cbn [length]. lia. }
  replace (5 * Z.of_nat (length p) + zr)
    with (5 * Z.of_nat (length p1) + (zr - 5)) in Heq by lia.
  replace (5 * Z.of_nat (length p) + zr')
    with (5 * Z.of_nat (length p1) + (zr' - 5)) in Heq by lia.
  destruct (IH p1 (zr - 5) (xr / 32) (yr / 32) (zr' - 5) (xr' / 32) (yr' / 32)
              rest rest') as (Ez & Exq & Eyq); try assumption; try lia.
  pose proof (Z.div_mod xr 32 ltac:(lia)). pose proof (Z.div_mod xr' 32 ltac:(lia)).
  pose proof (Z.div_mod yr 32 ltac:(lia)). pose proof (Z.div_mod yr' 32 ltac:(lia)).
  repeat split; lia.
Qed.

End TrieFacts.

(** * The layout invariant *)

Section Layout.
Import PathFacts FileFacts TrieFacts.

Lemma levelBase_nonpos z : z <= 0 -> levelBase z = 0.
Proof.
  intros H. unfold levelBase. replace (Z.to_nat z) with O by lia. reflexivity.
Qed.

Lemma levelBase_le_1365 z : z <= 6 -> 0 <= levelBase z <= 1365.
Proof.
  intros H. destruct (Z.le_gt_cases z 0) as [H0|H0].
  - rewrite levelBase_nonpos by assumption. lia.
  - pose proof (levelBase_mono 0 z ltac:(lia)).
    pose proof (levelBase_mono z 6 ltac:(lia)).
    change (levelBase 0) with 0 in *. change (levelBase 6) with 1365 in *. lia.
Qed.

Lemma dirLen_snoc M p i :
  dirLen M (p ++ [i]) = dirBytes M (5 * (Z.of_nat (length p) + 1)).
Proof.
  unfold dirLen. destruct (p ++ [i]) eqn:E.
  - destruct p; discriminate.
  - rewrite <- E, length_app. cbn [length]. f_equal. lia.
Qed.

Lemma pointer_slot_fits M p i :
  341 <= i < 1365 -> 5 * (Z.of_nat (length p) + 1) < M ->
  (i + 1) * NODE_SIZE <= dirLen M p.
Proof.
  intros Hi HM. unfold dirLen, NODE_SIZE.
  destruct p as [|a p']; [unfold DIR_SIZE, NODE_SIZE; lia|].
  set (k := Z.of_nat (length (a :: p'))) in *.
  unfold dirBytes, NODE_SIZE. rewrite Z.min_r by lia.
  change (levelBase (5 + 1)) with 1365. lia.
Qed.

Lemma terminal_slot_fits M q e :
  0 <= e < levelBase (Z.min (M - 5 * Z.of_nat (length q)) 5 + 1) ->
  (e + 1) * NODE_SIZE <= dirLen M q.
Proof.
  intros He. unfold dirLen. destruct q as [|a q'].
  - pose proof (levelBase_le_1365 (Z.min (M - 5 * Z.of_nat (length (@nil Z))) 5 + 1)
                  ltac:(lia)).
    unfold DIR_SIZE, NODE_SIZE. lia.
  - unfold dirBytes, NODE_SIZE. lia.
Qed.

Section WithInv.
Context {f : File} {M top : Z} {D : Dirs} {T : Tiles}.
Hypothesis I : FileInv f M top D T.

Lemma dirLen_bounds face p b : D face p = Some b -> 10 <= dirLen M p <= DIR_SIZE.
Proof.
  intros H. destruct p as [|a p' _] using rev_ind;
    [cbn [dirLen]; unfold DIR_SIZE, NODE_SIZE; lia|].
  rewrite dirLen_snoc.
  destruct (inv_parent _ _ _ _ _ I _ _ _ _ H) as (_ & HM & _).
  apply dirBytes_bounds. lia.
Qed.

Lemma dir_below_top face p b :
  D face p = Some b -> METADATA_SIZE <= b /\ b + dirLen M p <= top.
Proof. intros H. destruct (inv_extent _ _ _ _ _ I _ _ _ H) as (? & ? & _). auto. Qed.

Lemma root_below face b : D face [] = Some b -> b + DIR_SIZE <= ROOT_SIZE.
Proof.
  intros H. pose proof (inv_face _ _ _ _ _ I _ _ _ H) as Hf.
  rewrite (inv_root _ _ _ _ _ I _ Hf) in H. injection H as <-.
  unfold ROOT_SIZE, ROOT_DIR_SIZE, METADATA_SIZE, DIR_SIZE, NODE_SIZE. lia.
Qed.

Lemma slots_apart face p b e face' p' b' e' :
  D face p = Some b -> D face' p' = Some b' ->
  0 <= e -> (e + 1) * NODE_SIZE <= dirLen M p ->
  0 <= e' -> (e' + 1) * NODE_SIZE <= dirLen M p' ->
  (face, p, e) <> (face', p', e') ->
  b + e * NODE_SIZE + 10 <= b' + e' * NODE_SIZE
  \/ b' + e' * NODE_SIZE + 10 <= b + e * NODE_SIZE.
Proof.
  intros Hb Hb' He Hf He' Hf' Hne. unfold NODE_SIZE in *.
  destruct (decide ((face, p) = (face', p'))) as [E|E].
  - injection E as <- <-. rewrite Hb in Hb'. injection Hb' as <-.
    assert (e <> e') by congruence. lia.
  - destruct (inv_disjoint _ _ _ _ _ I _ _ _ _ _ _ Hb Hb' E); lia.
Qed.

(** The slot in which the walk of a stored tile ends. *)
Lemma tile_slot c path q e :
  validCoord M c ->
  getS2TilePath (czoom c) (cx c) (cy c) = Some path ->
  termLoc M (czoom c) [] path = (q, e) ->
  0 <= e /\ (e + 1) * NODE_SIZE <= dirLen M q
  /\ (e < 341 \/ 5 * (Z.of_nat (length q) + 1) = M).
Proof.
  intros (Hf & Hz & Hz' & Hx & Hy) Hp Ht.
  destruct (termLoc_kind M (Z.to_nat (czoom c)) (czoom c) [] (czoom c) (cx c) (cy c)
              path q e) as (He & Hk & _); try assumption; try (cbn [length]; lia).
  { repeat split; lia. }
  split; [lia|]. split; [|assumption]. now apply terminal_slot_fits.
Qed.

(** A payload lies apart from every directory. *)
Lemma payload_apart c off len bs face p b :
  T c = Some (off, len, bs) -> D face p = Some b ->
  off + len <= b \/ b + dirLen M p <= off.
Proof.
  intros Ht Hd.
  destruct (inv_tile _ _ _ _ _ I _ _ _ _ Ht)
    as (_ & path & q & e & bd & _ & _ & _ & _ & _ & _ & Hoff & _ & Hap).
  destruct p as [|a p'].
  - right. pose proof (root_below _ _ Hd). cbn [dirLen]. lia.
  - apply (Hap _ _ _ Hd). discriminate.
Qed.

End WithInv.


(** *** Writes that keep the invariant *)

Lemma nodeAt_kept f pos data slot :
  slot + 10 <= pos \/ pos + byteLength data <= slot ->
  nodeAt (writeAt f pos data) slot = nodeAt f slot.
Proof.
  intros H. apply nodeAt_ext. intros j Hj.
  apply byteAt_writeAt_out. lia.
Qed.

Lemma loadBytes_kept f pos data off n :
  off + Z.of_nat n <= pos \/ pos + byteLength data <= off ->
  loadBytes (writeAt f pos data) off n = loadBytes f off n.
Proof.
  intros H. apply loadBytes_ext. intros j Hj.
  apply byteAt_writeAt_out. lia.
Qed.

(** Storing bytes above everything allocated so far, or inside the
    header region. *)
Lemma inv_free_write f M top D T pos data top' :
  FileInv f M top D T ->
  top <= pos \/ pos + byteLength data <= METADATA_SIZE ->
  top <= top' <= fsize (writeAt f pos data) ->
  FileInv (writeAt f pos data) M top' D T.
Proof.
  intros I Hpos Htop. pose proof (inv_top _ _ _ _ _ I) as Ht.
  assert (ROOT_SIZE = 212972) by reflexivity.
  unfold METADATA_SIZE in Hpos.
  constructor.
  - lia.
  - apply I.
  - apply I.
  - intros face p i b Hd.
    destruct (inv_parent _ _ _ _ _ I _ _ _ _ Hd) as (Hi & HM & bp & Hbp & Hn).
    repeat split; try lia. exists bp. split; [assumption|].
    rewrite nodeAt_kept; [assumption|].
    pose proof (pointer_slot_fits M p i Hi HM).
    pose proof (dir_below_top I _ _ _ Hbp).
    unfold NODE_SIZE, METADATA_SIZE in *. lia.
  - intros face p i bp Hbp Hi HM Hnone.
    rewrite nodeAt_kept; [now apply (inv_null _ _ _ _ _ I face p)|].
    pose proof (pointer_slot_fits M p i Hi HM).
    pose proof (dir_below_top I _ _ _ Hbp).
    unfold NODE_SIZE, METADATA_SIZE in *. lia.
  - intros face p b Hd.
    destruct (inv_extent _ _ _ _ _ I _ _ _ Hd) as (? & ? & ?).
    repeat split; try assumption; lia.
  - apply I.
  - intros c off len bs Hc.
    destruct (inv_tile _ _ _ _ _ I _ _ _ _ Hc)
      as (Hv & path & q & e & bq & Hp & Hl & Hq & Hn & Hlen & Hb & Hoff & Hend & Hap).
    split; [assumption|]. exists path, q, e, bq.
    destruct (tile_slot c path q e Hv Hp Hl) as (He & Hfit & _).
    pose proof (dir_below_top I _ _ _ Hq).
    repeat split; try assumption; try lia.
    + rewrite nodeAt_kept; [assumption|].
      unfold NODE_SIZE, METADATA_SIZE in *. lia.
    + rewrite loadBytes_kept; [assumption|]. unfold byteLength in Hlen. lia.
Qed.

Lemma nodeAt_zero f slot :
  (forall j, slot <= j < slot + 10 -> byteAt f j = x00) ->
  nodeAt f slot = (0, 0).
Proof.
  intros H. unfold nodeAt.
  replace (loadBytes f slot 10) with (replicate 10 x00); [reflexivity|].
  symmetry. change 10%nat with (length (replicate 10 x00)) at 1.
  apply loadBytes_data. intros j Hj. change (byteLength (replicate 10 x00)) with 10 in Hj.
  rewrite H by lia. symmetry.
  assert (Hk : (Z.to_nat (j - slot) < 10)%nat) by lia.
  revert Hk. generalize (Z.to_nat (j - slot)). intros k Hk.
  do 10 (destruct k as [|k]; [reflexivity|]). lia.
Qed.

Lemma addDir_old D face p b face' p' b' :
  D face p = None -> D face' p' = Some b' ->
  addDir D face p b face' p' = Some b'.
Proof.
  intros Hn Hd. unfold addDir. case_decide as E; [|assumption].
  destruct E as [-> ->]. congruence.
Qed.

Lemma addDir_inv D face p b face' p' b' :
  addDir D face p b face' p' = Some b' ->
  (face' = face /\ p' = p /\ b' = b) \/ ((face', p') <> (face, p) /\ D face' p' = Some b').
Proof.
  unfold addDir. case_decide as E.
  - intros [= <-]. left. tauto.
  - intros H. right. split; [|assumption]. intros [= -> ->]. tauto.
Qed.

(** Hanging a new, zero-filled leaf directory, allocated at [top], below
    the slot [i] of the directory [p]. *)
Lemma inv_install_dir f M top D T face p b i :
  FileInv f M top D T ->
  D face p = Some b -> 341 <= i < 1365 ->
  5 * (Z.of_nat (length p) + 1) < M ->
  D face (p ++ [i]) = None ->
  let size := dirBytes M (5 * (Z.of_nat (length p) + 1)) in
  top <= maxOffset -> top + size <= fsize f ->
  (forall j, top <= j < top + size -> byteAt f j = x00) ->
  FileInv (writeAt f (b + i * NODE_SIZE) (nodeBytes top size)) M (top + size)
    (addDir D face (p ++ [i]) top) T.
Proof.
  intros I Hb Hi HM Hnone size Hmax Hfs Hzero.
  pose proof (inv_top _ _ _ _ _ I) as Ht.
  assert (Hsize : 10 <= size <= DIR_SIZE) by (apply dirBytes_bounds; lia).
  unfold DIR_SIZE, NODE_SIZE in Hsize.
  pose proof (pointer_slot_fits M p i Hi HM) as Hfit.
  pose proof (dir_below_top I _ _ _ Hb) as Hbt.
  assert (Hslot : b + i * NODE_SIZE + 10 <= top) by (unfold NODE_SIZE in *; lia).
  set (slot := b + i * NODE_SIZE) in *.
  assert (Hnb : byteLength (nodeBytes top size) = 10) by reflexivity.
  assert (ROOT_SIZE = 212972) by reflexivity.
  constructor.
  - pose proof (fsize_writeAt f slot (nodeBytes top size)). lia.
  - intros face' Hf'. unfold addDir. case_decide as E.
    + destruct E as [_ E]. destruct p; discriminate.
    + now apply (inv_root _ _ _ _ _ I).
  - intros face' p' b' Hd. apply addDir_inv in Hd as [(-> & _ & _)|[_ Hd]].
    + apply (inv_face _ _ _ _ _ I _ _ _ Hb).
    + apply (inv_face _ _ _ _ _ I _ _ _ Hd).
  - intros face' p' i' b' Hd. apply addDir_inv in Hd as [(-> & E & ->)|[Hne Hd]].
    + apply app_inj_tail in E as [-> ->]. repeat split; try lia.
      exists b. split.
      * apply addDir_old; assumption.
      * rewrite nodeAt_writeAt; [reflexivity| |]; unfold maxOffset in *; lia.
    + destruct (inv_parent _ _ _ _ _ I _ _ _ _ Hd) as (Hi' & HM' & bp & Hbp & Hn).
      repeat split; try lia. exists bp. split; [now apply addDir_old|].
      rewrite nodeAt_kept; [assumption|]. rewrite Hnb.
      pose proof (pointer_slot_fits M p' i' Hi' HM').
      destruct (slots_apart I face' p' bp i' face p b i) as [?|?];
        try assumption; try lia.
      { intros [= -> -> ->]. congruence. }
      all: subst slot; lia.
  - intros face' p' i' bp Hbp Hi' HM' Hn'.
    assert (Hn0 : D face' (p' ++ [i']) = None).
    { unfold addDir in Hn'. case_decide; [discriminate|assumption]. }
    pose proof (pointer_slot_fits M p' i' Hi' HM') as Hfit'.
    apply addDir_inv in Hbp as [(-> & -> & ->)|[Hne Hbp]].
    + rewrite dirLen_snoc in Hfit'. fold size in Hfit'.
      rewrite nodeAt_kept by (rewrite Hnb; unfold NODE_SIZE in *; lia).
      rewrite nodeAt_zero; [reflexivity|].
      intros j Hj. apply Hzero. unfold NODE_SIZE in *. lia.
    + rewrite nodeAt_kept; [now apply (inv_null _ _ _ _ _ I face' p')|].
      rewrite Hnb.
      destruct (slots_apart I face' p' bp i' face p b i) as [?|?];
        try assumption; try lia.
      { intros [= -> -> ->]. unfold addDir in Hn'.
        case_decide as E; [discriminate|]. apply E. auto. }
      all: subst slot; lia.
  - intros face' p' b' Hd. apply addDir_inv in Hd as [(-> & -> & ->)|[_ Hd]].
    + rewrite dirLen_snoc. fold size. unfold METADATA_SIZE.
      repeat split; try lia.
    + destruct (inv_extent _ _ _ _ _ I _ _ _ Hd) as (? & ? & ?).
      repeat split; try assumption; lia.
  - intros face1 p1 b1 face2 p2 b2 H1 H2 Hne.
    apply addDir_inv in H1 as [(-> & -> & ->)|[Hn1 H1]];
      apply addDir_inv in H2 as [(-> & -> & ->)|[Hn2 H2]].
    + congruence.
    + right. pose proof (dir_below_top I _ _ _ H2). lia.
    + left. pose proof (dir_below_top I _ _ _ H1). lia.
    + now apply (inv_disjoint _ _ _ _ _ I face1 p1 b1 face2 p2 b2).
  - intros c off len bs Hc.
    destruct (inv_tile _ _ _ _ _ I _ _ _ _ Hc)
      as (Hv & path & q & e & bq & Hp & Hl & Hq & Hn & Hlen & Hbs & Hoff & Hend & Hap).
    split; [assumption|]. exists path, q, e, bq.
    destruct (tile_slot c path q e Hv Hp Hl) as (He & Hfit' & Hkind).
    split; [assumption|]. split; [assumption|].
    split; [now apply addDir_old|].
    split; [|split; [assumption|]]; [|split; [|split; [assumption|split; [lia|]]]].
    + rewrite nodeAt_kept; [assumption|]. rewrite Hnb.
      destruct (slots_apart I (cface c) q bq e face p b i) as [?|?];
        try assumption; try lia.
      { intros [= E1 E2 E3]. subst. lia. }
      all: subst slot; lia.
    + rewrite loadBytes_kept; [assumption|]. rewrite Hnb.
      destruct (payload_apart I _ _ _ _ _ _ _ Hc Hb) as [?|?];
        unfold byteLength in Hlen; subst slot; unfold NODE_SIZE in *; lia.
    + intros face' p' b' Hd Hne.
      apply addDir_inv in Hd as [(-> & -> & ->)|[_ Hd]].
      * left. lia.
      * now apply (Hap face' p' b').
Qed.


Lemma termLoc_inj_root M c c' path path' :
  validCoord M c -> validCoord M c' ->
  getS2TilePath (czoom c) (cx c) (cy c) = Some path ->
  getS2TilePath (czoom c') (cx c') (cy c') = Some path' ->
  termLoc M (czoom c) [] path = termLoc M (czoom c') [] path' ->
  czoom c = czoom c' /\ cx c = cx c' /\ cy c = cy c'.
Proof.
  intros (_ & Hz & Hz31 & Hx & Hy) (_ & Hz' & Hz31' & Hx' & Hy') Hp Hp' Heq.
  apply (termLoc_inj M (Z.to_nat (czoom c)) [] (czoom c) (cx c) (cy c)
           (czoom c') (cx c') (cy c') path path');
    try assumption; try (cbn [length]; lia); try (repeat split; lia).
Qed.

Lemma addTile_inv T c v c' v' :
  addTile T c v c' = Some v' ->
  (cface c' = cface c /\ czoom c' = czoom c /\ cx c' = cx c /\ cy c' = cy c
   /\ v' = v)
  \/ (~ (cface c' = cface c /\ czoom c' = czoom c /\ cx c' = cx c /\ cy c' = cy c)
      /\ T c' = Some v').
Proof.
  unfold addTile. case_decide as E.
  - intros [= <-]. left. tauto.
  - intros H. right. tauto.
Qed.

(** Recording a payload in the slot in which the walk of its coordinate
    ends. *)
Lemma inv_install_tile f M top D T c path q e bq off len bs :
  FileInv f M top D T -> validCoord M c ->
  getS2TilePath (czoom c) (cx c) (cy c) = Some path ->
  termLoc M (czoom c) [] path = (q, e) ->
  D (cface c) q = Some bq ->
  byteLength bs = len -> loadBytes f off (length bs) = bs ->
  ROOT_SIZE <= off -> off + len <= top ->
  off <= maxOffset -> len <= 4294967295 ->
  (forall face' p' b', D face' p' = Some b' -> p' <> [] ->
     off + len <= b' \/ b' + dirLen M p' <= off) ->
  FileInv (writeAt f (bq + e * NODE_SIZE) (nodeBytes off len)) M top D
    (addTile T c (off, len, bs)).
Proof.
  intros I Hv Hp Hl Hq Hlen Hbs Hoff Hend Hmax Hlmax Hap.
  pose proof (inv_top _ _ _ _ _ I) as Ht.
  destruct (tile_slot c path q e Hv Hp Hl) as (He & Hfit & Hkind).
  pose proof (dir_below_top I _ _ _ Hq) as Hbt.
  set (slot := bq + e * NODE_SIZE) in *.
  assert (Hnb : byteLength (nodeBytes off len) = 10) by reflexivity.
  assert (ROOT_SIZE = 212972) by reflexivity.
  assert (0 <= len) by (unfold byteLength in Hlen; lia).
  assert (Hpay : forall face' p' b', D face' p' = Some b' ->
                   off + len <= b' \/ b' + dirLen M p' <= off).
  { intros face' p' b' Hd. destruct p' as [|a p'].
    - right. pose proof (root_below I _ _ Hd). cbn [dirLen]. lia.
    - apply (Hap _ _ _ Hd). discriminate. }
  constructor.
  - pose proof (fsize_writeAt f slot (nodeBytes off len)). lia.
  - apply I.
  - apply I.
  - intros face p i b Hd.
    destruct (inv_parent _ _ _ _ _ I _ _ _ _ Hd) as (Hi & HM & bp & Hbp & Hn).
    repeat split; try lia. exists bp. split; [assumption|].
    rewrite nodeAt_kept; [assumption|]. rewrite Hnb.
    pose proof (pointer_slot_fits M p i Hi HM).
    destruct (slots_apart I face p bp i (cface c) q bq e) as [?|?];
      try assumption; try lia.
    { intros [= E1 E2 E3]. subst. lia. }
    all: subst slot; lia.
  - intros face p i bp Hbp Hi HM Hnone.
    rewrite nodeAt_kept; [now apply (inv_null _ _ _ _ _ I face p)|].
    rewrite Hnb. pose proof (pointer_slot_fits M p i Hi HM).
    destruct (slots_apart I face p bp i (cface c) q bq e) as [?|?];
      try assumption; try lia.
    { intros [= E1 E2 E3]. subst. lia. }
    all: subst slot; lia.
  - apply I.
  - apply I.
  - intros c' off' len' bs' Hc.
    apply addTile_inv in Hc as [(Ef & Ez & Ex & Ey & [= -> -> ->])|[Hne Hc]].
    + split.
      { unfold validCoord in *. rewrite Ef, Ez, Ex, Ey. exact Hv. }
      exists path, q, e, bq. rewrite Ef, Ez, Ex, Ey.
      repeat split; try assumption; try lia.
      * apply nodeAt_writeAt; unfold maxOffset in *; lia.
      * rewrite loadBytes_kept; [assumption|]. rewrite Hnb.
        destruct (Hpay _ _ _ Hq) as [?|?];
          unfold byteLength in Hlen; subst slot; unfold NODE_SIZE in *; lia.
    + destruct (inv_tile _ _ _ _ _ I _ _ _ _ Hc)
        as (Hv' & path' & q' & e' & bq' & Hp' & Hl' & Hq' & Hn' & Hlen' & Hbs'
            & Hoff' & Hend' & Hap').
      split; [assumption|]. exists path', q', e', bq'.
      destruct (tile_slot c' path' q' e' Hv' Hp' Hl') as (He' & Hfit' & Hkind').
      repeat split; try assumption.
      * rewrite nodeAt_kept; [assumption|]. rewrite Hnb.
        destruct (slots_apart I (cface c') q' bq' e' (cface c) q bq e) as [?|?];
          try assumption; try lia.
        { intros [= E1 E2 E3]. apply Hne. split; [assumption|].
          apply (termLoc_inj_root M c' c path' path); try assumption.
          rewrite Hl, Hl', E2, E3. reflexivity. }
        all: subst slot; lia.
      * rewrite loadBytes_kept; [assumption|]. rewrite Hnb.
        destruct (payload_apart I _ _ _ _ _ _ _ Hc Hq) as [?|?];
          unfold byteLength in Hlen'; subst slot; unfold NODE_SIZE in *; lia.
Qed.

Lemma byteAt_zeroFile n j : byteAt (zeroFile n) j = x00.
Proof. unfold byteAt, zeroFile. cbn [fdata]. now rewrite lookup_empty. Qed.

(** The file of a new archive. *)
Lemma inv_new M : FileInv (zeroFile ROOT_SIZE) M ROOT_SIZE rootDirs noTiles.
Proof.
  constructor.
  - cbn. lia.
  - intros face Hf. unfold rootDirs. case_decide; [reflexivity|lia].
  - intros face p b. unfold rootDirs. destruct p; [|discriminate].
    case_decide; [auto|discriminate].
  - intros face p i b H. destruct p; discriminate.
  - intros face p i bp H. intros _ _ _.
    rewrite nodeAt_zero; [reflexivity|]. intros j _. apply byteAt_zeroFile.
  - intros face p b. unfold rootDirs. destruct p; [|discriminate].
    case_decide; [|discriminate]. intros [= <-].
    unfold ROOT_SIZE, ROOT_DIR_SIZE, dirLen, METADATA_SIZE, DIR_SIZE, NODE_SIZE.
    repeat split; try lia. intros Hne. now destruct Hne.
  - intros face p b face' p' b'. unfold rootDirs.
    destruct p; [|discriminate]. destruct p'; [|discriminate].
    repeat case_decide; try discriminate. intros [= <-] [= <-] Hne.
    assert (face <> face') by congruence.
    unfold METADATA_SIZE, dirLen, DIR_SIZE, NODE_SIZE. lia.
  - discriminate.
Qed.

End Layout.

(** * The walk *)

Section Walk.
Context {env : Env}.
Implicit Types s : Store env.
Import PathFacts FileFacts TrieFacts.

Lemma upd_id s : upd s (file s) (offset s) = s.
Proof. destruct s; reflexivity. Qed.

Lemma walkLoop_single M zoom create e leafNode cursor depth s :
  walkLoop env M zoom create [e] leafNode cursor depth s
  = Ret (cursor + e * NODE_SIZE) s.
Proof. reflexivity. Qed.

Lemma walkLoop_cons M zoom create e rest leafNode cursor depth :
  rest <> [] ->
  walkLoop env M zoom create (e :: rest) leafNode cursor depth
  = if shortcut M zoom rest then mret (cursor + e * NODE_SIZE)
    else
      leafNode ← readAsync env leafNode NODE_SIZE (cursor + e * NODE_SIZE);
      if _readUInt48LE leafNode =? 0 then
        if create then
          cursor ← createLeafDir env (cursor + e * NODE_SIZE) ((depth + 1) * 5);
          walkLoop env M zoom create rest leafNode cursor (depth + 1)
        else mret 0
      else
        walkLoop env M zoom create rest leafNode (_readUInt48LE leafNode)
          (depth + 1).
Proof. destruct rest; [congruence|reflexivity]. Qed.

(** Reading the record of a slot that lies inside the file. *)
Lemma read_slot s leafNode slot :
  length leafNode = 10%nat -> slot + 10 <= fsize (file s) ->
  readAsync env leafNode NODE_SIZE slot s = Ret (loadBytes (file s) slot 10) s.
Proof.
  intros Hl Hs. rewrite readAsync_run, fileRead_full; try reflexivity.
  - unfold NODE_SIZE. lia.
  - exact Hs.
  - exact Hl.
Qed.

Lemma nth_replicate_zero n k : nth k (replicate n x00) x00 = x00.
Proof.
  revert k. induction n as [|n IH]; intros [|k]; cbn; auto.
Qed.

Variable T : Tiles.

(** The walk of a writer: it ends in the slot of the coordinate, after
    creating the leaf directories that were missing on its way. *)
Lemma walk_create (n : nat) : forall zr xr yr p b s D path leafNode face zoom,
  zr < 5 * (Z.of_nat n + 1) -> validRem zr xr yr ->
  zoom = 5 * Z.of_nat (length p) + zr -> zoom <= maxzoom s ->
  getS2TilePath zr xr yr = Some path ->
  FileInv (file s) (maxzoom s) (offset s) D T ->
  D face p = Some b ->
  length leafNode = 10%nat ->
  offset s + DIR_SIZE * (zr / 5) <= maxOffset ->
  exists f' o' D' cursor,
    walkLoop env (maxzoom s) zoom true path leafNode b (Z.of_nat (length p)) s
    = Ret cursor (upd s f' o')
    /\ FileInv f' (maxzoom s) o' D' T
    /\ (forall face' p' b', D face' p' = Some b' -> D' face' p' = Some b')
    /\ (exists q e bq,
          termLoc (maxzoom s) zoom p path = (q, e)
          /\ D' face q = Some bq /\ cursor = bq + e * NODE_SIZE)
    /\ offset s <= o' <= offset s + DIR_SIZE * (zr / 5)
    /\ (forall j, j < offset s -> ~ inDir (maxzoom s) D j ->
          byteAt f' j = byteAt (file s) j)
    /\ (forall face' p' b', D' face' p' = Some b' ->
          D face' p' = Some b' \/ offset s <= b').
Proof.
  induction n as [|n IH];
    intros zr xr yr p b s D path leafNode face zoom Hn Hv Hzoom HM Hp I Hb Hl Hcap.
  all: pose proof Hv as ((Hz0 & Hz31) & Hx & Hy).
  all: destruct (termLoc_cases (maxzoom s) zoom p zr xr yr path Hv Hzoom HM Hp)
      as [(Hlt & -> & He & H341)|[(Hz5 & Hz & Ht & He & ->)|
          (Hge & Hns & Hd & He & rest & -> & Hne & Hsc & Hr & Hvr)]]; try lia.
  (* the last slice *)
  1,2: exists (file s), (offset s), D, (b + (yr * 2 ^ zr + xr + levelBase zr) * NODE_SIZE);
    rewrite upd_id, walkLoop_single;
    assert (0 <= zr / 5) by (apply Z.div_pos; lia);
    (split; [reflexivity|]); (split; [assumption|]); (split; [auto|]);
    (split; [eexists _, _, b; rewrite termLoc_single; auto|]);
    (split; [unfold DIR_SIZE, NODE_SIZE; lia|auto]).
  (* the tile of the maximal zoom *)
  - exists (file s), (offset s), D, (b + (341 + yr mod 32 * 32 + xr mod 32) * NODE_SIZE).
    assert (Hs : shortcut (maxzoom s) zoom [0] = true).
    { destruct (shortcut (maxzoom s) zoom [0]) eqn:E; [reflexivity|].
      rewrite termLoc_cons, E in Ht by discriminate.
      exfalso. eapply termLoc_not_above. exact Ht. }
    rewrite upd_id, walkLoop_cons, Hs by discriminate.
    assert (0 <= zr / 5) by (apply Z.div_pos; lia).
    split; [reflexivity|]. split; [assumption|]. split; [auto|].
    split; [eexists _, _, b; rewrite Ht; auto|].
    split; [unfold DIR_SIZE, NODE_SIZE; lia|auto].
  (* one directory down *)
  - set (e5 := 341 + yr mod 32 * 32 + xr mod 32) in *.
    set (M := maxzoom s) in *.
    pose proof (inv_top _ _ _ _ _ I) as Htop.
    pose proof (pointer_slot_fits M p e5 He Hd) as Hfit.
    pose proof (dir_below_top I _ _ _ Hb) as Hbt.
    set (slot := b + e5 * NODE_SIZE) in *.
    assert (Hslot : METADATA_SIZE <= slot /\ slot + 10 <= offset s)
      by (subst slot; unfold NODE_SIZE in *; lia).
    assert (Hq : zr / 5 = (zr - 5) / 5 + 1).
    { replace zr with ((zr - 5) + 1 * 5) at 1 by lia.
      now rewrite Z.div_add by lia. }
    assert (0 <= (zr - 5) / 5) by (apply Z.div_pos; lia).
    assert (Hlen1 : Z.of_nat (length (p ++ [e5])) = Z.of_nat (length p) + 1).
    { rewrite length_app. cbn [length]. lia. }
    rewrite walkLoop_cons, Hsc by assumption. fold slot.
    rewrite bind_run, read_slot by (try assumption; lia). cbv beta iota.
    change (_readUInt48LE (loadBytes (file s) slot 10))
      with (fst (nodeAt (file s) slot)).
    rewrite termLoc_cons, Hsc by assumption.
    destruct (D face (p ++ [e5])) as [b2|] eqn:Hchild.
    + (* the leaf directory exists *)
      destruct (inv_parent _ _ _ _ _ I _ _ _ _ Hchild) as (_ & _ & bp & Hbp & Hptr).
      rewrite Hb in Hbp. injection Hbp as <-. fold slot in Hptr. rewrite Hptr.
      destruct (inv_extent _ _ _ _ _ I _ _ _ Hchild) as (_ & _ & Hroot).
      specialize (Hroot ltac:(destruct p; discriminate)).
      destruct (Z.eqb_spec b2 0) as [E0|_]; [unfold ROOT_SIZE, ROOT_DIR_SIZE,
        METADATA_SIZE, DIR_SIZE, NODE_SIZE in Hroot; lia|].
      destruct (IH (zr - 5) (xr / 32) (yr / 32) (p ++ [e5]) b2 s D rest
                  (loadBytes (file s) slot 10) face zoom)
        as (f' & o' & D' & cursor & Hrun & I' & Hsub & Hloc & Ho & Hframe & Hnew);
        try assumption; try lia.
      { apply loadBytes_length. }
      { unfold DIR_SIZE, NODE_SIZE in *. lia. }
      rewrite Hlen1 in Hrun.
      exists f', o', D', cursor. split; [exact Hrun|].
      split; [exact I'|]. split; [exact Hsub|]. split; [exact Hloc|].
      split; [unfold DIR_SIZE, NODE_SIZE in *; lia|].
      split; [exact Hframe|exact Hnew].
    + (* the leaf directory is created *)
      pose proof (inv_null _ _ _ _ _ I face p e5 b Hb He Hd Hchild) as Hnull.
      fold slot in Hnull. rewrite Hnull.
      cbn [Z.eqb]. rewrite bind_run.
      replace ((Z.of_nat (length p) + 1) * 5) with (5 * (Z.of_nat (length p) + 1)) by lia.
      assert (Hdir : 10 <= dirBytes M (5 * (Z.of_nat (length p) + 1)) <= DIR_SIZE)
        by (apply dirBytes_bounds; lia).
      set (size := dirBytes M (5 * (Z.of_nat (length p) + 1))) in *.
      assert (ROOT_SIZE = 212972) by reflexivity.
      assert (DIR_SIZE = 13650) by reflexivity.
      rewrite createLeafDir_run by (fold M; unfold maxOffset in *; lia).
      fold M. fold size. fold slot.
      set (f1 := writeAt (file s) (offset s) (alloc size)).
      set (f2 := writeAt f1 slot (nodeBytes (offset s) size)).
      assert (Hal : byteLength (alloc size) = size).
      { unfold byteLength, alloc. rewrite length_replicate. lia. }
      assert (Hf1 : offset s + size <= fsize f1).
      { pose proof (fsize_writeAt (file s) (offset s) (alloc size)) as [_ Hfs].
        rewrite Hal in Hfs. apply Hfs. intros E.
        apply (f_equal (@length byte)) in E. unfold alloc in E.
        rewrite length_replicate in E. cbn in E. lia. }
      assert (I1 : FileInv f1 M (offset s) D T).
      { apply (inv_free_write (file s) M (offset s) D T (offset s) (alloc size)
                 (offset s)); [assumption|left; lia|fold f1; lia]. }
      assert (I2 : FileInv f2 M (offset s + size) (addDir D face (p ++ [e5]) (offset s)) T).
      { apply inv_install_dir; try assumption; try lia.
        intros j Hj. unfold f1. rewrite byteAt_writeAt_in by lia.
        unfold alloc. apply nth_replicate_zero. }
      set (D1 := addDir D face (p ++ [e5]) (offset s)) in *.
      set (s1 := upd s f2 (offset s + size)).
      destruct (IH (zr - 5) (xr / 32) (yr / 32) (p ++ [e5]) (offset s) s1 D1 rest
                  (loadBytes (file s) slot 10) face zoom)
        as (f' & o' & D' & cursor & Hrun & I' & Hsub & Hloc & Ho & Hframe & Hnew);
        try assumption; try lia.
      { subst D1. unfold addDir. case_decide as E; [reflexivity|]. exfalso. auto. }
      { apply loadBytes_length. }
      { subst s1. sproj. lia. }
      rewrite Hlen1 in Hrun. subst s1. sproj. cbn [maxzoom upd] in *.
      exists f', o', D', cursor. split; [exact Hrun|].
      split; [exact I'|]. split.
      { intros face' p' b' Hd'. apply Hsub. subst D1. now apply addDir_old. }
      split; [exact Hloc|]. split; [cbn [offset upd] in Ho; lia|].
      split.
      { intros j Hj Hnd. cbn [offset file upd] in Hframe. rewrite Hframe; try lia.
        * subst f2 f1. rewrite !byteAt_writeAt_out; try reflexivity; try lia.
          change (byteLength (nodeBytes (offset s) size)) with 10.
          intros Hin. apply Hnd. exists face, p, b. split; [assumption|].
          subst slot. unfold NODE_SIZE in *. lia.
        * intros (face' & p' & b' & Hd' & Hin). subst D1.
          apply addDir_inv in Hd' as [(-> & -> & ->)|[_ Hd']]; [lia|].
          apply Hnd. exists face', p', b'. auto. }
      intros face' p' b' Hd'. cbn [offset upd] in Hnew.
      destruct (Hnew _ _ _ Hd') as [Hold|Hge']; [|right; lia].
      subst D1. apply addDir_inv in Hold as [(-> & -> & ->)|[_ Hold]];
        [right; lia|left; assumption].
Qed.


(** The walk of [putTile], from the root directory of the face. *)
Lemma walk_create_root s D c :
  FileInv (file s) (maxzoom s) (offset s) D T ->
  validCoord (maxzoom s) c ->
  offset s + DIR_SIZE * (czoom c / 5) <= maxOffset ->
  exists f' o' D' path q e bq,
    walk env (cface c) (czoom c) (cx c) (cy c) true s
    = Ret (bq + e * NODE_SIZE) (upd s f' o')
    /\ FileInv f' (maxzoom s) o' D' T
    /\ (forall face' p' b', D face' p' = Some b' -> D' face' p' = Some b')
    /\ getS2TilePath (czoom c) (cx c) (cy c) = Some path
    /\ termLoc (maxzoom s) (czoom c) [] path = (q, e)
    /\ D' (cface c) q = Some bq
    /\ offset s <= o' <= offset s + DIR_SIZE * (czoom c / 5)
    /\ (forall j, j < offset s -> ~ inDir (maxzoom s) D j ->
          byteAt f' j = byteAt (file s) j)
    /\ (forall face' p' b', D' face' p' = Some b' ->
          D face' p' = Some b' \/ offset s <= b').
Proof.
  intros I Hv Hcap. pose proof Hv as (Hf & Hz & Hz31 & Hx & Hy).
  destruct (getS2TilePath_total (czoom c) (cx c) (cy c)) as (path & Hp & _); [lia|].
  destruct (walk_create (Z.to_nat (czoom c)) (czoom c) (cx c) (cy c) []
              (METADATA_SIZE + cface c * DIR_SIZE) s D path (alloc NODE_SIZE)
              (cface c) (czoom c))
    as (f' & o' & D' & cursor & Hrun & I' & Hsub & (q & e & bq & Hloc & Hq & ->)
        & Ho & Hframe & Hnew);
    try assumption; try (cbn [length]; lia); try reflexivity.
  { repeat split; lia. }
  { now apply (inv_root _ _ _ _ _ I). }
  exists f', o', D', path, q, e, bq.
  split; [|split; [exact I'|]; split; [exact Hsub|]; split; [exact Hp|];
           split; [exact Hloc|]; split; [exact Hq|]; split; [exact Ho|];
           split; [exact Hframe|exact Hnew]].
  unfold walk. rewrite bind_run. cbn [get]. rewrite Hp.
  rewrite bind_run. cbn [looped]. unfold mret at 1, M_ret. exact Hrun.
Qed.

(** [putTile]: the payload is stored at the append cursor, cut to the
    length of the data before compression, and the slot of the coordinate
    records the cursor and that length. *)
Lemma putTile_run s D c data cdata :
  FileInv (file s) (maxzoom s) (offset s) D T ->
  validCoord (maxzoom s) c ->
  compressed env data (compression s) = Some cdata ->
  byteLength data <= byteLength cdata -> byteLength data <= 4294967295 ->
  offset s + byteLength data + DIR_SIZE * (czoom c / 5) <= maxOffset ->
  exists f' o' D',
    putTile env (cface c) (czoom c) (cx c) (cy c) data s = Ret tt (upd s f' o')
    /\ FileInv f' (maxzoom s) o' D'
         (addTile T c (offset s, byteLength data,
                       take (Z.to_nat (byteLength data)) cdata))
    /\ offset s + byteLength data <= o'
       <= offset s + byteLength data + DIR_SIZE * (czoom c / 5)
    /\ (forall face p b, D face p = Some b -> D' face p = Some b).
Proof.
  intros I Hv Hc Hlen Hl32 Hcap.
  set (L := byteLength data) in *.
  assert (HL : 0 <= L) by (subst L; unfold byteLength; lia).
  set (bs := take (Z.to_nat L) cdata).
  assert (Hbs : byteLength bs = L).
  { subst bs. unfold byteLength in *. rewrite length_take. lia. }
  pose proof (inv_top _ _ _ _ _ I) as Htop.
  assert (0 <= czoom c / 5) by (apply Z.div_pos; destruct Hv as (_ & ? & _); lia).
  assert (ROOT_SIZE = 212972) by reflexivity.
  assert (DIR_SIZE = 13650) by reflexivity.
  set (f1 := writeAt (file s) (offset s) bs).
  assert (Hf1 : offset s + L <= fsize f1).
  { destruct bs as [|b0 bs'] eqn:E.
    - change (byteLength []) with 0 in Hbs. subst f1. cbn [writeAt]. lia.
    - pose proof (fsize_writeAt (file s) (offset s) (b0 :: bs')) as [_ Hx].
      rewrite Hbs in Hx. apply Hx. discriminate. }
  assert (I1 : FileInv f1 (maxzoom s) (offset s + L) D T).
  { apply (inv_free_write (file s) (maxzoom s) (offset s) D T (offset s) bs);
      [assumption|left; lia|fold f1; lia]. }
  set (s2 := upd s f1 (offset s + L)).
  destruct (walk_create_root s2 D c)
    as (f' & o' & D' & path & q & e & bq & Hwalk & I' & Hsub & Hp & Hloc & Hq
        & Ho & Hframe & Hnew); try assumption.
  subst s2. cbn [file offset maxzoom upd] in *.
  exists (writeAt f' (bq + e * NODE_SIZE) (nodeBytes (offset s) L)), o', D'.
  split.
  - unfold putTile. rewrite bind_run. cbn [get].
    rewrite bind_run, compress_run, Hc.
    rewrite bind_run, writeAsync_run by (fold L; lia). fold L. fold bs. fold f1.
    rewrite bind_run. cbn [get].
    rewrite bind_run. cbn [setOffset]. sproj.
    unfold putNodeInDir. rewrite bind_run.
    change (mkStore f1 _ _ _ _ _ _) with (upd s f1 (offset s + L)).
    rewrite Hwalk.
    rewrite writeNode_run by (sproj; unfold maxOffset in *; lia).
    reflexivity.
  - split; [|split; [lia|exact Hsub]].
    apply (inv_install_tile f' (maxzoom s) o' D' T c path q e bq);
      try assumption; try lia.
    + transitivity (loadBytes f1 (offset s) (length bs));
        [|apply loadBytes_writeAt].
      apply loadBytes_ext. intros j Hj. apply Hframe; [unfold byteLength in Hbs; lia|].
      intros (face' & p' & b' & Hd' & Hin).
      pose proof (dir_below_top I _ _ _ Hd'). lia.
    + intros face' p' b' Hd' Hne.
      destruct (Hnew _ _ _ Hd') as [Hold|Hge]; [|left; lia].
      right. pose proof (dir_below_top I _ _ _ Hold). lia.
Qed.

(** The walk of a reader towards a stored tile. *)
Lemma walk_read (n : nat) : forall zr xr yr p b s D top path leafNode face zoom q e bq,
  zr < 5 * (Z.of_nat n + 1) -> validRem zr xr yr ->
  zoom = 5 * Z.of_nat (length p) + zr -> zoom <= maxzoom s ->
  getS2TilePath zr xr yr = Some path ->
  FileInv (file s) (maxzoom s) top D T ->
  D face p = Some b ->
  length leafNode = 10%nat ->
  termLoc (maxzoom s) zoom p path = (q, e) -> D face q = Some bq ->
  walkLoop env (maxzoom s) zoom false path leafNode b (Z.of_nat (length p)) s
  = Ret (bq + e * NODE_SIZE) s.
Proof.
  induction n as [|n IH];
    intros zr xr yr p b s D top path leafNode face zoom q e bq
      Hn Hv Hzoom HM Hp I Hb Hl Hloc Hq.
  all: pose proof Hv as ((Hz0 & Hz31) & Hx & Hy).
  all: destruct (termLoc_cases (maxzoom s) zoom p zr xr yr path Hv Hzoom HM Hp)
      as [(Hlt & -> & He & H341)|[(Hz5 & Hz & Ht & He & ->)|
          (Hge & Hns & Hd & He & rest & -> & Hne & Hsc & Hr & Hvr)]]; try lia.
  1,2: rewrite termLoc_single in Hloc; injection Hloc as <- <-;
    rewrite Hb in Hq; injection Hq as <-; apply walkLoop_single.
  - rewrite Ht in Hloc. injection Hloc as <- <-.
    rewrite Hb in Hq. injection Hq as <-.
    assert (Hs : shortcut (maxzoom s) zoom [0] = true).
    { destruct (shortcut (maxzoom s) zoom [0]) eqn:E; [reflexivity|].
      rewrite termLoc_cons, E in Ht by discriminate.
      exfalso. eapply termLoc_not_above. exact Ht. }
    rewrite walkLoop_cons, Hs by discriminate. reflexivity.
  - set (e5 := 341 + yr mod 32 * 32 + xr mod 32) in *.
    set (M := maxzoom s) in *.
    pose proof (inv_top _ _ _ _ _ I) as Htop.
    pose proof (pointer_slot_fits M p e5 He Hd) as Hfit.
    pose proof (dir_below_top I _ _ _ Hb) as Hbt.
    set (slot := b + e5 * NODE_SIZE) in *.
    assert (Hlen1 : Z.of_nat (length (p ++ [e5])) = Z.of_nat (length p) + 1).
    { rewrite length_app. cbn [length]. lia. }
    rewrite termLoc_cons, Hsc in Hloc by assumption.
    (* the directory in which the walk ends lies below [p ++ [e5]] *)
    assert (Hchild : exists b2, D face (p ++ [e5]) = Some b2).
    { destruct (termLoc_prefix _ _ _ _ _ _ Hloc) as [r ->].
      clear - I Hq. revert bq Hq. induction r as [|a r IHr] using rev_ind; intros bq Hq.
      - rewrite app_nil_r in Hq. eauto.
      - rewrite app_assoc in Hq.
        destruct (inv_parent _ _ _ _ _ I _ _ _ _ Hq) as (_ & _ & bp & Hbp & _).
        eauto. }
    destruct Hchild as [b2 Hchild].
    destruct (inv_parent _ _ _ _ _ I _ _ _ _ Hchild) as (_ & _ & bp & Hbp & Hptr).
    rewrite Hb in Hbp. injection Hbp as <-. fold slot in Hptr.
    destruct (inv_extent _ _ _ _ _ I _ _ _ Hchild) as (_ & _ & Hroot).
    specialize (Hroot ltac:(destruct p; discriminate)).
    rewrite walkLoop_cons, Hsc by assumption. fold slot.
    rewrite bind_run, read_slot by (try assumption; unfold NODE_SIZE in *; lia).
    cbv beta iota.
    change (_readUInt48LE (loadBytes (file s) slot 10))
      with (fst (nodeAt (file s) slot)).
    rewrite Hptr.
    destruct (Z.eqb_spec b2 0) as [E0|_]; [unfold ROOT_SIZE, ROOT_DIR_SIZE,
      METADATA_SIZE, DIR_SIZE, NODE_SIZE in Hroot; lia|].
    rewrite <- Hlen1.
    apply (IH (zr - 5) (xr / 32) (yr / 32) (p ++ [e5]) b2 s D top rest
             (loadBytes (file s) slot 10) face zoom q e bq);
      try assumption; try lia.
    apply loadBytes_length.
Qed.

End Walk.

(** * Reading tiles back *)

Section Read.
Context {env : Env}.
Implicit Types s : Store env.
Import PathFacts FileFacts TrieFacts.

Lemma setup_done s : isSetup s = true -> setup env s = Ret tt s.
Proof. intros H. unfold setup. rewrite bind_run. cbn [get]. now rewrite H. Qed.

Lemma walk_read_root s D T top c path q e bq :
  FileInv (file s) (maxzoom s) top D T ->
  validCoord (maxzoom s) c ->
  getS2TilePath (czoom c) (cx c) (cy c) = Some path ->
  termLoc (maxzoom s) (czoom c) [] path = (q, e) ->
  D (cface c) q = Some bq ->
  walk env (cface c) (czoom c) (cx c) (cy c) false s
  = Ret (bq + e * NODE_SIZE) s.
Proof.
  intros I Hv Hp Hloc Hq. pose proof Hv as (Hf & Hz & Hz31 & Hx & Hy).
  unfold walk. rewrite bind_run. cbn [get]. rewrite Hp.
  rewrite bind_run. cbn [looped]. unfold mret at 1, M_ret.
  apply (walk_read T (Z.to_nat (czoom c)) (czoom c) (cx c) (cy c) []
           (METADATA_SIZE + cface c * DIR_SIZE) s D top path (alloc NODE_SIZE)
           (cface c) (czoom c) q e bq);
    try assumption; try (cbn [length]; lia); try reflexivity.
  - repeat split; lia.
  - now apply (inv_root _ _ _ _ _ I).
Qed.

(** [getTileS2] on a store that is set up, at a stored tile: the recorded
    number of bytes is read at the recorded offset and decompressed. *)
Lemma getTileS2_stored s D T top c off len bs :
  isSetup s = true ->
  FileInv (file s) (maxzoom s) top D T ->
  T c = Some (off, len, bs) ->
  getTileS2 env (cface c) (czoom c) (cx c) (cy c) s
  = match decompressed env bs (compression s) with
    | inr d => Ret (Some d) s
    | inl e => Throw e s
    end.
Proof.
  intros Hs I Hc.
  destruct (inv_tile _ _ _ _ _ I _ _ _ _ Hc)
    as (Hv & path & q & e & bq & Hp & Hl & Hq & Hn & Hlen & Hbs & Hoff & Hend & Hap).
  destruct (tile_slot c path q e Hv Hp Hl) as (He & Hfit & _).
  pose proof (dir_below_top I _ _ _ Hq) as Hbt.
  pose proof (inv_top _ _ _ _ _ I) as Htop.
  unfold getTileS2. rewrite bind_run, setup_done by assumption.
  rewrite bind_run. cbn [get].
  rewrite bind_run, (walk_read_root s D T top c path q e bq) by assumption.
  rewrite bind_run, read_slot;
    [|reflexivity|unfold NODE_SIZE in *; lia].
  cbv beta iota.
  change (_readUInt48LE (loadBytes (file s) (bq + e * NODE_SIZE) 10))
    with (fst (nodeAt (file s) (bq + e * NODE_SIZE))).
  change (readUint32LE (loadBytes (file s) (bq + e * NODE_SIZE) 10) 6)
    with (snd (nodeAt (file s) (bq + e * NODE_SIZE))).
  rewrite Hn. cbn [fst snd]. rewrite bind_run, readAsync_run.
  assert (Hlen' : length bs = Z.to_nat len) by (unfold byteLength in Hlen; lia).
  rewrite fileRead_full.
  - rewrite <- Hlen', Hbs. rewrite bind_run, decompress_run.
    destruct (decompressed env bs (compression s)); reflexivity.
  - unfold byteLength in Hlen. lia.
  - lia.
  - unfold alloc. now rewrite length_replicate.
Qed.

(** [hasTileS2] at a stored tile: whether the recorded length is not zero. *)
Lemma hasTileS2_stored s D T top c off len bs :
  isSetup s = true ->
  FileInv (file s) (maxzoom s) top D T ->
  T c = Some (off, len, bs) ->
  hasTileS2 env (cface c) (czoom c) (cx c) (cy c) s
  = Ret (negb (len =? 0)) s.
Proof.
  intros Hs I Hc.
  destruct (inv_tile _ _ _ _ _ I _ _ _ _ Hc)
    as (Hv & path & q & e & bq & Hp & Hl & Hq & Hn & Hlen & Hbs & Hoff & Hend & Hap).
  destruct (tile_slot c path q e Hv Hp Hl) as (He & Hfit & _).
  pose proof (dir_below_top I _ _ _ Hq) as Hbt.
  pose proof (inv_top _ _ _ _ _ I) as Htop.
  unfold hasTileS2. rewrite bind_run, setup_done by assumption.
  rewrite bind_run, (walk_read_root s D T top c path q e bq) by assumption.
  rewrite bind_run, read_slot;
    [|reflexivity|unfold NODE_SIZE in *; lia].
  cbv beta iota.
  change (_readUInt48LE (loadBytes (file s) (bq + e * NODE_SIZE) 10))
    with (fst (nodeAt (file s) (bq + e * NODE_SIZE))).
  change (readUint32LE (loadBytes (file s) (bq + e * NODE_SIZE) 10) 6)
    with (snd (nodeAt (file s) (bq + e * NODE_SIZE))).
  rewrite Hn. cbn [fst snd].
  destruct (Z.eqb_spec off 0) as [E|_];
    [unfold ROOT_SIZE, ROOT_DIR_SIZE, METADATA_SIZE, DIR_SIZE, NODE_SIZE in Hoff; lia|].
  reflexivity.
Qed.

(** A read on a store that is not set up starts with [setup]. *)
Lemma getTileS2_setup s s1 face zoom x y :
  setup env s = Ret tt s1 -> isSetup s1 = true ->
  getTileS2 env face zoom x y s = getTileS2 env face zoom x y s1.
Proof.
  intros H H1. unfold getTileS2.
  rewrite (bind_run (setup env)), H.
  rewrite (bind_run (setup env) _ s1), (setup_done s1 H1). reflexivity.
Qed.

Lemma hasTileS2_setup s s1 face zoom x y :
  setup env s = Ret tt s1 -> isSetup s1 = true ->
  hasTileS2 env face zoom x y s = hasTileS2 env face zoom x y s1.
Proof.
  intros H H1. unfold hasTileS2.
  rewrite (bind_run (setup env)), H.
  rewrite (bind_run (setup env) _ s1), (setup_done s1 H1). reflexivity.
Qed.

End Read.

(** * Writing and reading back *)

Section RoundTrip.
Context {env : Env}.
Implicit Types s : Store env.
Import PathFacts FileFacts TrieFacts.

Lemma coord_fields (c c' : Coord) :
  cface c' = cface c -> czoom c' = czoom c -> cx c' = cx c -> cy c' = cy c ->
  c' = c.
Proof. destruct c, c'. cbn. congruence. Qed.

Lemma addTile_same T c v : addTile T c v c = Some v.
Proof. unfold addTile. case_decide as E; [reflexivity|]. exfalso. auto. Qed.

Lemma addTile_other T c v c' : c' <> c -> addTile T c v c' = T c'.
Proof.
  intros H. unfold addTile. case_decide as E; [|reflexivity].
  destruct E as (? & ? & ? & ?). exfalso. apply H. now apply coord_fields.
Qed.

Lemma compressed_none data : compressed env data Compression.None = Some data.
Proof. reflexivity. Qed.

Lemma footprint_nonneg M (ws : list (Coord * bytes)) :
  Forall (fun w => validCoord M w.1 /\ byteLength w.2 <= 4294967295) ws ->
  0 <= footprint ws.
Proof.
  induction 1 as [|[c d] ws [(_ & Hz & _) _] _ IH]; cbn [footprint]; [lia|].
  cbn [fst] in Hz. assert (0 <= czoom c / 5) by (apply Z.div_pos; lia).
  unfold byteLength, DIR_SIZE, NODE_SIZE. lia.
Qed.

(** The writes of a list of tiles with distinct coordinates, without
    compression: all succeed, and every payload is recorded as it is. *)
Lemma putAll_run (ws : list (Coord * bytes)) : forall s D T,
  compression s = Compression.None ->
  FileInv (file s) (maxzoom s) (offset s) D T ->
  Forall (fun w => validCoord (maxzoom s) w.1 /\ byteLength w.2 <= 4294967295) ws ->
  NoDup (ws.*1) ->
  offset s + footprint ws <= maxOffset ->
  exists f' o' D' T',
    putAll env ws s = Ret tt (upd s f' o')
    /\ FileInv f' (maxzoom s) o' D' T'
    /\ (forall c data, (c, data) ∈ ws ->
          exists off, T' c = Some (off, byteLength data, data))
    /\ (forall c, c ∉ ws.*1 -> T' c = T c).
Proof.
  induction ws as [|[c data] ws IH]; intros s D T Hk I Hall Hnd Hcap.
  - exists (file s), (offset s), D, T. rewrite upd_id.
    split; [reflexivity|]. split; [assumption|].
    split; [intros c data H; inversion H|reflexivity].
  - apply Forall_cons in Hall as [[Hv Hl32] Hall]. cbn [fst snd] in Hv, Hl32.
    cbn [fmap list_fmap fst] in Hnd. apply NoDup_cons in Hnd as [Hfresh Hnd].
    cbn [footprint] in Hcap.
    pose proof (footprint_nonneg _ _ Hall) as Hfp.
    destruct (putTile_run T s D c data data)
      as (f1 & o1 & D1 & Hput & I1 & Ho1 & _); try assumption; try lia.
    { rewrite Hk. apply compressed_none. }
    rewrite take_ge in I1 by (unfold byteLength; lia).
    set (T1 := addTile T c (offset s, byteLength data, data)) in *.
    destruct (IH (upd s f1 o1) D1 T1)
      as (f' & o' & D' & T' & Hrun & I' & Hin & Hout); try assumption.
    { sproj. lia. }
    exists f', o', D', T'. split; [|split; [exact I'|split]].
    + cbn [putAll]. rewrite bind_run, Hput. exact Hrun.
    + intros c' d' Hel. apply elem_of_cons in Hel as [[= -> ->]|Hel].
      * rewrite Hout by assumption. subst T1. rewrite addTile_same. eauto.
      * now apply Hin.
    + intros c' Hc'. cbn [fmap list_fmap fst] in Hc'.
      apply not_elem_of_cons in Hc' as [Hne Hc'].
      rewrite Hout by assumption. subst T1. now apply addTile_other.
Qed.

Lemma putTile_refused s face zoom x y data cdata :
  compressed env data (compression s) = Some cdata ->
  byteLength cdata < byteLength data ->
  putTile env face zoom x y data s = Throw OutOfRange s.
Proof.
  intros Hc Hlt. unfold putTile. rewrite bind_run. cbn [get].
  rewrite bind_run, compress_run, Hc.
  rewrite bind_run, writeAsync_refused by assumption. reflexivity.
Qed.

Lemma putTile_unsupported s face zoom x y data :
  compressed env data (compression s) = None ->
  putTile env face zoom x y data s = Throw CompressionNotSupported s.
Proof.
  intros Hc. unfold putTile. rewrite bind_run. cbn [get].
  rewrite bind_run, compress_run, Hc. reflexivity.
Qed.

(** The first half of [putTile]: the payload is appended and the cursor
    moves by the length of the data as it was before compression. *)
Lemma putTile_append s face zoom x y data cdata :
  compressed env data (compression s) = Some cdata ->
  byteLength data <= byteLength cdata ->
  putTile env face zoom x y data s
  = putNodeInDir env face zoom x y (offset s, byteLength data)
      (upd s (writeAt (file s) (offset s)
                (take (Z.to_nat (byteLength data)) cdata))
         (offset s + byteLength data)).
Proof.
  intros Hc Hle. unfold putTile. rewrite bind_run. cbn [get].
  rewrite bind_run, compress_run, Hc.
  rewrite bind_run, writeAsync_run by (unfold byteLength in *; lia).
  rewrite bind_run. cbn [get].
  rewrite bind_run. cbn [setOffset]. sproj. reflexivity.
Qed.

End RoundTrip.

(** ** The claims on writing and reading tiles *)

Section TileClaims.
Import PathFacts FileFacts TrieFacts.

(** C5 (as amended).  On a well-formed archive, for a payload whose
    compressed form [cdata] has at least [L] bytes, [L] being the length of
    the data before compression: [putTile] stores the first [L] bytes of
    [cdata] at the append cursor and moves the cursor by [L] before it
    walks; the slot in which the walk ends then holds the record (cursor
    before, [L]); and [getTileS2], on the store once it is set up, reads
    [L] bytes at the recorded offset and hands them to the decompressor.
    Neither the record nor the move of the cursor depends on the length of
    [cdata]. *)
Theorem putTile_recorded_length env (s : Store env) D T c data cdata :
  FileInv (file s) (maxzoom s) (offset s) D T ->
  validCoord (maxzoom s) c ->
  compressed env data (compression s) = Some cdata ->
  byteLength data <= byteLength cdata -> byteLength data <= 4294967295 ->
  offset s + byteLength data + DIR_SIZE * (czoom c / 5) <= maxOffset ->
  let L := byteLength data in
  let stored := take (Z.to_nat L) cdata in
  putTile env (cface c) (czoom c) (cx c) (cy c) data s
  = putNodeInDir env (cface c) (czoom c) (cx c) (cy c) (offset s, L)
      (upd s (writeAt (file s) (offset s) stored) (offset s + L))
  /\ exists s' cursor,
       putTile env (cface c) (czoom c) (cx c) (cy c) data s = Ret tt s'
       /\ walk env (cface c) (czoom c) (cx c) (cy c) false s' = Ret cursor s'
       /\ nodeAt (file s') cursor = (offset s, L)
       /\ loadBytes (file s') (offset s) (Z.to_nat L) = stored
       /\ offset s + L <= offset s'
       /\ getTileS2 env (cface c) (czoom c) (cx c) (cy c) (asSetUp s')
          = match decompressed env stored (compression s) with
            | inr d => Ret (Some d) (asSetUp s')
            | inl e => Throw e (asSetUp s')
            end.
Proof.
  intros I Hv Hc Hle Hl32 Hcap L stored.
  split; [now apply putTile_append|].
  destruct (putTile_run T s D c data cdata)
    as (f' & o' & D' & Hput & I' & Ho & _); try assumption.
  fold L in Hput, I', Ho. fold stored in I'.
  pose proof (addTile_same T c (offset s, L, stored)) as Hc'.
  destruct (inv_tile _ _ _ _ _ I' _ _ _ _ Hc')
    as (_ & path & q & e & bq & Hp & Hl & Hq & Hn & Hlen & Hbs & _).
  exists (upd s f' o'), (bq + e * NODE_SIZE).
  split; [exact Hput|]. split.
  { apply (walk_read_root (upd s f' o') D' (addTile T c (offset s, L, stored))
             o' c path q e bq); assumption. }
  split; [exact Hn|]. split.
  { sproj. replace (Z.to_nat L) with (length stored); [exact Hbs|].
    unfold byteLength in Hlen. lia. }
  split; [sproj; lia|].
  apply (getTileS2_stored (asSetUp (upd s f' o')) D'
           (addTile T c (offset s, L, stored)) o' c (offset s) L stored);
    [reflexivity|exact I'|exact Hc'].
Qed.

Lemma putTile_recorded_length_witness :
  let s := constructor sampleEnv None (Some 9) None in
  let c := mkCoord 0 9 22 9 in
  let L := byteLength helloWorld2 in
  let stored := take (Z.to_nat L) (x1f :: x8b :: helloWorld2) in
  putTile sampleEnv (cface c) (czoom c) (cx c) (cy c) helloWorld2 s
  = putNodeInDir sampleEnv (cface c) (czoom c) (cx c) (cy c) (offset s, L)
      (upd s (writeAt (file s) (offset s) stored) (offset s + L))
  /\ exists s' cursor,
       putTile sampleEnv (cface c) (czoom c) (cx c) (cy c) helloWorld2 s = Ret tt s'
       /\ walk sampleEnv (cface c) (czoom c) (cx c) (cy c) false s' = Ret cursor s'
       /\ nodeAt (file s') cursor = (offset s, L)
       /\ loadBytes (file s') (offset s) (Z.to_nat L) = stored
       /\ offset s + L <= offset s'
       /\ getTileS2 sampleEnv (cface c) (czoom c) (cx c) (cy c) (asSetUp s')
          = match decompressed sampleEnv stored (compression s) with
            | inr d => Ret (Some d) (asSetUp s')
            | inl e => Throw e (asSetUp s')
            end.
Proof.
  apply (putTile_recorded_length sampleEnv
           (constructor sampleEnv None (Some 9) None)
           rootDirs noTiles (mkCoord 0 9 22 9) helloWorld2
           (x1f :: x8b :: helloWorld2)).
  - apply (inv_new 9).
  - vm_compute. intuition discriminate.
  - reflexivity.
  - vm_compute. discriminate.
  - vm_compute. discriminate.
  - vm_compute. discriminate.
Defined.

(** C5 as the specification states it fails: not every [putTile] records
    a length.  With a codec that shrinks the payload (here 1000 zero bytes,
    which run-length coding behind the gzip marker brings down to 10),
    [fs.write] is asked for the 1000 bytes of the data out of a buffer of
    10 and raises its range error: the store is left as it was, with
    nothing written, no record and the cursor where it stood. *)
Lemma putTile_recorded_length_fails :
  let s := constructor runLengthEnv None (Some 9) None in
  byteLength (alloc 1000) = 1000
  /\ compression s = Compression.Gzip
  /\ (exists cdata,
        compressed runLengthEnv (alloc 1000) (compression s) = Some cdata
        /\ byteLength cdata = 10
        /\ decompressed runLengthEnv cdata (compression s) = inr (alloc 1000))
  /\ putTile runLengthEnv 0 0 0 0 (alloc 1000) s = Throw OutOfRange s
  /\ offset s = ROOT_SIZE /\ file s = zeroFile ROOT_SIZE.
Proof.
  cbv zeta. split; [reflexivity|]. split; [reflexivity|].
  split; [eexists; split; [reflexivity|split; vm_compute; reflexivity]|].
  split; [vm_compute; reflexivity|]. split; reflexivity.
Qed.

(** The bytes a list of writes appends do not depend on their order. *)
Lemma footprint_Permutation (ws ws' : list (Coord * bytes)) :
  ws ≡ₚ ws' -> footprint ws = footprint ws'.
Proof.
  induction 1 as [|[c d] l l' _ IH|[c d] [c' d'] l|l l' l'' _ IH1 _ IH2];
    cbn [footprint]; lia.
Qed.

(** The writes of a list of tiles, in the order of the list, followed by
    the commit and by reads on a store opened on the file. *)
Lemma roundtrip_in_order env M (ws : list (Coord * bytes)) md :
  0 <= M <= 255 ->
  Forall (fun w => validCoord M w.1 /\ byteLength w.2 <= 4294967295) ws ->
  NoDup (ws.*1) ->
  ROOT_SIZE + footprint ws <= maxOffset ->
  0 < byteLength (encodeJSON env md) <= 131062 ->
  is_Some (parseJSON env (encodeJSON env md)) ->
  exists w,
    (putAll env ws;; commit env md None)
      (constructor env None (Some M) (Some Compression.None)) = Ret tt w
    /\ forall c data, (c, data) ∈ ws ->
       forall mz cp, exists r,
         getTileS2 env (cface c) (czoom c) (cx c) (cy c)
           (constructor env (Some (file w)) mz cp)
         = Ret (Some data) r.
Proof.
  intros HM Hall Hnd Hcap Hmd [md' Hparse].
  set (s0 := constructor env None (Some M) (Some Compression.None)).
  set (blob := encodeJSON env md) in *.
  destruct (putAll_run ws s0 rootDirs noTiles)
    as (f1 & o1 & D1 & T1 & Hrun & I1 & Hin & _); try assumption;
    try reflexivity.
  { apply inv_new. }
  cbn [maxzoom s0 constructor from_option id] in I1.
  pose proof (inv_top _ _ _ _ _ I1) as Htop.
  set (hdr := headerBytes 1 M Compression.None (byteLength blob)).
  set (fw := writeAt (writeAt f1 0 hdr) 10 blob).
  assert (Hcommit : commit env md None (upd s0 f1 o1) = Ret tt (upd s0 fw o1)).
  { rewrite commit_run by (repeat split; cbn; unfold Compression.None; lia).
    sproj. fold blob. subst s0. cbn [compression constructor from_option id].
    rewrite compressed_none.
    destruct (Z.ltb_spec (METADATA_SIZE - 10) (byteLength blob)) as [Hbig|_];
      [unfold METADATA_SIZE in Hbig; lia|].
    reflexivity. }
  destruct (committed_file f1 hdr blob eq_refl) as (Hh & Hb & _ & Hfs).
  fold fw in Hh, Hb, Hfs.
  assert (Iw : FileInv fw M o1 D1 T1).
  { assert (byteLength hdr = 10) by reflexivity.
    pose proof (fsize_writeAt f1 0 hdr) as [? _].
    pose proof (fsize_writeAt (writeAt f1 0 hdr) 10 blob) as [? _].
    apply (inv_free_write (writeAt f1 0 hdr) M o1 D1 T1 10 blob o1);
      [|right; unfold METADATA_SIZE; lia|lia].
    apply (inv_free_write f1 M o1 D1 T1 0 hdr o1);
      [assumption|right; unfold METADATA_SIZE; lia|lia]. }
  exists (upd s0 fw o1). split.
  { rewrite bind_run, Hrun. exact Hcommit. }
  intros c data Hel mz cp. sproj.
  destruct (Hin c data Hel) as [off Hc].
  set (r0 := constructor env (Some fw) mz cp).
  set (r1 := mkStore fw true ROOT_SIZE M 1 Compression.None (Some md')).
  assert (Hsetup : setup env r0 = Ret tt r1).
  { rewrite (setup_run r0 1 M Compression.None blob);
      [|reflexivity|exact Hh|exact Hb|change (METADATA_SIZE - 10) with 131062; lia
       |exact Hfs|lia|lia|unfold Compression.None; lia].
    cbv zeta. change (decompressed env blob Compression.None) with (@inr Error _ blob).
    cbv beta iota. rewrite Hparse. reflexivity. }
  exists r1. rewrite (getTileS2_setup r0 r1) by (assumption || reflexivity).
  rewrite (getTileS2_stored r1 D1 T1 o1 c off (byteLength data) data);
    try assumption; reflexivity.
Qed.

(** C1 (as amended).  On a new archive opened with a maximal zoom [M] that
    fits the header and without compression, the writes of any finite set
    of tiles with distinct coordinates (face in 0..5, zoom at most [M] and
    at most 31, x and y below [2^zoom]), in any order, and the commit all
    succeed as long as the file stays within the range of the 48-bit
    offsets; [getTileS2], on a store opened on the file, then returns for
    every entry exactly the bytes that were written. *)
Theorem put_commit_get_roundtrip env M (ws : list (Coord * bytes)) md :
  0 <= M <= 255 ->
  Forall (fun w => validCoord M w.1 /\ byteLength w.2 <= 4294967295) ws ->
  NoDup (ws.*1) ->
  ROOT_SIZE + footprint ws <= maxOffset ->
  0 < byteLength (encodeJSON env md) <= 131062 ->
  is_Some (parseJSON env (encodeJSON env md)) ->
  forall order, order ≡ₚ ws ->
  exists w,
    (putAll env order;; commit env md None)
      (constructor env None (Some M) (Some Compression.None)) = Ret tt w
    /\ forall c data, (c, data) ∈ ws ->
       forall mz cp, exists r,
         getTileS2 env (cface c) (czoom c) (cx c) (cy c)
           (constructor env (Some (file w)) mz cp)
         = Ret (Some data) r.
Proof.
  intros HM Hall Hnd Hcap Hmd Hparse order Hperm.
  destruct (roundtrip_in_order env M order md) as (w & Hrun & Hget);
    try assumption.
  - rewrite Hperm. exact Hall.
  - rewrite Hperm. exact Hnd.
  - rewrite (footprint_Permutation _ _ Hperm). exact Hcap.
  - exists w. split; [exact Hrun|].
    intros c data Hel. apply Hget. rewrite Hperm. exact Hel.
Qed.

Lemma put_commit_get_roundtrip_witness :
  let ws := [(mkCoord 0 0 0 0, helloWorld); (mkCoord 0 1 0 1, helloWorld);
             (mkCoord 0 9 22 9, helloWorld2)] in
  exists w,
    (putAll sampleEnv (reverse ws);; commit sampleEnv metadataTrue None)
      (constructor sampleEnv None (Some 9) (Some Compression.None)) = Ret tt w
    /\ forall c data, (c, data) ∈ ws ->
       forall mz cp, exists r,
         getTileS2 sampleEnv (cface c) (czoom c) (cx c) (cy c)
           (constructor sampleEnv (Some (file w)) mz cp)
         = Ret (Some data) r.
Proof.
  apply (put_commit_get_roundtrip sampleEnv 9
           [(mkCoord 0 0 0 0, helloWorld); (mkCoord 0 1 0 1, helloWorld);
            (mkCoord 0 9 22 9, helloWorld2)] metadataTrue).
  - lia.
  - repeat constructor; vm_compute; intuition discriminate.
  - repeat (apply NoDup_cons; split;
            [rewrite ?elem_of_cons, elem_of_nil; intuition discriminate|]).
    apply NoDup_nil_2.
  - vm_compute. discriminate.
  - vm_compute. intuition discriminate.
  - eexists. reflexivity.
  - apply reverse_Permutation.
Defined.

(** C1 as the specification states it fails.  With the configured
    compression Zstd, [putTile] raises "Compression type not supported";
    two entries of the same coordinate do not both read back; and at zoom
    32 two different coordinates share one path, so that one tile takes
    the place of the other. *)
Lemma roundtrip_identity_fails :
  raised (putTile sampleEnv 0 0 0 0 helloWorld
            (constructor sampleEnv None (Some 0) (Some Compression.Zstd)))
  = Some CompressionNotSupported
  /\ writeThenRead 0 Compression.None
       [(mkCoord 0 0 0 0, [x01]); (mkCoord 0 0 0 0, [x02])] (mkCoord 0 0 0 0)
     = Some (Some [x02])
  /\ writeThenRead 32 Compression.None
       [(mkCoord 0 32 (2 ^ 31) 0, [x01]); (mkCoord 0 31 0 (2 ^ 30), [x02])]
       (mkCoord 0 32 (2 ^ 31) 0)
     = Some (Some [x02]).
Proof. vm_compute. repeat split; reflexivity. Qed.

(** With a codec that puts a header in front of the data, as gzip does, the
    first [L] bytes of the compressed form are not the whole of it: what is
    read back is cut short (here under the sample codec). *)
Lemma header_codec_cut_short :
  writeThenRead 0 Compression.Gzip [(mkCoord 0 0 0 0, helloWorld)]
    (mkCoord 0 0 0 0)
  = Some (Some (take 9 helloWorld)).
Proof. vm_compute. reflexivity. Qed.

End TileClaims.

(** * Further properties of the engine *)

(** ** Auxiliary facts *)

Section ExtraFacts.
Context {env : Env}.
Import PathFacts FileFacts TrieFacts.

Lemma levelBase_closed z : 0 <= z -> 3 * levelBase z = 4 ^ z - 1.
Proof.
  intros Hz. pattern z. apply natlike_ind; [reflexivity| |exact Hz].
  intros k Hk IH. unfold Z.succ. rewrite levelBase_succ by lia.
  rewrite Z.pow_add_r by lia. lia.
Qed.

(** The two counting loops never end on a negative count. *)
Lemma buildDirSizeLoop_diverges fuel : forall remainder dirSize,
  remainder < 0 -> buildDirSizeLoop fuel remainder dirSize = None.
Proof.
  induction fuel as [|fuel IH]; intros r acc Hr; cbn [buildDirSizeLoop]; cbv zeta;
    destruct (Z.eqb_spec r 0); try lia; [reflexivity|].
  apply IH. lia.
Qed.

Lemma slotIndexLoop_diverges fuel : forall zoom val,
  zoom < 0 -> slotIndexLoop fuel zoom val = None.
Proof.
  induction fuel as [|fuel IH]; intros z v Hz; cbn [slotIndexLoop];
    destruct (Z.eqb_spec z 0); try lia; [reflexivity|].
  cbv zeta. apply IH. lia.
Qed.

Lemma checked_none {A B} (k : A -> M env B) (s : Store env) :
  (checked env None ≫= k) s = Throw OutOfRange s.
Proof. reflexivity. Qed.

Lemma writeUint8_none buf value off :
  ~ 0 <= value <= 255 -> writeUint8 buf value off = None.
Proof.
  intros H. unfold writeUint8.
  destruct ((0 <=? value) && (value <=? 255)) eqn:E; [|reflexivity].
  apply andb_true_iff in E as [E1 E2]. apply Z.leb_le in E1, E2. lia.
Qed.

Lemma writeUint16LE_none buf value off :
  ~ 0 <= value <= 65535 -> writeUint16LE buf value off = None.
Proof.
  intros H. unfold writeUint16LE.
  destruct ((0 <=? value) && (value <=? 65535)) eqn:E; [|reflexivity].
  apply andb_true_iff in E as [E1 E2]. apply Z.leb_le in E1, E2. lia.
Qed.

(** What [setup] leaves behind. *)
Lemma setup_outcome (s : Store env) :
  match setup env s with
  | Ret _ s1 =>
      isSetup s1 = true /\ file s1 = file s /\ offset s1 = offset s
  | Throw _ s1 =>
      isSetup s = false /\ isSetup s1 = true /\ file s1 = file s
      /\ offset s1 = offset s /\ metadata s1 = metadata s
  | Hang => False
  end.
Proof.
  unfold setup. rewrite bind_run. cbn [get].
  destruct (isSetup s) eqn:Es; [cbn; repeat split; reflexivity || assumption|].
  rewrite bind_run. cbn [put]. rewrite bind_run, readAsync_run. sproj.
  set (data := fileRead _ _ _ _).
  destruct (negb _); [cbn; repeat split; reflexivity || assumption|].
  rewrite bind_run. cbn [get]. rewrite bind_run. cbn [put].
  destruct (_ =? 0); [cbn; repeat split; reflexivity || assumption|].
  rewrite bind_run, decompress_run.
  destruct (decompressed _ _ _); [cbn; repeat split; reflexivity || assumption|].
  destruct (parseJSON _ _); cbn; repeat split; reflexivity || assumption.
Qed.

(** A walk that does not create returns without touching the store. *)
Lemma walk_false_pure path : forall M zoom leafNode cursor depth (s : Store env),
  exists c, walkLoop env M zoom false path leafNode cursor depth s = Ret c s.
Proof.
  induction path as [|e rest IH]; intros M zoom leafNode cursor depth s.
  - eexists. reflexivity.
  - destruct rest as [|p0 rest'].
    + eexists. reflexivity.
    + rewrite walkLoop_cons by discriminate.
      destruct (shortcut _ _ _); [eexists; reflexivity|].
      rewrite bind_run, readAsync_run.
      destruct (_ =? 0); [eexists; reflexivity|].
      apply IH.
Qed.

Lemma fileRead_nth f buffer length k :
  Z.of_nat k < Z.min length (fsize f) ->
  nth k (fileRead f buffer length 0) x00 = byteAt f (Z.of_nat k).
Proof.
  intros Hk. unfold fileRead. rewrite Z.sub_0_r.
  set (n := Z.to_nat (Z.max 0 (Z.min length (fsize f)))).
  assert (k < n)%nat by lia.
  rewrite app_nth1 by (rewrite loadBytes_length; assumption).
  rewrite loadBytes_nth by assumption. reflexivity.
Qed.

Lemma magic_bytes b0 b1 :
  byteToZ b0 + 256 * byteToZ b1 = 12883 -> b0 = x53 /\ b1 = x32.
Proof.
  intros H. pose proof (byteToZ_range b0). pose proof (byteToZ_range b1).
  assert (byteToZ b0 = 83) as E0 by lia.
  assert (byteToZ b1 = 50) as E1 by lia.
  rewrite <- (byteOfZ_toZ b0), <- (byteOfZ_toZ b1), E0, E1. split; reflexivity.
Qed.

Lemma setup_bad_magic (s : Store env) :
  isSetup s = false -> 2 <= fsize (file s) ->
  (byteAt (file s) 0, byteAt (file s) 1) <> (x53, x32) ->
  setup env s
  = Throw BadMetadata
      (mkStore (file s) true (offset s) (maxzoom s) (version s)
         (compression s) (metadata s)).
Proof.
  intros Hs Hf Hm. unfold setup.
  rewrite bind_run. cbn [get]. rewrite Hs.
  rewrite bind_run. cbn [put].
  rewrite bind_run, readAsync_run. sproj.
  destruct (Z.eqb_spec
              (readUint16LE (fileRead (file s) (alloc ROOT_SIZE) ROOT_SIZE 0) 0)
              12883) as [E|_]; [|reflexivity].
  exfalso. apply Hm. unfold readUint16LE, getByte in E.
  change (Z.to_nat 0) with 0%nat in E. change (Z.to_nat (0 + 1)) with 1%nat in E.
  rewrite (fileRead_nth _ _ _ 0), (fileRead_nth _ _ _ 1) in E
    by (change ROOT_SIZE with 212972; lia).
  change (Z.of_nat 0) with 0 in E. change (Z.of_nat 1) with 1 in E.
  apply magic_bytes in E as [E0 E1]. rewrite E0, E1. reflexivity.
Qed.

Lemma setup_empty (s : Store env) v mz k :
  isSetup s = false ->
  loadBytes (file s) 0 10 = headerBytes v mz k 0 ->
  10 <= fsize (file s) ->
  0 <= v <= 65535 -> 0 <= mz <= 255 -> 0 <= k <= 255 ->
  setup env s
  = Throw FailedToExtrapolate
      (mkStore (file s) true (offset s) mz v k (metadata s)).
Proof.
  intros Hs Hh Hf Hv Hm Hk. unfold setup.
  rewrite bind_run. cbn [get]. rewrite Hs.
  rewrite bind_run. cbn [put].
  rewrite bind_run, readAsync_run. sproj.
  destruct (fileRead_split (file s) (alloc ROOT_SIZE) ROOT_SIZE 0)
    as [tail Hd]; [lia|change ROOT_SIZE with 212972; lia|].
  change (loadBytes (file s) 10 (Z.to_nat 0) ++ tail) with tail in Hd.
  rewrite Hd, Hh.
  destruct (header_fields v mz k 0 tail)
    as (E0 & E2 & E4 & E5 & E6 & Ed); try lia.
  cbv zeta in E0, E2, E4, E5, E6, Ed.
  rewrite E0. cbn [Z.eqb Pos.eqb negb].
  rewrite E2, E4, E5, E6.
  rewrite bind_run. cbn [get].
  rewrite bind_run. cbn [put]. sproj. reflexivity.
Qed.

(** The shape of a path: slots of full five-level slices, then the slot of
    the residual slice. *)
Lemma path_shape_aux (n : nat) : forall zr xr yr,
  zr < 5 * (Z.of_nat n + 1) -> validRem zr xr yr ->
  exists init e,
    getS2TilePath zr xr yr = Some (init ++ [e])
    /\ Z.of_nat (length init) = zr / 5
    /\ Forall (fun i => 341 <= i < 1365) init
    /\ levelBase (zr mod 5) <= e < levelBase (zr mod 5 + 1) /\ 0 <= e < 341.
Proof.
  induction n as [|n IH]; intros zr xr yr Hn Hv.
  - destruct (path_low zr xr yr Hv ltac:(lia)) as (Hp & He & He').
    destruct Hv as (Hz & _).
    exists [], (yr * 2 ^ zr + xr + levelBase zr).
    rewrite Z.mod_small, Z.div_small by lia.
    split; [exact Hp|]. split; [reflexivity|]. split; [constructor|]. lia.
  - destruct (Z.lt_ge_cases zr 5) as [Hlt|Hge].
    + destruct (path_low zr xr yr Hv Hlt) as (Hp & He & He').
      destruct Hv as (Hz & _).
      exists [], (yr * 2 ^ zr + xr + levelBase zr).
      rewrite Z.mod_small, Z.div_small by lia.
      split; [exact Hp|]. split; [reflexivity|]. split; [constructor|]. lia.
    + destruct (path_step zr xr yr Hv Hge) as (rest & Hp & Hrest & Hv' & He & _).
      destruct (IH (zr - 5) (xr / 32) (yr / 32) ltac:(lia) Hv')
        as (init & e & Hr & Hlen & Hall & Hlast).
      rewrite Hrest in Hr. injection Hr as ->.
      assert (Hm : (zr - 5) mod 5 = zr mod 5)
        by (rewrite <- (Z.mod_add (zr - 5) 1 5) by lia; f_equal; lia).
      assert (Hd : zr / 5 = (zr - 5) / 5 + 1)
        by (rewrite <- (Z.div_add (zr - 5) 1 5) by lia; f_equal; lia).
      exists ((341 + yr mod 32 * 32 + xr mod 32) :: init), e.
      rewrite <- Hm, Hd.
      split; [exact Hp|]. split; [|split; [constructor; assumption|exact Hlast]].
      cbn [length]. rewrite Nat2Z.inj_succ, Hlen. lia.
Qed.

(** With a maximal zoom that is no multiple of five the walk never stops
    early, and where it ends depends on the path alone. *)
Lemma termLoc_no_shortcut path : forall zoom zoom' p,
  termLoc 32 zoom p path = termLoc 32 zoom' p path.
Proof.
  induction path as [|e rest IH]; intros zoom zoom' p; [reflexivity|].
  destruct rest as [|e' rest']; [reflexivity|].
  rewrite !termLoc_cons by discriminate.
  replace (shortcut 32 zoom (e' :: rest')) with false by reflexivity.
  replace (shortcut 32 zoom' (e' :: rest')) with false by reflexivity.
  apply IH.
Qed.

(** [putAll] on a well-formed archive, whatever the coordinates repeat. *)
Lemma putAll_last (ws : list (Coord * bytes)) : forall (s : Store env) D T,
  compression s = Compression.None ->
  FileInv (file s) (maxzoom s) (offset s) D T ->
  Forall (fun w => validCoord (maxzoom s) w.1 /\ byteLength w.2 <= 4294967295) ws ->
  offset s + footprint ws <= maxOffset ->
  exists f' o' D' T',
    putAll env ws s = Ret tt (upd s f' o')
    /\ FileInv f' (maxzoom s) o' D' T'
    /\ forall c,
         match lastWrite ws c with
         | Some data => exists off, T' c = Some (off, byteLength data, data)
         | None => T' c = T c
         end.
Proof.
  induction ws as [|[c data] ws IH]; intros s D T Hk I Hall Hcap.
  - exists (file s), (offset s), D, T. rewrite upd_id.
    split; [reflexivity|]. split; [assumption|]. reflexivity.
  - apply Forall_cons in Hall as [[Hv Hl32] Hall]. cbn [fst snd] in Hv, Hl32.
    cbn [footprint] in Hcap.
    pose proof (footprint_nonneg _ _ Hall) as Hfp.
    destruct (putTile_run T s D c data data)
      as (f1 & o1 & D1 & Hput & I1 & Ho1 & _); try assumption; try lia.
    { rewrite Hk. apply compressed_none. }
    rewrite take_ge in I1 by (unfold byteLength; lia).
    set (T1 := addTile T c (offset s, byteLength data, data)) in *.
    destruct (IH (upd s f1 o1) D1 T1)
      as (f' & o' & D' & T' & Hrun & I' & Hlast); try assumption.
    { sproj. lia. }
    exists f', o', D', T'. split; [|split; [exact I'|]].
    + cbn [putAll]. rewrite bind_run, Hput. exact Hrun.
    + intros c'. specialize (Hlast c'). cbn [lastWrite].
      destruct (lastWrite ws c') as [later|]; [exact Hlast|].
      rewrite Hlast. subst T1. unfold addTile.
      destruct (decide _); [eauto|reflexivity].
Qed.

(** A new archive after a list of writes and the commit, opened again. *)
Lemma archive_written M (ws : list (Coord * bytes)) (md : Metadata env) :
  0 <= M <= 255 ->
  Forall (fun w => validCoord M w.1 /\ byteLength w.2 <= 4294967295) ws ->
  ROOT_SIZE + footprint ws <= maxOffset ->
  0 < byteLength (encodeJSON env md) <= 131062 ->
  is_Some (parseJSON env (encodeJSON env md)) ->
  exists w D T top,
    (putAll env ws;; commit env md None)
      (constructor env None (Some M) (Some Compression.None)) = Ret tt w
    /\ FileInv (file w) M top D T
    /\ (forall c,
          match lastWrite ws c with
          | Some data => exists off, T c = Some (off, byteLength data, data)
          | None => T c = None
          end)
    /\ forall mz cp, exists r,
         setup env (constructor env (Some (file w)) mz cp) = Ret tt r
         /\ isSetup r = true /\ file r = file w /\ maxzoom r = M
         /\ compression r = Compression.None.
Proof.
  intros HM Hall Hcap Hmd [md' Hparse].
  set (s0 := constructor env None (Some M) (Some Compression.None)).
  set (blob := encodeJSON env md) in *.
  destruct (putAll_last ws s0 rootDirs noTiles)
    as (f1 & o1 & D1 & T1 & Hrun & I1 & Hlast); try assumption;
    try reflexivity.
  { apply inv_new. }
  cbn [maxzoom s0 constructor from_option id] in I1.
  pose proof (inv_top _ _ _ _ _ I1) as Htop.
  set (hdr := headerBytes 1 M Compression.None (byteLength blob)).
  set (fw := writeAt (writeAt f1 0 hdr) 10 blob).
  assert (Hcommit : commit env md None (upd s0 f1 o1) = Ret tt (upd s0 fw o1)).
  { rewrite commit_run by (repeat split; cbn; unfold Compression.None; lia).
    sproj. fold blob. subst s0. cbn [compression constructor from_option id].
    rewrite compressed_none.
    destruct (Z.ltb_spec (METADATA_SIZE - 10) (byteLength blob)) as [Hbig|_];
      [unfold METADATA_SIZE in Hbig; lia|].
    reflexivity. }
  destruct (committed_file f1 hdr blob eq_refl) as (Hh & Hb & _ & Hfs).
  fold fw in Hh, Hb, Hfs.
  assert (Iw : FileInv fw M o1 D1 T1).
  { assert (byteLength hdr = 10) by reflexivity.
    pose proof (fsize_writeAt f1 0 hdr) as [? _].
    pose proof (fsize_writeAt (writeAt f1 0 hdr) 10 blob) as [? _].
    apply (inv_free_write (writeAt f1 0 hdr) M o1 D1 T1 10 blob o1);
      [|right; unfold METADATA_SIZE; lia|lia].
    apply (inv_free_write f1 M o1 D1 T1 0 hdr o1);
      [assumption|right; unfold METADATA_SIZE; lia|lia]. }
  exists (upd s0 fw o1), D1, T1, o1. split.
  { rewrite bind_run, Hrun. exact Hcommit. }
  sproj. split; [exact Iw|]. split; [exact Hlast|].
  intros mz cp.
  set (r0 := constructor env (Some fw) mz cp).
  exists (mkStore fw true ROOT_SIZE M 1 Compression.None (Some md')).
  split; [|repeat split].
  rewrite (setup_run r0 1 M Compression.None blob);
    [|reflexivity|exact Hh|exact Hb|change (METADATA_SIZE - 10) with 131062; lia
     |exact Hfs|lia|lia|unfold Compression.None; lia].
  cbv zeta. change (decompressed env blob Compression.None) with (@inr Error _ blob).
  cbv beta iota. rewrite Hparse. reflexivity.
Qed.

End ExtraFacts.

(** ** The node record and the directory size *)

Section ExtraCodec.
Import PathFacts FileFacts TrieFacts.

(** X1.  The ten bytes that [#writeNode] builds with [_writeUInt48LE] and
    [writeUint32LE] exist exactly when the offset lies in
    [0 .. (2^32 - 1) * 65536] and the length in [0 .. 2^32 - 1]; they are
    then decoded by [_readUInt48LE] and [readUInt32LE(6)] to the same
    offset and length.  Outside these ranges a write raises. *)
Theorem node_record_roundtrip off len :
  match _writeUInt48LE (alloc NODE_SIZE) off
          ≫= (fun b => writeUint32LE b len 6) with
  | Some b =>
      0 <= off <= maxOffset /\ 0 <= len <= 4294967295
      /\ length b = 10%nat
      /\ _readUInt48LE b = off /\ readUint32LE b 6 = len
  | None => ~ (0 <= off <= maxOffset /\ 0 <= len <= 4294967295)
  end.
Proof.
  destruct (decide (0 <= off <= maxOffset /\ 0 <= len <= 4294967295)) as [[Ho Hl]|Hn].
  - rewrite (encode_node off len Ho Hl).
    destruct (decode_node off len Ho Hl) as [-> ->].
    repeat split; lia.
  - unfold _writeUInt48LE, writeUint32LE, writeUint16LE. cbv zeta.
    rewrite and_65535.
    change (JS.shl 1 16) with 65536.
    pose proof (Z.mod_pos_bound off 65536 ltac:(lia)) as Hm.
    replace ((0 <=? off mod 65536) && (off mod 65536 <=? 65535)) with true
      by (symmetry; apply andb_true_iff; split; apply Z.leb_le; lia).
    cbn [mbind option_bind].
    destruct ((0 <=? off) && (off <=? 4294967295 * 65536)) eqn:E1.
    + apply andb_true_iff in E1 as [E1 E2].
      apply Z.leb_le in E1, E2.
      assert (0 <= off / 65536 <= 4294967295).
      { split; [apply Z.div_pos; lia|].
        apply Z.div_le_upper_bound; lia. }
      replace ((0 <=? off / 65536) && (off / 65536 <=? 4294967295)) with true
        by (symmetry; apply andb_true_iff; split; apply Z.leb_le; lia).
      cbn [option_bind].
      destruct ((0 <=? len) && (len <=? 4294967295)) eqn:E3.
      * apply andb_true_iff in E3 as [E3 E4]. apply Z.leb_le in E3, E4.
        exfalso. apply Hn. unfold maxOffset. lia.
      * exact Hn.
    + exact Hn.
Qed.

(** X2.  For a depth that does not exceed the maximal zoom,
    [_buildDirSize(depth, maxzoom)] returns [10 * (4^(r+1) - 1) / 3] with
    [r = min(maxzoom - depth, 5)]: ten bytes for each slot of the levels
    [0 .. r].  The size lies between 10 and [DIR_SIZE], and it is [DIR_SIZE]
    as soon as five more levels are left. *)
Theorem buildDirSize_closed_form depth maxzoom :
  depth <= maxzoom ->
  let r := Z.min (maxzoom - depth) 5 in
  _buildDirSize depth maxzoom = Some (10 * ((4 ^ (r + 1) - 1) / 3))
  /\ 10 <= 10 * ((4 ^ (r + 1) - 1) / 3) <= DIR_SIZE
  /\ (depth + 5 <= maxzoom -> _buildDirSize depth maxzoom = Some DIR_SIZE).
Proof.
  intros H r.
  assert (Hc : dirBytes maxzoom depth = 10 * ((4 ^ (r + 1) - 1) / 3)).
  { unfold dirBytes, NODE_SIZE. fold r.
    pose proof (levelBase_closed (r + 1) ltac:(lia)) as E.
    replace (4 ^ (r + 1) - 1) with (levelBase (r + 1) * 3) by lia.
    rewrite Z.div_mul by lia. lia. }
  rewrite buildDirSize_spec by assumption.
  rewrite <- Hc. split; [reflexivity|]. split.
  - apply dirBytes_bounds. assumption.
  - intros H5. f_equal. unfold dirBytes.
    replace (Z.min (maxzoom - depth) 5) with 5 by lia. reflexivity.
Qed.

Lemma buildDirSize_closed_form_witness :
  let r := Z.min (9 - 5) 5 in
  _buildDirSize 5 9 = Some (10 * ((4 ^ (r + 1) - 1) / 3))
  /\ 10 <= 10 * ((4 ^ (r + 1) - 1) / 3) <= DIR_SIZE
  /\ (5 + 5 <= 9 -> _buildDirSize 5 9 = Some DIR_SIZE).
Proof. apply (buildDirSize_closed_form 5 9). lia. Defined.

(** X3.  [#createLeafDir], where the new directory lies within the range
    of the offsets and the slot of the parent lies below the append cursor:
    it returns the cursor it found, moves the cursor by the size that
    [_buildDirSize] gives, leaves in the slot of the parent the record
    (directory offset, directory size), and every slot of the new
    directory reads as (0, 0).  No other byte below the old cursor
    changes. *)
Theorem createLeafDir_fresh_directory env cursor depth (s : Store env) :
  depth <= maxzoom s -> 0 <= offset s <= maxOffset ->
  cursor + 10 <= offset s ->
  exists size s',
    _buildDirSize depth (maxzoom s) = Some size
    /\ createLeafDir env cursor depth s = Ret (offset s) s'
    /\ offset s' = offset s + size
    /\ nodeAt (file s') cursor = (offset s, size)
    /\ (forall i, 0 <= i -> (i + 1) * NODE_SIZE <= size ->
          nodeAt (file s') (offset s + i * NODE_SIZE) = (0, 0))
    /\ (forall j, j < offset s -> ~ cursor <= j < cursor + 10 ->
          byteAt (file s') j = byteAt (file s) j).
Proof.
  intros Hd Ho Hc.
  pose proof (dirBytes_bounds (maxzoom s) depth Hd) as Hb.
  unfold DIR_SIZE, NODE_SIZE in Hb.
  set (size := dirBytes (maxzoom s) depth) in *.
  assert (Hlen : byteLength (alloc size) = size).
  { unfold byteLength, alloc. rewrite length_replicate. lia. }
  exists size, (upd s (writeAt (writeAt (file s) (offset s) (alloc size))
                         cursor (nodeBytes (offset s) size))
                  (offset s + size)).
  split; [apply buildDirSize_spec; assumption|].
  split; [apply createLeafDir_run; assumption|].
  sproj. split; [reflexivity|]. split; [|split].
  - apply nodeAt_writeAt; lia.
  - intros i Hi Hfit. unfold NODE_SIZE in *. apply nodeAt_zero. intros j Hj.
    rewrite byteAt_writeAt_out by (change (byteLength (nodeBytes _ _)) with 10; lia).
    rewrite byteAt_writeAt_in by lia.
    apply nth_replicate_zero.
  - intros j Hj Hout.
    rewrite byteAt_writeAt_out by (change (byteLength (nodeBytes _ _)) with 10; lia).
    rewrite byteAt_writeAt_out by lia. reflexivity.
Qed.

Lemma createLeafDir_fresh_directory_witness :
  let s := constructor sampleEnv None (Some 9) (Some Compression.None) in
  exists size s',
    _buildDirSize 5 (maxzoom s) = Some size
    /\ createLeafDir sampleEnv 134482 5 s = Ret (offset s) s'
    /\ offset s' = offset s + size
    /\ nodeAt (file s') 134482 = (offset s, size)
    /\ (forall i, 0 <= i -> (i + 1) * NODE_SIZE <= size ->
          nodeAt (file s') (offset s + i * NODE_SIZE) = (0, 0))
    /\ (forall j, j < offset s -> ~ 134482 <= j < 134482 + 10 ->
          byteAt (file s') j = byteAt (file s) j).
Proof.
  apply (createLeafDir_fresh_directory sampleEnv 134482 5
           (constructor sampleEnv None (Some 9) (Some Compression.None))).
  - simpl. lia.
  - vm_compute. intuition discriminate.
  - vm_compute. discriminate.
Defined.

End ExtraCodec.

(** ** The path encoder *)

Section ExtraPath.
Import PathFacts FileFacts TrieFacts.

(** X4.  For a zoom in [0 .. 31] and [x], [y] below [2^zoom], the path has
    [⌊zoom / 5⌋] elements in [341 .. 1364] (slots of the sixth level of a
    directory, where the pointers to leaf directories are) followed by one
    element below 341, which lies in the level [zoom mod 5] of the last
    directory. *)
Theorem path_slots_in_range zoom x y :
  0 <= zoom <= 31 -> 0 <= x < 2 ^ zoom -> 0 <= y < 2 ^ zoom ->
  exists init e,
    getS2TilePath zoom x y = Some (init ++ [e])
    /\ Z.of_nat (length init) = zoom / 5
    /\ Forall (fun i => 341 <= i < 1365) init
    /\ levelBase (zoom mod 5) <= e < levelBase (zoom mod 5 + 1)
    /\ 0 <= e < 341.
Proof.
  intros Hz Hx Hy.
  apply (path_shape_aux (Z.to_nat zoom)); [lia|].
  repeat split; lia.
Qed.

Lemma path_slots_in_range_witness :
  exists init e,
    getS2TilePath 9 22 9 = Some (init ++ [e])
    /\ Z.of_nat (length init) = 9 / 5
    /\ Forall (fun i => 341 <= i < 1365) init
    /\ levelBase (9 mod 5) <= e < levelBase (9 mod 5 + 1)
    /\ 0 <= e < 341.
Proof. apply (path_slots_in_range 9 22 9); lia. Defined.

(** X5.  [getS2TilePath] is injective on the coordinates of zoom
    [0 .. 31]: two different triples [(zoom, x, y)] with [x], [y] below
    [2^zoom] never have the same path. *)
Theorem getS2TilePath_injective zoom x y zoom' x' y' :
  0 <= zoom <= 31 -> 0 <= x < 2 ^ zoom -> 0 <= y < 2 ^ zoom ->
  0 <= zoom' <= 31 -> 0 <= x' < 2 ^ zoom' -> 0 <= y' < 2 ^ zoom' ->
  (zoom, x, y) <> (zoom', x', y') ->
  getS2TilePath zoom x y <> getS2TilePath zoom' x' y'.
Proof.
  intros Hz Hx Hy Hz' Hx' Hy' Hne Heq. apply Hne.
  destruct (getS2TilePath_total zoom x y ltac:(lia)) as (path & Hp & _).
  assert (Hp' : getS2TilePath zoom' x' y' = Some path) by congruence.
  destruct (termLoc_inj_root 32 (mkCoord 0 zoom x y) (mkCoord 0 zoom' x' y')
              path path) as (E1 & E2 & E3); try assumption.
  - repeat split; cbn; lia.
  - repeat split; cbn; lia.
  - apply termLoc_no_shortcut.
  - cbn in E1, E2, E3. congruence.
Qed.

Lemma getS2TilePath_injective_witness :
  getS2TilePath 9 22 9 <> getS2TilePath 10 44 18.
Proof.
  apply (getS2TilePath_injective 9 22 9 10 44 18); try lia.
  discriminate.
Defined.

(** X6.  A negative zoom never gets an answer: the counting loop of the
    path encoder, [while (zoom-- !== 0)], does not end however long it
    runs, so [getS2TilePath] and [#walk] do not return, and neither do
    [hasTileS2] and [getTileS2] on a store that is set up. *)
Theorem negative_zoom_hangs env face zoom x y create (s : Store env) :
  zoom < 0 ->
  (forall fuel val, slotIndexLoop fuel zoom val = None)
  /\ getS2TilePath zoom x y = None
  /\ walk env face zoom x y create s = Hang
  /\ (isSetup s = true ->
      hasTileS2 env face zoom x y s = Hang
      /\ getTileS2 env face zoom x y s = Hang).
Proof.
  intros Hz.
  assert (Hp : getS2TilePath zoom x y = None).
  { unfold getS2TilePath. rewrite tileSlices_low by lia.
    cbn [mbind option_bind]. rewrite mapM_cons_opt.
    unfold slotIndex. rewrite slotIndexLoop_diverges by assumption.
    reflexivity. }
  assert (Hw : forall c (r : Store env), walk env face zoom x y c r = Hang).
  { intros c r. unfold walk. rewrite bind_run. cbn [get]. rewrite Hp.
    reflexivity. }
  split; [intros; apply slotIndexLoop_diverges; assumption|].
  split; [exact Hp|]. split; [apply Hw|].
  intros Hs. split.
  - unfold hasTileS2. rewrite bind_run, (setup_done s Hs).
    rewrite bind_run, Hw. reflexivity.
  - unfold getTileS2. rewrite bind_run, (setup_done s Hs).
    rewrite bind_run. cbn [get]. rewrite bind_run, Hw. reflexivity.
Qed.

Lemma negative_zoom_hangs_witness :
  let s := constructor sampleEnv None (Some 9) (Some Compression.None) in
  (forall fuel val, slotIndexLoop fuel (-1) val = None)
  /\ getS2TilePath (-1) 0 0 = None
  /\ walk sampleEnv 0 (-1) 0 0 true s = Hang
  /\ (isSetup s = true ->
      hasTileS2 sampleEnv 0 (-1) 0 0 s = Hang
      /\ getTileS2 sampleEnv 0 (-1) 0 0 s = Hang).
Proof.
  apply (negative_zoom_hangs sampleEnv 0 (-1) 0 0 true
           (constructor sampleEnv None (Some 9) (Some Compression.None))).
  lia.
Defined.

End ExtraPath.

(** ** Opening an archive *)

Section ExtraSetup.
Import PathFacts FileFacts TrieFacts.

(** X7.  [setup] marks the store as set up before it validates the header.
    When it raises, the store it leaves is marked, with the file and the
    metadata as they were; a later [setup] returns at once without reading
    the file again, and [getMetadata], on a store that holds no metadata,
    then answers [undefined]. *)
Theorem setup_failure_latches env (s : Store env) e s' :
  setup env s = Throw e s' ->
  isSetup s' = true /\ file s' = file s /\ metadata s' = metadata s
  /\ setup env s' = Ret tt s'
  /\ (metadata s = None -> getMetadata env s' = Ret None s').
Proof.
  intros H. pose proof (setup_outcome s) as Ho. rewrite H in Ho.
  destruct Ho as (_ & Hs & Hf & _ & Hm).
  split; [exact Hs|]. split; [exact Hf|]. split; [exact Hm|].
  split; [apply setup_done; exact Hs|].
  intros Hn. unfold getMetadata. rewrite bind_run. cbn [get].
  rewrite Hm, Hn. rewrite bind_run, (setup_done s' Hs).
  rewrite bind_run. cbn [get]. rewrite Hm, Hn. reflexivity.
Qed.

Lemma setup_failure_latches_witness :
  let s := constructor sampleEnv None None None in
  let s' := mkStore (zeroFile ROOT_SIZE) true ROOT_SIZE 0 1 Compression.Gzip None in
  isSetup s' = true /\ file s' = file s /\ metadata s' = metadata s
  /\ setup sampleEnv s' = Ret tt s'
  /\ (metadata s = None -> getMetadata sampleEnv s' = Ret None s').
Proof.
  apply (setup_failure_latches sampleEnv (constructor sampleEnv None None None)
           BadMetadata
           (mkStore (zeroFile ROOT_SIZE) true ROOT_SIZE 0 1 Compression.Gzip None)).
  vm_compute. reflexivity.
Defined.

(** X8.  A file of at least two bytes that does not start with the bytes
    'S' and '2' (a new archive before its commit, for one) is refused by
    every reader: [hasTileS2], [getTileS2] and [getMetadata] raise "Bad
    metadata", and leave the store marked as set up. *)
Theorem readers_reject_bad_magic env face zoom x y (s : Store env) :
  isSetup s = false -> metadata s = None -> 2 <= fsize (file s) ->
  (byteAt (file s) 0, byteAt (file s) 1) <> (x53, x32) ->
  let s1 := mkStore (file s) true (offset s) (maxzoom s) (version s)
              (compression s) None in
  hasTileS2 env face zoom x y s = Throw BadMetadata s1
  /\ getTileS2 env face zoom x y s = Throw BadMetadata s1
  /\ getMetadata env s = Throw BadMetadata s1.
Proof.
  intros Hs Hmd Hf Hm s1.
  pose proof (setup_bad_magic s Hs Hf Hm) as E. rewrite Hmd in E. fold s1 in E.
  split; [|split].
  - unfold hasTileS2. rewrite bind_run, E. reflexivity.
  - unfold getTileS2. rewrite bind_run, E. reflexivity.
  - unfold getMetadata. rewrite bind_run. cbn [get]. rewrite Hmd.
    rewrite bind_run, E. reflexivity.
Qed.

Lemma readers_reject_bad_magic_witness :
  let s := constructor sampleEnv None (Some 9) (Some Compression.None) in
  let s1 := mkStore (file s) true (offset s) (maxzoom s) (version s)
              (compression s) None in
  hasTileS2 sampleEnv 0 0 0 0 s = Throw BadMetadata s1
  /\ getTileS2 sampleEnv 0 0 0 0 s = Throw BadMetadata s1
  /\ getMetadata sampleEnv s = Throw BadMetadata s1.
Proof.
  apply (readers_reject_bad_magic sampleEnv 0 0 0 0
           (constructor sampleEnv None (Some 9) (Some Compression.None))).
  - reflexivity.
  - reflexivity.
  - vm_compute. discriminate.
  - vm_compute. discriminate.
Defined.

(** X9.  Metadata round trip.  On a store whose fields fit the header and
    whose compression kind the codec inverts on the encoded metadata,
    [commit(metadata)] followed by [getMetadata] on a store opened on the
    file returns the metadata, whatever the file held before; the store
    that read it has taken the version, the maximal zoom and the
    compression kind of the writer from the header. *)
Theorem metadata_roundtrip env (md : Metadata env) blob (s : Store env) :
  headerFits s None ->
  compressed env (encodeJSON env md) (compression s) = Some blob ->
  0 < byteLength blob <= 131062 ->
  decompressed env blob (compression s) = inr (encodeJSON env md) ->
  parseJSON env (encodeJSON env md) = Some md ->
  exists s',
    commit env md None s = Ret tt s'
    /\ forall mz cp, exists r,
         getMetadata env (constructor env (Some (file s')) mz cp)
         = Ret (Some md) r
         /\ maxzoom r = maxzoom s /\ compression r = compression s
         /\ version r = version s.
Proof.
  intros Hfit Hc Hlen Hd Hp.
  pose proof Hfit as (Hv & Hz & Hk). cbn [default] in Hk.
  rewrite commit_run by assumption. rewrite Hc.
  destruct (Z.ltb_spec (METADATA_SIZE - 10) (byteLength blob)) as [Hbig|_];
    [unfold METADATA_SIZE in Hbig; lia|].
  cbn [default].
  set (hdr := headerBytes (version s) (maxzoom s) (compression s) (byteLength blob)).
  set (fw := writeAt (writeAt (file s) 0 hdr) 10 blob).
  destruct (committed_file (file s) hdr blob eq_refl) as (Hh & Hb & _ & Hfs).
  fold fw in Hh, Hb, Hfs.
  eexists. split; [reflexivity|]. sproj.
  intros mz cp.
  set (r0 := constructor env (Some fw) mz cp).
  unfold getMetadata. rewrite bind_run. cbn [get].
  change (metadata r0) with (@None (Metadata env)). cbv beta iota.
  rewrite bind_run.
  rewrite (setup_run r0 (version s) (maxzoom s) (compression s) blob);
    [|reflexivity|exact Hh|exact Hb|change (METADATA_SIZE - 10) with 131062; lia
     |exact Hfs|exact Hv|exact Hz|exact Hk].
  cbv zeta. rewrite Hd, Hp.
  eexists. split; [reflexivity|]. sproj. auto.
Qed.

Lemma metadata_roundtrip_witness :
  let s := constructor sampleEnv None (Some 9) (Some Compression.Gzip) in
  exists s',
    commit sampleEnv metadataTrue None s = Ret tt s'
    /\ forall mz cp, exists r,
         getMetadata sampleEnv (constructor sampleEnv (Some (file s')) mz cp)
         = Ret (Some metadataTrue) r
         /\ maxzoom r = maxzoom s /\ compression r = compression s
         /\ version r = version s.
Proof.
  apply (metadata_roundtrip sampleEnv metadataTrue (x1f :: x8b :: metadataTrue)
           (constructor sampleEnv None (Some 9) (Some Compression.Gzip))).
  - vm_compute. intuition discriminate.
  - reflexivity.
  - vm_compute. intuition discriminate.
  - reflexivity.
  - reflexivity.
Defined.

(** X10.  Empty metadata.  When the encoded and compressed metadata is
    empty, [commit] goes through and stores the length 0, and the archive
    cannot be opened any more: [setup] and [getMetadata] on a store opened
    on the file raise "Failed to extrapolate metadata". *)
Theorem empty_metadata_unreadable env (md : Metadata env) tileCompression
    (s : Store env) :
  headerFits s tileCompression ->
  compressed env (encodeJSON env md) (compression s) = Some [] ->
  exists s',
    commit env md tileCompression s = Ret tt s'
    /\ forall mz cp, exists r,
         setup env (constructor env (Some (file s')) mz cp)
         = Throw FailedToExtrapolate r
         /\ getMetadata env (constructor env (Some (file s')) mz cp)
            = Throw FailedToExtrapolate r.
Proof.
  intros Hfit Hc. pose proof Hfit as (Hv & Hz & Hk).
  rewrite commit_run by assumption. rewrite Hc.
  change (METADATA_SIZE - 10 <? byteLength []) with false. cbv iota.
  change (byteLength []) with 0.
  set (hdr := headerBytes _ _ _ _).
  change (writeAt (writeAt (file s) 0 hdr) 10 []) with (writeAt (file s) 0 hdr).
  eexists. split; [reflexivity|]. sproj.
  intros mz cp.
  set (r0 := constructor env (Some (writeAt (file s) 0 hdr)) mz cp).
  assert (E : setup env r0
              = Throw FailedToExtrapolate
                  (mkStore (file r0) true (offset r0) (maxzoom s) (version s)
                     (default (compression s) tileCompression) (metadata r0))).
  { apply setup_empty; try assumption; try reflexivity.
    - apply (loadBytes_writeAt (file s) 0 hdr).
    - pose proof (fsize_writeAt (file s) 0 hdr) as [_ H].
      specialize (H ltac:(discriminate)). exact H. }
  eexists. split; [exact E|].
  unfold getMetadata. rewrite bind_run. cbn [get].
  change (metadata r0) with (@None (Metadata env)). cbv iota.
  rewrite bind_run, E. reflexivity.
Qed.

Lemma empty_metadata_unreadable_witness :
  let s := constructor sampleEnv None (Some 9) (Some Compression.None) in
  exists s',
    commit sampleEnv [] None s = Ret tt s'
    /\ forall mz cp, exists r,
         setup sampleEnv (constructor sampleEnv (Some (file s')) mz cp)
         = Throw FailedToExtrapolate r
         /\ getMetadata sampleEnv (constructor sampleEnv (Some (file s')) mz cp)
            = Throw FailedToExtrapolate r.
Proof.
  apply (empty_metadata_unreadable sampleEnv [] None
           (constructor sampleEnv None (Some 9) (Some Compression.None))).
  - vm_compute. intuition discriminate.
  - reflexivity.
Defined.

(** X11.  [commit] on a store whose version, maximal zoom or compression
    kind does not fit its header field (two bytes, one byte, one byte)
    raises the range error of the buffer write, before anything is written
    to the file. *)
Theorem commit_header_out_of_range env (md : Metadata env) tileCompression
    (s : Store env) :
  ~ headerFits s tileCompression ->
  commit env md tileCompression s = Throw OutOfRange s.
Proof.
  intros Hn. unfold commit. rewrite bind_run. cbn [get].
  rewrite (checked_some _ _ _ _ (writeUint8_ok _ 83 0 ltac:(lia))).
  rewrite (checked_some _ _ _ _ (writeUint8_ok _ 50 1 ltac:(lia))).
  destruct (decide (0 <= version s <= 65535)) as [Hv|Hv];
    [|rewrite writeUint16LE_none by assumption; reflexivity].
  rewrite (checked_some _ _ _ _ (writeUint16LE_ok _ _ 2 Hv)).
  destruct (decide (0 <= maxzoom s <= 255)) as [Hz|Hz];
    [|rewrite writeUint8_none by assumption; reflexivity].
  rewrite (checked_some _ _ _ _ (writeUint8_ok _ _ 4 Hz)).
  rewrite writeUint8_none; [reflexivity|].
  intros Hk. apply Hn. unfold headerFits. auto.
Qed.

Lemma commit_header_out_of_range_witness :
  let s := constructor sampleEnv None (Some 300) (Some Compression.None) in
  commit sampleEnv metadataTrue None s = Throw OutOfRange s.
Proof.
  apply (commit_header_out_of_range sampleEnv metadataTrue None
           (constructor sampleEnv None (Some 300) (Some Compression.None))).
  unfold headerFits. simpl. lia.
Defined.

End ExtraSetup.

(** ** Reading and writing tiles *)

Section ExtraTiles.
Import PathFacts FileFacts TrieFacts.

(** X12.  The Web-Mercator operations are the S2 operations on face 0:
    [getTileWM], which runs [setup] once more than [getTileS2], has the
    same outcome as [getTileS2(0, ...)] on every store, and so have
    [hasTileWM] and [writeTileWM] with [hasTileS2(0, ...)] and
    [putTile(0, ...)]. *)
Theorem wm_is_face_zero env zoom x y data (s : Store env) :
  getTileWM env zoom x y s = getTileS2 env 0 zoom x y s
  /\ hasTileWM env zoom x y s = hasTileS2 env 0 zoom x y s
  /\ writeTileWM env zoom x y data s = putTile env 0 zoom x y data s.
Proof.
  split; [|split; reflexivity].
  unfold getTileWM. rewrite bind_run.
  pose proof (setup_outcome s) as Ho.
  destruct (setup env s) as [[] s1|e s1|] eqn:E.
  - destruct Ho as (Hs & _). symmetry. apply getTileS2_setup; assumption.
  - unfold getTileS2. rewrite bind_run, E. reflexivity.
  - destruct Ho.
Qed.

(** X13.  The readers never write: whatever [hasTileS2] and [getTileS2]
    return or raise, on any store and for any arguments, the file and the
    append cursor are the ones they found.  They give no answer only when
    the path encoder gives none. *)
Theorem reads_never_write env face zoom x y (s : Store env) :
  match hasTileS2 env face zoom x y s with
  | Ret _ s' | Throw _ s' => file s' = file s /\ offset s' = offset s
  | Hang => getS2TilePath zoom x y = None
  end
  /\ match getTileS2 env face zoom x y s with
     | Ret _ s' | Throw _ s' => file s' = file s /\ offset s' = offset s
     | Hang => getS2TilePath zoom x y = None
     end.
Proof.
  pose proof (setup_outcome s) as Ho.
  split.
  - unfold hasTileS2. rewrite bind_run.
    destruct (setup env s) as [[] s1|e s1|]; [|tauto|destruct Ho].
    destruct Ho as (_ & Hf & Hoff).
    rewrite bind_run. unfold walk. rewrite bind_run. cbn [get].
    destruct (getS2TilePath zoom x y) as [path|]; [|reflexivity].
    rewrite bind_run. cbn [looped]. unfold mret at 1, M_ret.
    destruct (walk_false_pure path (maxzoom s1) zoom (alloc NODE_SIZE)
                (METADATA_SIZE + face * DIR_SIZE) 0 s1) as [c ->].
    rewrite bind_run, readAsync_run. cbn. auto.
  - unfold getTileS2. rewrite bind_run.
    destruct (setup env s) as [[] s1|e s1|]; [|tauto|destruct Ho].
    destruct Ho as (_ & Hf & Hoff).
    rewrite bind_run. cbn [get].
    rewrite bind_run. unfold walk. rewrite bind_run. cbn [get].
    destruct (getS2TilePath zoom x y) as [path|]; [|reflexivity].
    rewrite bind_run. cbn [looped]. unfold mret at 1, M_ret.
    destruct (walk_false_pure path (maxzoom s1) zoom (alloc NODE_SIZE)
                (METADATA_SIZE + face * DIR_SIZE) 0 s1) as [c ->].
    rewrite bind_run, readAsync_run.
    cbv beta iota zeta.
    rewrite bind_run, readAsync_run.
    rewrite bind_run, decompress_run.
    destruct (decompressed _ _ _); cbn; auto.
Qed.

(** X14.  How [putTile] starts.  With a compression kind that [compress]
    does not support it raises "Compression type not supported"; when the
    compressed payload is shorter than the data it raises the range error
    of [fs.write], which is asked for as many bytes as the data has; in
    both cases the file and the cursor are untouched.  Otherwise the first
    [L] bytes of the compressed payload, [L] being the length of the data,
    are appended and the cursor moves by [L] before the node is put in its
    directory. *)
Theorem putTile_early_failures env face zoom x y data (s : Store env) :
  match compressed env data (compression s) with
  | None =>
      putTile env face zoom x y data s = Throw CompressionNotSupported s
  | Some cdata =>
      if byteLength cdata <? byteLength data
      then putTile env face zoom x y data s = Throw OutOfRange s
      else putTile env face zoom x y data s
           = putNodeInDir env face zoom x y (offset s, byteLength data)
               (upd s (writeAt (file s) (offset s)
                         (take (Z.to_nat (byteLength data)) cdata))
                  (offset s + byteLength data))
  end.
Proof.
  destruct (compressed env data (compression s)) as [cdata|] eqn:E.
  - destruct (Z.ltb_spec (byteLength cdata) (byteLength data)).
    + eapply putTile_refused; eassumption.
    + eapply putTile_append; [eassumption|lia].
  - apply putTile_unsupported. assumption.
Qed.

(** X15.  Writing beyond the maximal zoom.  On a new archive whose maximal
    zoom is below 5 (the default is 0), [putTile] at any zoom of 5 or more,
    once its payload is appended, never returns: the walk finds no leaf
    directory in the root of the face, asks
    [_buildDirSize(5, maxzoom)] for the size of a new one, and the loop of
    [_buildDirSize] starts from a negative count, from which it does not
    end however long it runs. *)
Theorem putTile_beyond_maxzoom_hangs env M kind face zoom x y data cdata :
  M < 5 -> 5 <= zoom -> 0 <= face <= 5 ->
  compressed env data kind = Some cdata ->
  byteLength data <= byteLength cdata ->
  putTile env face zoom x y data (constructor env None (Some M) (Some kind))
  = Hang
  /\ forall fuel dirSize,
       buildDirSizeLoop fuel (Z.min (M - 5) 5) dirSize = None.
Proof.
  intros HM Hz Hface Hc Hlen.
  split; [|intros; apply buildDirSizeLoop_diverges; lia].
  set (s0 := constructor env None (Some M) (Some kind)).
  rewrite (putTile_append s0 face zoom x y data cdata) by assumption.
  set (f1 := writeAt _ _ _). set (s1 := upd s0 f1 _).
  unfold putNodeInDir. rewrite bind_run. unfold walk. rewrite bind_run. cbn [get].
  rewrite getS2TilePath_step by assumption.
  destruct (getS2TilePath_total (zoom - 5) (JS.shr x 5) (JS.shr y 5) ltac:(lia))
    as (rest & -> & Hrest).
  cbn [fmap option_fmap option_map].
  rewrite bind_run. cbn [looped]. unfold mret at 1, M_ret.
  assert (Hne : rest <> []).
  { intros ->. cbn [length] in Hrest.
    pose proof (Z.div_pos (zoom - 5) 5 ltac:(lia) ltac:(lia)). lia. }
  rewrite walkLoop_cons by assumption.
  assert (Hsc : shortcut (maxzoom s1) zoom rest = false).
  { unfold shortcut. change (maxzoom s1) with M.
    destruct (Z.eqb_spec zoom M); [lia|].
    rewrite andb_false_r. reflexivity. }
  rewrite Hsc.
  set (e := 341 + y mod 32 * 32 + x mod 32).
  assert (He : 341 <= e < 1365).
  { pose proof (Z.mod_pos_bound x 32). pose proof (Z.mod_pos_bound y 32).
    unfold e. lia. }
  set (slot := METADATA_SIZE + face * DIR_SIZE + e * NODE_SIZE).
  assert (Hslot : METADATA_SIZE <= slot /\ slot + 10 <= ROOT_SIZE).
  { unfold slot, ROOT_SIZE, ROOT_DIR_SIZE, METADATA_SIZE, DIR_SIZE, NODE_SIZE. lia. }
  assert (Hfs : ROOT_SIZE <= fsize f1).
  { pose proof (fsize_writeAt (file s0) (offset s0)
                  (take (Z.to_nat (byteLength data)) cdata)) as [H _].
    exact H. }
  rewrite bind_run, read_slot;
    [|unfold alloc; rewrite length_replicate; reflexivity
     |change (file s1) with f1; fold e slot; lia].
  change (file s1) with f1. fold e slot.
  assert (Hzero : nodeAt f1 slot = (0, 0)).
  { apply nodeAt_zero. intros j Hj. unfold f1.
    change (offset s0) with ROOT_SIZE.
    rewrite byteAt_writeAt_out by lia.
    apply byteAt_zeroFile. }
  assert (Hz0 : _readUInt48LE (loadBytes f1 slot 10) = 0)
    by (change (fst (nodeAt f1 slot) = 0); rewrite Hzero; reflexivity).
  rewrite Hz0. cbv beta iota. change (0 =? 0) with true. cbv iota.
  rewrite bind_run. unfold createLeafDir. rewrite bind_run. cbn [get].
  rewrite bind_run. unfold _buildDirSize. cbv zeta.
  change (maxzoom s1) with M.
  rewrite buildDirSizeLoop_diverges by lia.
  reflexivity.
Qed.

Lemma putTile_beyond_maxzoom_hangs_witness :
  putTile sampleEnv 0 5 0 0 helloWorld
    (constructor sampleEnv None (Some 0) (Some Compression.None)) = Hang
  /\ forall fuel dirSize,
       buildDirSizeLoop fuel (Z.min (0 - 5) 5) dirSize = None.
Proof.
  apply (putTile_beyond_maxzoom_hangs sampleEnv 0 Compression.None 0 5 0 0
           helloWorld helloWorld).
  - lia.
  - lia.
  - lia.
  - reflexivity.
  - vm_compute. discriminate.
Defined.

(** X16.  A store opened on an existing file starts its append cursor at
    [ROOT_SIZE] again.  Without compression, its first [putTile], here at a
    zoom below 5, stores the payload at [ROOT_SIZE] over whatever the file
    holds there, and the record ([ROOT_SIZE], length) in the slot of the
    coordinate in the root directory of the face; no other byte of the
    file changes. *)
Theorem reopened_store_writes_from_root env (f : File) mz face zoom x y data :
  0 <= face <= 5 -> 0 <= zoom < 5 ->
  0 <= x < 2 ^ zoom -> 0 <= y < 2 ^ zoom ->
  0 < byteLength data <= 4294967295 ->
  let slot := METADATA_SIZE + face * DIR_SIZE
              + (y * 2 ^ zoom + x + levelBase zoom) * NODE_SIZE in
  exists s',
    putTile env face zoom x y data
      (constructor env (Some f) mz (Some Compression.None)) = Ret tt s'
    /\ offset s' = ROOT_SIZE + byteLength data
    /\ loadBytes (file s') ROOT_SIZE (length data) = data
    /\ nodeAt (file s') slot = (ROOT_SIZE, byteLength data)
    /\ forall j, ~ ROOT_SIZE <= j < ROOT_SIZE + byteLength data ->
         ~ slot <= j < slot + 10 ->
         byteAt (file s') j = byteAt f j.
Proof.
  intros Hface Hzoom Hx Hy Hlen slot.
  set (s0 := constructor env (Some f) mz (Some Compression.None)).
  rewrite (putTile_append s0 face zoom x y data data);
    [|apply compressed_none|lia].
  rewrite take_ge by (unfold byteLength; lia).
  change (offset s0) with ROOT_SIZE. change (file s0) with f.
  set (f1 := writeAt f ROOT_SIZE data).
  set (s1 := upd s0 f1 _).
  destruct (path_low zoom x y ltac:(repeat split; lia) ltac:(lia))
    as (Hp & _ & He).
  set (e := y * 2 ^ zoom + x + levelBase zoom) in *.
  assert (Hslot : slot + 10 <= ROOT_SIZE).
  { unfold slot. fold e.
    unfold ROOT_SIZE, ROOT_DIR_SIZE, METADATA_SIZE, DIR_SIZE, NODE_SIZE. lia. }
  unfold putNodeInDir. rewrite bind_run. unfold walk. rewrite bind_run. cbn [get].
  rewrite Hp.
  rewrite bind_run. cbn [looped]. unfold mret at 1, M_ret.
  rewrite walkLoop_single. fold slot.
  rewrite writeNode_run by (unfold maxOffset, ROOT_SIZE, ROOT_DIR_SIZE,
                              METADATA_SIZE, DIR_SIZE, NODE_SIZE; lia).
  eexists. split; [reflexivity|]. sproj. change (file s1) with f1.
  change (offset s1) with (ROOT_SIZE + byteLength data).
  split; [reflexivity|]. split; [|split].
  - rewrite loadBytes_kept
      by (right; change (byteLength (nodeBytes _ _)) with 10; lia).
    apply loadBytes_writeAt.
  - apply nodeAt_writeAt;
      unfold maxOffset, ROOT_SIZE, ROOT_DIR_SIZE, METADATA_SIZE, DIR_SIZE,
        NODE_SIZE; lia.
  - intros j Hj Hs.
    rewrite byteAt_writeAt_out
      by (change (byteLength (nodeBytes _ _)) with 10; exact Hs).
    unfold f1. rewrite byteAt_writeAt_out by exact Hj. reflexivity.
Qed.

Lemma reopened_store_writes_from_root_witness :
  let f := zeroFile 300000 in
  let slot := METADATA_SIZE + 0 * DIR_SIZE
              + (1 * 2 ^ 1 + 0 + levelBase 1) * NODE_SIZE in
  exists s',
    putTile sampleEnv 0 1 0 1 helloWorld
      (constructor sampleEnv (Some f) None (Some Compression.None)) = Ret tt s'
    /\ offset s' = ROOT_SIZE + byteLength helloWorld
    /\ loadBytes (file s') ROOT_SIZE (length helloWorld) = helloWorld
    /\ nodeAt (file s') slot = (ROOT_SIZE, byteLength helloWorld)
    /\ forall j, ~ ROOT_SIZE <= j < ROOT_SIZE + byteLength helloWorld ->
         ~ slot <= j < slot + 10 ->
         byteAt (file s') j = byteAt f j.
Proof.
  apply (reopened_store_writes_from_root sampleEnv (zeroFile 300000) None
           0 1 0 1 helloWorld).
  - lia.
  - lia.
  - simpl. lia.
  - simpl. lia.
  - vm_compute. intuition discriminate.
Defined.

(** X17.  The last write wins.  On a new archive without compression,
    after the writes of any list of tiles (coordinates may repeat) and the
    commit, [getTileS2] on a store opened on the file returns, for every
    coordinate of the list, the bytes of the last entry at that
    coordinate. *)
Theorem last_write_wins env M (ws : list (Coord * bytes)) (md : Metadata env) :
  0 <= M <= 255 ->
  Forall (fun w => validCoord M w.1 /\ byteLength w.2 <= 4294967295) ws ->
  ROOT_SIZE + footprint ws <= maxOffset ->
  0 < byteLength (encodeJSON env md) <= 131062 ->
  is_Some (parseJSON env (encodeJSON env md)) ->
  exists w,
    (putAll env ws;; commit env md None)
      (constructor env None (Some M) (Some Compression.None)) = Ret tt w
    /\ forall c data, lastWrite ws c = Some data ->
       forall mz cp, exists r,
         getTileS2 env (cface c) (czoom c) (cx c) (cy c)
           (constructor env (Some (file w)) mz cp)
         = Ret (Some data) r.
Proof.
  intros HM Hall Hcap Hmd Hparse.
  destruct (archive_written M ws md HM Hall Hcap Hmd Hparse)
    as (w & D & T & top & Hrun & I & Hlast & Hopen).
  exists w. split; [exact Hrun|].
  intros c data Hc mz cp.
  destruct (Hopen mz cp) as (r & Hsetup & Hs & Hf & Hz & Hk).
  specialize (Hlast c). rewrite Hc in Hlast. destruct Hlast as [off Hoff].
  exists r. rewrite (getTileS2_setup _ r) by assumption.
  rewrite (getTileS2_stored r D T top c off (byteLength data) data);
    [|assumption|rewrite Hf, Hz; exact I|exact Hoff].
  rewrite Hk. reflexivity.
Qed.

Lemma last_write_wins_witness :
  let ws := [(mkCoord 0 0 0 0, helloWorld); (mkCoord 0 9 22 9, helloWorld);
             (mkCoord 0 0 0 0, helloWorld2)] in
  exists w,
    (putAll sampleEnv ws;; commit sampleEnv metadataTrue None)
      (constructor sampleEnv None (Some 9) (Some Compression.None)) = Ret tt w
    /\ forall c data, lastWrite ws c = Some data ->
       forall mz cp, exists r,
         getTileS2 sampleEnv (cface c) (czoom c) (cx c) (cy c)
           (constructor sampleEnv (Some (file w)) mz cp)
         = Ret (Some data) r.
Proof.
  apply (last_write_wins sampleEnv 9
           [(mkCoord 0 0 0 0, helloWorld); (mkCoord 0 9 22 9, helloWorld);
            (mkCoord 0 0 0 0, helloWorld2)] metadataTrue).
  - lia.
  - repeat constructor; vm_compute; intuition discriminate.
  - vm_compute. discriminate.
  - vm_compute. intuition discriminate.
  - eexists. reflexivity.
Defined.

(** X18.  Presence after writing.  On the archive of X17, [hasTileS2]
    answers, for every coordinate of the list, whether the last payload
    written there is non-empty: a tile stored with an empty payload is
    reported as absent. *)
Theorem hasTile_after_write env M (ws : list (Coord * bytes))
    (md : Metadata env) :
  0 <= M <= 255 ->
  Forall (fun w => validCoord M w.1 /\ byteLength w.2 <= 4294967295) ws ->
  ROOT_SIZE + footprint ws <= maxOffset ->
  0 < byteLength (encodeJSON env md) <= 131062 ->
  is_Some (parseJSON env (encodeJSON env md)) ->
  exists w,
    (putAll env ws;; commit env md None)
      (constructor env None (Some M) (Some Compression.None)) = Ret tt w
    /\ forall c data, lastWrite ws c = Some data ->
       forall mz cp, exists r,
         hasTileS2 env (cface c) (czoom c) (cx c) (cy c)
           (constructor env (Some (file w)) mz cp)
         = Ret (negb (byteLength data =? 0)) r.
Proof.
  intros HM Hall Hcap Hmd Hparse.
  destruct (archive_written M ws md HM Hall Hcap Hmd Hparse)
    as (w & D & T & top & Hrun & I & Hlast & Hopen).
  exists w. split; [exact Hrun|].
  intros c data Hc mz cp.
  destruct (Hopen mz cp) as (r & Hsetup & Hs & Hf & Hz & Hk).
  specialize (Hlast c). rewrite Hc in Hlast. destruct Hlast as [off Hoff].
  exists r. rewrite (hasTileS2_setup _ r) by assumption.
  rewrite (hasTileS2_stored r D T top c off (byteLength data) data);
    [reflexivity|assumption|rewrite Hf, Hz; exact I|exact Hoff].
Qed.

Lemma hasTile_after_write_witness :
  let ws := [(mkCoord 0 0 0 0, helloWorld); (mkCoord 0 9 22 9, [])] in
  exists w,
    (putAll sampleEnv ws;; commit sampleEnv metadataTrue None)
      (constructor sampleEnv None (Some 9) (Some Compression.None)) = Ret tt w
    /\ forall c data, lastWrite ws c = Some data ->
       forall mz cp, exists r,
         hasTileS2 sampleEnv (cface c) (czoom c) (cx c) (cy c)
           (constructor sampleEnv (Some (file w)) mz cp)
         = Ret (negb (byteLength data =? 0)) r.
Proof.
  apply (hasTile_after_write sampleEnv 9
           [(mkCoord 0 0 0 0, helloWorld); (mkCoord 0 9 22 9, [])]
           metadataTrue).
  - lia.
  - repeat constructor; vm_compute; intuition discriminate.
  - vm_compute. discriminate.
  - vm_compute. intuition discriminate.
  - eexists. reflexivity.
Defined.

End ExtraTiles.

(** ** An archive without tiles *)

Section ExtraEmptyFacts.
Context {env : Env}.
Import PathFacts FileFacts TrieFacts.

Lemma compressed_kind data kind blob :
  compressed env data kind = Some blob -> 1 <= kind <= 3.
Proof.
  unfold compressed, Compression.None, Compression.Gzip, Compression.Brotli.
  destruct (Z.eqb_spec kind 1); [lia|].
  destruct (Z.eqb_spec kind 2); [lia|].
  destruct (Z.eqb_spec kind 3); [lia|discriminate].
Qed.

Lemma readUint32LE_nonneg buf off : 0 <= readUint32LE buf off.
Proof.
  unfold readUint32LE, getByte.
  pose proof (byteToZ_range (nth (Z.to_nat off) buf x00)).
  pose proof (byteToZ_range (nth (Z.to_nat (off + 1)) buf x00)).
  pose proof (byteToZ_range (nth (Z.to_nat (off + 2)) buf x00)).
  pose proof (byteToZ_range (nth (Z.to_nat (off + 3)) buf x00)).
  lia.
Qed.

(** The file of an archive that is committed without any tile. *)
Lemma empty_archive_file hdr blob :
  length hdr = 10%nat -> 0 < byteLength blob <= 131062 ->
  let f := writeAt (writeAt (zeroFile ROOT_SIZE) 0 hdr) 10 blob in
  fsize f = ROOT_SIZE
  /\ loadBytes f 0 10 = hdr
  /\ loadBytes f 10 (length blob) = blob
  /\ forall slot, METADATA_SIZE <= slot -> nodeAt f slot = (0, 0).
Proof.
  intros Hh Hb f.
  destruct (committed_file (zeroFile ROOT_SIZE) hdr blob Hh)
    as (H1 & H2 & Hframe & _).
  fold f in H1, H2, Hframe.
  split; [|split; [exact H1|split; [exact H2|]]].
  - unfold f, writeAt.
    destruct hdr as [|h hdr']; [discriminate|].
    destruct blob as [|b blob']; [change (byteLength []) with 0 in Hb; lia|].
    cbn [fsize zeroFile]. unfold byteLength in *. rewrite Hh.
    change ROOT_SIZE with 212972. lia.
  - intros slot Hs. apply nodeAt_zero. intros j Hj.
    rewrite Hframe by (unfold METADATA_SIZE in Hs; lia).
    apply byteAt_zeroFile.
Qed.

(** The walk of a reader through root directories without any record. *)
Lemma empty_archive_walk (r : Store env) face zoom x y :
  (forall slot, METADATA_SIZE <= slot -> nodeAt (file r) slot = (0, 0)) ->
  ROOT_SIZE <= fsize (file r) -> 0 <= maxzoom r ->
  0 <= face <= 5 -> 0 <= zoom -> 0 <= x < 2 ^ zoom -> 0 <= y < 2 ^ zoom ->
  exists cursor,
    walk env face zoom x y false r = Ret cursor r
    /\ if (5 <=? zoom) && negb ((zoom =? 5) && (maxzoom r =? 5))
       then cursor = 0
       else METADATA_SIZE <= cursor /\ cursor + 10 <= ROOT_SIZE.
Proof.
  intros Hzero Hsize HM Hface Hzoom Hx Hy.
  unfold walk. rewrite bind_run. cbn [get].
  destruct (Z.lt_ge_cases zoom 5) as [Hlow|Hhigh].
  - destruct (path_low zoom x y ltac:(repeat split; lia) Hlow) as (Hpath & _ & He).
    rewrite Hpath.
    rewrite bind_run. cbn [looped]. unfold mret at 1, M_ret.
    rewrite walkLoop_single.
    set (e := y * 2 ^ zoom + x + levelBase zoom) in *.
    eexists. split; [reflexivity|].
    replace (5 <=? zoom) with false by (symmetry; apply Z.leb_gt; lia).
    cbn [andb].
    unfold ROOT_SIZE, ROOT_DIR_SIZE, METADATA_SIZE, DIR_SIZE, NODE_SIZE. lia.
  - replace (5 <=? zoom) with true by (symmetry; apply Z.leb_le; lia).
    cbn [andb].
    rewrite getS2TilePath_step by assumption.
    destruct (getS2TilePath_total (zoom - 5) (JS.shr x 5) (JS.shr y 5) ltac:(lia))
      as (rest & Hpr & Hrest).
    rewrite Hpr.
    cbn [fmap option_fmap option_map].
    rewrite bind_run. cbn [looped]. unfold mret at 1, M_ret.
    assert (Hne : rest <> []).
    { intros ->. cbn [length] in Hrest.
      pose proof (Z.div_pos (zoom - 5) 5 ltac:(lia) ltac:(lia)). lia. }
    rewrite walkLoop_cons by assumption.
    set (e := 341 + y mod 32 * 32 + x mod 32).
    assert (He : 341 <= e < 1365).
    { pose proof (Z.mod_pos_bound x 32). pose proof (Z.mod_pos_bound y 32).
      unfold e. lia. }
    set (slot := METADATA_SIZE + face * DIR_SIZE + e * NODE_SIZE).
    assert (Hslot : METADATA_SIZE <= slot /\ slot + 10 <= ROOT_SIZE).
    { unfold slot, ROOT_SIZE, ROOT_DIR_SIZE, METADATA_SIZE, DIR_SIZE, NODE_SIZE. lia. }
    destruct (decide (zoom = 5 /\ maxzoom r = 5)) as [[Ez EM]|Hno].
    + assert (Hsc : shortcut (maxzoom r) zoom rest = true).
      { rewrite EM. subst zoom. change (5 - 5) with 0 in Hpr.
        rewrite !shr_5 in Hpr by (change (2 ^ 5) with 32 in Hx, Hy; lia).
        rewrite !Z.div_small in Hpr by (change (2 ^ 5) with 32 in Hx, Hy; lia).
        rewrite getS2TilePath_low in Hpr by lia.
        injection Hpr as <-. reflexivity. }
      rewrite Hsc. eexists. split; [reflexivity|].
      rewrite Ez, EM. cbn. fold e slot. exact Hslot.
    + assert (Hsc : shortcut (maxzoom r) zoom rest = false).
      { unfold shortcut.
        destruct (Z.eqb_spec (JS.rem (maxzoom r) 5) 0) as [Er|]; [|reflexivity].
        destruct (Z.eqb_spec (Z.of_nat (length rest)) 1) as [El|]; [|reflexivity].
        destruct (Z.eqb_spec zoom (maxzoom r)) as [Em|]; [|reflexivity].
        exfalso. apply Hno. unfold JS.rem in Er.
        rewrite Z.rem_mod_nonneg in Er by lia.
        pose proof (Z.div_mod (maxzoom r) 5 ltac:(lia)).
        pose proof (Z.div_mod (zoom - 5) 5 ltac:(lia)).
        pose proof (Z.mod_pos_bound (zoom - 5) 5 ltac:(lia)).
        lia. }
      rewrite Hsc. fold e slot.
      rewrite bind_run, read_slot;
        [|unfold alloc; rewrite length_replicate; reflexivity|lia].
      assert (Hn1 : _readUInt48LE (loadBytes (file r) slot 10) = 0)
        by (change (fst (nodeAt (file r) slot) = 0); rewrite Hzero by lia;
            reflexivity).
      rewrite Hn1. cbv beta iota. change (0 =? 0) with true. cbv iota.
      eexists. split; [reflexivity|].
      destruct (Z.eqb_spec zoom 5) as [E5|_]; [|reflexivity].
      destruct (Z.eqb_spec (maxzoom r) 5) as [EM|_]; [tauto|reflexivity].
Qed.

End ExtraEmptyFacts.

Section ExtraEmpty.
Import PathFacts FileFacts TrieFacts.

(** X19.  Presence on an archive without tiles.  On an archive that is
    committed with no tile written and opened again, [hasTileS2] answers
    [false] for every coordinate of a zoom below 5, whose slot lies in the
    root directory, and [true] for every coordinate of zoom 5 or more: the
    walk finds no leaf directory and returns 0, so that the record is read
    from the header, whose first bytes and metadata length are not zero.
    The one exception is zoom 5 with a maximal zoom of 5, whose slot also
    lies in the root directory. *)
Theorem empty_archive_presence env M kind (md : Metadata env) blob
    face zoom x y :
  0 <= M <= 255 ->
  compressed env (encodeJSON env md) kind = Some blob ->
  0 < byteLength blob <= 131062 ->
  decompressed env blob kind = inr (encodeJSON env md) ->
  parseJSON env (encodeJSON env md) = Some md ->
  0 <= face <= 5 -> 0 <= zoom ->
  0 <= x < 2 ^ zoom -> 0 <= y < 2 ^ zoom ->
  exists w,
    commit env md None (constructor env None (Some M) (Some kind)) = Ret tt w
    /\ forall mz cp, exists r,
         hasTileS2 env face zoom x y (constructor env (Some (file w)) mz cp)
         = Ret ((5 <=? zoom) && negb ((zoom =? 5) && (M =? 5))) r.
Proof.
  intros HM Hc Hlen Hd Hp Hface Hzoom Hx Hy.
  pose proof (compressed_kind _ _ _ Hc) as Hk.
  set (s0 := constructor env None (Some M) (Some kind)).
  assert (Hfit : headerFits s0 None) by (repeat split; cbn; lia).
  rewrite commit_run by assumption.
  change (compression s0) with kind. rewrite Hc.
  destruct (Z.ltb_spec (METADATA_SIZE - 10) (byteLength blob)) as [Hbig|_];
    [unfold METADATA_SIZE in Hbig; lia|].
  change (version s0) with 1. change (maxzoom s0) with M.
  change (file s0) with (zeroFile ROOT_SIZE). cbn [default].
  set (hdr := headerBytes 1 M kind (byteLength blob)).
  set (fw := writeAt (writeAt (zeroFile ROOT_SIZE) 0 hdr) 10 blob).
  destruct (empty_archive_file hdr blob eq_refl Hlen) as (Hfs & Hh & Hb & Hzero).
  fold fw in Hfs, Hh, Hb, Hzero.
  eexists. split; [reflexivity|]. sproj.
  intros mz cp.
  set (r0 := constructor env (Some fw) mz cp).
  set (r1 := mkStore fw true ROOT_SIZE M 1 kind (Some md)).
  assert (Hsetup : setup env r0 = Ret tt r1).
  { rewrite (setup_run r0 1 M kind blob);
      [|reflexivity|exact Hh|exact Hb|change (METADATA_SIZE - 10) with 131062; lia
       |change (file r0) with fw; change ROOT_SIZE with 212972 in Hfs; lia
       |lia|lia|lia].
    cbv zeta. rewrite Hd, Hp. reflexivity. }
  exists r1. rewrite (hasTileS2_setup r0 r1) by (assumption || reflexivity).
  unfold hasTileS2. rewrite bind_run, (setup_done r1 eq_refl).
  destruct (empty_archive_walk r1 face zoom x y) as (cursor & Hw & Hcur);
    try assumption; [change (file r1) with fw; lia|change (maxzoom r1) with M; lia|].
  change (maxzoom r1) with M in Hcur.
  rewrite bind_run, Hw.
  destruct ((5 <=? zoom) && negb ((zoom =? 5) && (M =? 5))).
  - subst cursor.
    rewrite bind_run, read_slot;
      [|unfold alloc; rewrite length_replicate; reflexivity
       |change (file r1) with fw; change ROOT_SIZE with 212972 in Hfs; lia].
    change (file r1) with fw. rewrite Hh.
    destruct (header_fields 1 M kind (byteLength blob) [])
      as (E0 & _ & _ & _ & E6 & _); try lia.
    cbv zeta in E0, E6. rewrite app_nil_r in E0, E6. fold hdr in E0, E6.
    cbv beta iota zeta. rewrite E6.
    unfold _readUInt48LE. rewrite E0.
    pose proof (readUint32LE_nonneg hdr 2) as Hnn.
    change (JS.shl 1 16) with 65536.
    destruct (Z.eqb_spec (readUint32LE hdr 2 * 65536 + 12883) 0) as [E|_]; [lia|].
    destruct (Z.eqb_spec (byteLength blob) 0) as [E|_]; [lia|].
    reflexivity.
  - rewrite bind_run, read_slot;
      [|unfold alloc; rewrite length_replicate; reflexivity
       |change (file r1) with fw; lia].
    change (file r1) with fw.
    assert (Hn1 : _readUInt48LE (loadBytes fw cursor 10) = 0)
      by (change (fst (nodeAt fw cursor) = 0); rewrite Hzero by lia; reflexivity).
    assert (Hn2 : readUint32LE (loadBytes fw cursor 10) 6 = 0)
      by (change (snd (nodeAt fw cursor) = 0); rewrite Hzero by lia; reflexivity).
    cbv beta iota zeta. rewrite Hn1, Hn2. reflexivity.
Qed.

Lemma empty_archive_presence_witness :
  exists w,
    commit sampleEnv metadataTrue None
      (constructor sampleEnv None (Some 9) (Some Compression.None)) = Ret tt w
    /\ forall mz cp, exists r,
         hasTileS2 sampleEnv 3 7 100 5
           (constructor sampleEnv (Some (file w)) mz cp)
         = Ret ((5 <=? 7) && negb ((7 =? 5) && (9 =? 5))) r.
Proof.
  apply (empty_archive_presence sampleEnv 9 Compression.None metadataTrue
           metadataTrue 3 7 100 5).
  - lia.
  - reflexivity.
  - vm_compute. intuition discriminate.
  - reflexivity.
  - reflexivity.
  - lia.
  - lia.
  - simpl. lia.
  - simpl. lia.
Defined.

(** X20.  Reading on an archive without tiles.  Without compression,
    [getTileS2] on such an archive never answers [undefined]: it returns an
    empty payload where the slot lies in the root directory, and else as
    many zero bytes as the metadata has, read past the end of the file at
    the offset that the first bytes of the header decode to. *)
Theorem empty_archive_getTile env M (md : Metadata env) face zoom x y :
  0 <= M <= 255 ->
  0 < byteLength (encodeJSON env md) <= 131062 ->
  parseJSON env (encodeJSON env md) = Some md ->
  0 <= face <= 5 -> 0 <= zoom ->
  0 <= x < 2 ^ zoom -> 0 <= y < 2 ^ zoom ->
  exists w,
    commit env md None
      (constructor env None (Some M) (Some Compression.None)) = Ret tt w
    /\ forall mz cp, exists r,
         getTileS2 env face zoom x y (constructor env (Some (file w)) mz cp)
         = Ret (Some (if (5 <=? zoom) && negb ((zoom =? 5) && (M =? 5))
                      then alloc (byteLength (encodeJSON env md))
                      else [])) r.
Proof.
  intros HM Hlen Hp Hface Hzoom Hx Hy.
  set (blob := encodeJSON env md) in *.
  set (s0 := constructor env None (Some M) (Some Compression.None)).
  assert (Hfit : headerFits s0 None)
    by (repeat split; cbn; unfold Compression.None; lia).
  rewrite commit_run by assumption.
  change (compression s0) with Compression.None. fold blob.
  rewrite compressed_none.
  destruct (Z.ltb_spec (METADATA_SIZE - 10) (byteLength blob)) as [Hbig|_];
    [unfold METADATA_SIZE in Hbig; lia|].
  change (version s0) with 1. change (maxzoom s0) with M.
  change (file s0) with (zeroFile ROOT_SIZE). cbn [default].
  set (hdr := headerBytes 1 M Compression.None (byteLength blob)).
  set (fw := writeAt (writeAt (zeroFile ROOT_SIZE) 0 hdr) 10 blob).
  destruct (empty_archive_file hdr blob eq_refl Hlen) as (Hfs & Hh & Hb & Hzero).
  fold fw in Hfs, Hh, Hb, Hzero.
  eexists. split; [reflexivity|]. sproj.
  intros mz cp.
  set (r0 := constructor env (Some fw) mz cp).
  set (r1 := mkStore fw true ROOT_SIZE M 1 Compression.None (Some md)).
  assert (Hsetup : setup env r0 = Ret tt r1).
  { rewrite (setup_run r0 1 M Compression.None blob);
      [|reflexivity|exact Hh|exact Hb|change (METADATA_SIZE - 10) with 131062; lia
       |change (file r0) with fw; change ROOT_SIZE with 212972 in Hfs; lia
       |lia|lia|unfold Compression.None; lia].
    cbv zeta.
    change (decompressed env blob Compression.None) with (@inr Error _ blob).
    cbv beta iota. rewrite Hp. reflexivity. }
  exists r1. rewrite (getTileS2_setup r0 r1) by (assumption || reflexivity).
  unfold getTileS2. rewrite bind_run, (setup_done r1 eq_refl).
  rewrite bind_run. cbn [get].
  destruct (empty_archive_walk r1 face zoom x y) as (cursor & Hw & Hcur);
    try assumption; [change (file r1) with fw; lia|change (maxzoom r1) with M; lia|].
  change (maxzoom r1) with M in Hcur.
  rewrite bind_run, Hw.
  destruct ((5 <=? zoom) && negb ((zoom =? 5) && (M =? 5))).
  - subst cursor.
    rewrite bind_run, read_slot;
      [|unfold alloc; rewrite length_replicate; reflexivity
       |change (file r1) with fw; change ROOT_SIZE with 212972 in Hfs; lia].
    change (file r1) with fw. rewrite Hh.
    destruct (header_fields 1 M Compression.None (byteLength blob) [])
      as (E0 & E2 & E4 & E5 & E6 & _); try (unfold Compression.None; lia).
    cbv zeta in E0, E2, E4, E5, E6.
    rewrite app_nil_r in E0, E2, E4, E5, E6. fold hdr in E0, E2, E4, E5, E6.
    cbv beta iota zeta. rewrite E6.
    rewrite bind_run, readAsync_run. change (file r1) with fw.
    assert (Hfar : fsize fw <= _readUInt48LE hdr).
    { unfold _readUInt48LE. rewrite E0. change (JS.shl 1 16) with 65536.
      assert (E : readUint32LE hdr 2
                  = readUint16LE hdr 2 + 65536 * readUint8 hdr 4
                    + 16777216 * readUint8 hdr 5) by reflexivity.
      rewrite E, E2, E4, E5. unfold Compression.None.
      rewrite Hfs. change ROOT_SIZE with 212972. lia. }
    assert (Hread : fileRead fw (alloc (byteLength blob)) (byteLength blob)
                      (_readUInt48LE hdr) = alloc (byteLength blob)).
    { unfold fileRead.
      replace (Z.to_nat (Z.max 0 (Z.min (byteLength blob)
                 (fsize fw - _readUInt48LE hdr)))) with 0%nat by lia.
      reflexivity. }
    rewrite Hread.
    rewrite bind_run, decompress_run.
    change (compression r1) with Compression.None.
    reflexivity.
  - rewrite bind_run, read_slot;
      [|unfold alloc; rewrite length_replicate; reflexivity
       |change (file r1) with fw; lia].
    change (file r1) with fw.
    assert (Hn1 : _readUInt48LE (loadBytes fw cursor 10) = 0)
      by (change (fst (nodeAt fw cursor) = 0); rewrite Hzero by lia; reflexivity).
    assert (Hn2 : readUint32LE (loadBytes fw cursor 10) 6 = 0)
      by (change (snd (nodeAt fw cursor) = 0); rewrite Hzero by lia; reflexivity).
    cbv beta iota zeta. rewrite Hn1, Hn2.
    rewrite bind_run, readAsync_run.
    change (file r1) with fw.
    assert (Hread : fileRead fw (alloc 0) 0 0 = []).
    { unfold fileRead.
      replace (Z.to_nat (Z.max 0 (Z.min 0 (fsize fw - 0)))) with 0%nat by lia.
      reflexivity. }
    rewrite Hread.
    rewrite bind_run, decompress_run.
    change (compression r1) with Compression.None.
    reflexivity.
Qed.

Lemma empty_archive_getTile_witness :
  exists w,
    commit sampleEnv metadataTrue None
      (constructor sampleEnv None (Some 9) (Some Compression.None)) = Ret tt w
    /\ forall mz cp, exists r,
         getTileS2 sampleEnv 3 7 100 5
           (constructor sampleEnv (Some (file w)) mz cp)
         = Ret (Some (if (5 <=? 7) && negb ((7 =? 5) && (9 =? 5))
                      then alloc (byteLength (encodeJSON sampleEnv metadataTrue))
                      else [])) r.
Proof.
  apply (empty_archive_getTile sampleEnv 9 metadataTrue 3 7 100 5).
  - lia.
  - vm_compute. intuition discriminate.
  - reflexivity.
  - lia.
  - lia.
  - simpl. lia.
  - simpl. lia.
Defined.

End ExtraEmpty.
